(** * ra-jsonapi-client: the data provider, embedded and verified

    The repository holds two renderings of the data provider:
    - [src/index.js], the ES module source (module [Src] below);
    - its compiled CommonJS variant, which is not built from the same
      revision (module [Lib] below): it adds UPDATE_MANY, DELETE_MANY,
      [meta] query parameters and the [getValue] helper, and lacks the
      [getManyKey] setting and the sort parameter of GET_MANY_REFERENCE.

    Both are embedded statement by statement.  JavaScript values are trees
    over a heap of shared objects; the provider is a function in a state and
    exception monad over that heap and the log of HTTP requests. *)

From stdpp Require Import gmap strings list pretty.
From Stdlib Require Import ZArith Ascii.

Open Scope string_scope.
Set Warnings "-register-all".

(** ** Values

    Numbers are the integers among the JavaScript numbers.  An object is the
    list of its own properties in enumeration order.  [VObj] and [VArr] are
    objects nobody else holds (literals, parsed JSON, response bodies): they
    live inside their owner.  [VRef l] is a reference to the object stored at
    [l] in the heap: an object the caller shares with the provider. *)

Definition loc := positive.

Inductive value : Type :=
| VUndefined
| VNull
| VBool (b : bool)
| VNum (n : Z)
| VStr (s : string)
| VArr (xs : list value)
| VObj (fs : list (string * value))
| VRef (l : loc).

Abbreviation props := (list (string * value)).

(** The heap is total: every location holds an object or an array, the empty
    object unless something else was stored there. *)
Inductive object : Type :=
| Obj (fs : props)
| Arr (xs : list value).

Abbreviation heap := (gmap loc object).

Definition cell (h : heap) (l : loc) : object := default (Obj []) (h !! l).

Inductive error : Type :=
| TypeError
| SyntaxError
| RangeError
| NotImplementedError (message : string).

Inductive outcome (A : Type) : Type :=
| Normal (a : A)
| Throw (e : error).
Arguments Normal {A} a.
Arguments Throw {A} e.

(** The promise the provider returns: settled with the normalized result, or
    rejected by the transport ([None]) or by an exception of the callback. *)
Inductive promise : Type :=
| Fulfilled (v : value)
| Rejected (e : option error).

(** ** Exceptions without state: the reads *)

Definition obind {A B} (m : outcome A) (k : A → outcome B) : outcome B :=
  match m with
  | Normal a => k a
  | Throw e => Throw e
  end.

Notation "'let+' x := c 'in' k" := (obind c (λ x, k))
  (at level 10, x name, c at level 100, k at level 200).

(** ** Own properties *)

Fixpoint lookupOwn (k : string) (fs : props) : option value :=
  match fs with
  | [] => None
  | (k', v) :: fs' => if String.eqb k k' then Some v else lookupOwn k fs'
  end.

(** [o[k] = v] on the property list: an existing key keeps its place, a new
    one goes last.  (JavaScript enumerates the keys that are array indices
    first; no key that the provider sets is one.) *)
Fixpoint setOwn (k : string) (v : value) (fs : props) : props :=
  match fs with
  | [] => [(k, v)]
  | (k', v') :: fs' =>
      if String.eqb k k' then (k', v) :: fs' else (k', v') :: setOwn k v fs'
  end.

(** [delete o[k]]. *)
Fixpoint deleteOwn (k : string) (fs : props) : props :=
  match fs with
  | [] => []
  | (k', v') :: fs' =>
      if String.eqb k k' then deleteOwn k fs' else (k', v') :: deleteOwn k fs'
  end.

Definition hasOwn (k : string) (fs : props) : bool :=
  match lookupOwn k fs with
  | Some _ => true
  | None => false
  end.

(** The index keys ["0"], ["1"], ... of an array or a string. *)
Definition indexKeys (n : nat) : list string := pretty <$> seq 0 n.

Fixpoint chars (s : string) : list value :=
  match s with
  | EmptyString => []
  | String c s' => VStr (String c EmptyString) :: chars s'
  end.

Definition deref (h : heap) (v : value) : value :=
  match v with
  | VRef l => match cell h l with
              | Obj fs => VObj fs
              | Arr xs => VArr xs
              end
  | _ => v
  end.

(** The own enumerable properties, as [Object.keys] and [Object.assign]
    see them. *)
Definition entries (h : heap) (v : value) : props :=
  match deref h v with
  | VObj fs => fs
  | VArr xs => zip (indexKeys (length xs)) xs
  | VStr s => zip (indexKeys (String.length s)) (chars s)
  | _ => []
  end.

(** The properties of an array or a string: its length and its elements. *)
Definition indexed (k : string) (xs : list value) : value :=
  if String.eqb k "length" then VNum (Z.of_nat (length xs))
  else default VUndefined (lookupOwn k (zip (indexKeys (length xs)) xs)).

(** The value of [v[k]] where it can be read. *)
Definition prop (h : heap) (v : value) (k : string) : value :=
  match deref h v with
  | VObj fs => default VUndefined (lookupOwn k fs)
  | VArr xs => indexed k xs
  | VStr s => indexed k (chars s)
  | _ => VUndefined
  end.

Definition notNull (v : value) : bool :=
  match v with
  | VUndefined | VNull => false
  | _ => true
  end.

(** [v[k]] and [v.k]: a [TypeError] on [undefined] and [null]. *)
Definition get (h : heap) (v : value) (k : string) : outcome value :=
  if notNull v then Normal (prop h v k) else Throw TypeError.

Definition keys (h : heap) (v : value) : list string := fst <$> entries h v.

Definition Object_keys (h : heap) (v : value) : outcome (list string) :=
  if notNull v then Normal (keys h v) else Throw TypeError.

(** The keys that are array indices: the decimal numerals in canonical form
    below [2^32 - 1]. *)
Definition digit (c : Ascii.ascii) : option N :=
  let n := Ascii.N_of_ascii c in
  if ((48 <=? n) && (n <=? 57))%N then Some (n - 48)%N else None.

Fixpoint numeral (s : string) (acc : N) : option N :=
  match s with
  | EmptyString => Some acc
  | String c s' =>
      match digit c with
      | Some d => numeral s' (10 * acc + d)%N
      | None => None
      end
  end.

Definition arrayIndex (k : string) : option N :=
  match k with
  | EmptyString => None
  | String "0" EmptyString => Some 0%N
  | String "0" _ => None
  | _ =>
      match numeral k 0 with
      | Some n => if (n <? 4294967295)%N then Some n else None
      | None => None
      end
  end.

(** The enumeration order of own properties: the array indices first, in
    ascending order, then the other keys in the order of their creation.
    [precedes k k'] says that a new key [k] goes in front of the key [k']. *)
Definition precedes (k k' : string) : bool :=
  match arrayIndex k, arrayIndex k' with
  | Some n, Some n' => (n <? n')%N
  | Some _, None => true
  | None, _ => false
  end.

(** A data property is defined on an object: an existing key keeps its
    place, a new one takes its place in the enumeration order. *)
Fixpoint define (k : string) (v : value) (fs : props) : props :=
  match fs with
  | [] => [(k, v)]
  | (k', v') :: fs' =>
      if String.eqb k k' then (k', v) :: fs'
      else if precedes k k' then (k, v) :: fs
      else (k', v') :: define k v fs'
  end.

(** The object spread [{...target, ...source}] on a fresh target: every own
    property of the source is defined on the target. *)
Definition spread (h : heap) (target : props) (source : value) : props :=
  foldl (λ acc kv, define kv.1 kv.2 acc) target (entries h source).

(** [Object.assign(target, source)] on a fresh target that is an object
    literal, which is also the compiled [_extends]: [target[key] =
    source[key]] for every own key of the source.  The assignment defines an
    own property, but for the key [__proto__]: that one goes to the setter of
    [Object.prototype], which changes the prototype of the target, or does
    nothing when the value is no object, and leaves no own property.  (The
    prototype is not part of the values here.) *)
Definition Object_assign (h : heap) (target : props) (source : value) : props :=
  foldl (λ acc kv,
    if String.eqb kv.1 "__proto__" then acc else define kv.1 kv.2 acc)
    target (entries h source).

(** ** Truthiness, [||], [!= null], [===] on strings *)

Definition truthy (v : value) : bool :=
  match v with
  | VUndefined | VNull => false
  | VBool b => b
  | VNum n => negb (n =? 0)%Z
  | VStr s => negb (String.eqb s EmptyString)
  | _ => true
  end.

Definition or_else (a b : value) : value := if truthy a then a else b.

Definition strictEqStr (v : value) (s : string) : bool :=
  match v with
  | VStr t => String.eqb t s
  | _ => false
  end.

(** ** What the provider imports

    The modules [./actions] and [./default-settings], the libraries [qs],
    [deepmerge] and [axios], and the parts of the JavaScript runtime that are
    not worth a model of their own are taken as they come.  [axios] answers a
    request with a response or rejects; [stringify] and [JSON_stringify]
    return the text or throw (on a value that contains itself, for one);
    [toPrimitive] is the runtime's conversion of an object to a string, and
    [coerceEq] its [==] on operands of different types. *)

Record imports : Type := Imports {
  GET_LIST : string;
  GET_ONE : string;
  CREATE : string;
  UPDATE : string;
  UPDATE_MANY : string;
  DELETE : string;
  DELETE_MANY : string;
  GET_MANY : string;
  GET_MANY_REFERENCE : string;
  defaultSettings : value;
  merge : value → value → value;
  stringify : heap → value → value → outcome string;
  axios : value → option value;
  JSON_stringify : heap → value → outcome string;
  JSON_parse : string → outcome value;
  localStorage_getItem : string → option string;
  toPrimitive : heap → value → string;
  coerceEq : value → value → bool
}.

(** The request kinds of [src/index.js], in the order of its [switch]. *)
Definition actions (rt : imports) : list string :=
  [GET_LIST rt; GET_ONE rt; CREATE rt; UPDATE rt; DELETE rt; GET_MANY rt;
   GET_MANY_REFERENCE rt].

(** The request kinds of the compiled variant. *)
Definition actions_lib (rt : imports) : list string :=
  [GET_LIST rt; GET_ONE rt; CREATE rt; UPDATE rt; UPDATE_MANY rt; DELETE rt;
   DELETE_MANY rt; GET_MANY rt; GET_MANY_REFERENCE rt].

(** ** The world: the shared objects and the requests sent so far *)

Record world : Type := World {
  objects : heap;
  sent : list value
}.

Definition M (A : Type) : Type := world → outcome A * world.

Definition ret {A} (a : A) : M A := λ w, (Normal a, w).

Definition throw {A} (e : error) : M A := λ w, (Throw e, w).

Definition bind {A B} (m : M A) (k : A → M B) : M B := λ w,
  match m w with
  | (Normal a, w') => k a w'
  | (Throw e, w') => (Throw e, w')
  end.

Notation "'let*' x := c 'in' k" := (bind c (λ x, k))
  (at level 10, x name, c at level 100, k at level 200).

(** A read of the heap, as a step of the provider. *)
Definition read {A} (f : heap → outcome A) : M A := λ w, (f (objects w), w).

Definition store (l : loc) (o : object) : M unit := λ w,
  (Normal tt, World (<[l := o]> (objects w)) (sent w)).

Definition send (request : value) : M unit := λ w,
  (Normal tt, World (objects w) (sent w ++ [request])).

(** [for (x of xs) body(x)] over a local accumulator. *)
Fixpoint forEach {A B} (xs : list A) (body : A → B → M B) (acc : B) : M B :=
  match xs with
  | [] => ret acc
  | x :: xs' => let* acc' := body x acc in forEach xs' body acc'
  end.

(** [v[k] = x] in strict mode.  The object handle is returned: the same
    reference, or the updated object when it lives in a variable.  Named
    properties of arrays are outside the value model, the provider never
    sets one. *)
Definition setProp (v : value) (k : string) (x : value) : M value :=
  match v with
  | VRef l =>
      let* o := read (λ h, Normal (cell h l)) in
      match o with
      | Obj fs => let* _ := store l (Obj (setOwn k x fs)) in ret v
      | Arr _ => throw TypeError
      end
  | VObj fs => ret (VObj (setOwn k x fs))
  | _ => throw TypeError
  end.

(** [delete v[k]]: a [TypeError] on [undefined] and [null], nothing to do on
    the other primitives and on arrays, which have no named property here. *)
Definition deleteProp (v : value) (k : string) : M value :=
  match v with
  | VUndefined | VNull => throw TypeError
  | VRef l =>
      let* o := read (λ h, Normal (cell h l)) in
      match o with
      | Obj fs => let* _ := store l (Obj (deleteOwn k fs)) in ret v
      | Arr _ => ret v
      end
  | VObj fs => ret (VObj (deleteOwn k fs))
  | _ => ret v
  end.

(** An object that lives inside its owner is mutated by writing it back:
    [owner[k]] is [child] after the mutation.  A reference needs no such
    write, the heap has the mutation already. *)
Definition writeBack (owner : value) (k : string) (child : value) : M value :=
  match child with
  | VRef _ => ret owner
  | _ => setProp owner k child
  end.

(** ** Conversions *)

(** The string of a template literal or of [+] on a string. *)
Definition ToString (rt : imports) (h : heap) (v : value) : string :=
  match v with
  | VUndefined => "undefined"
  | VNull => "null"
  | VBool true => "true"
  | VBool false => "false"
  | VNum n => pretty n
  | VStr s => s
  | _ => toPrimitive rt h v
  end.

(** [a == b].  Two objects are equal when they are the same object: the
    operands compared by the provider come out of different [JSON.parse]
    calls, so they are not. *)
Definition looseEq (rt : imports) (a b : value) : bool :=
  match a, b with
  | (VUndefined | VNull), (VUndefined | VNull) => true
  | (VUndefined | VNull), _ | _, (VUndefined | VNull) => false
  | VBool x, VBool y => Bool.eqb x y
  | VNum x, VNum y => (x =? y)%Z
  | VStr x, VStr y => String.eqb x y
  | (VArr _ | VObj _ | VRef _), (VArr _ | VObj _ | VRef _) => false
  | _, _ => coerceEq rt a b
  end.

(** ** Array methods with callbacks that may throw *)

(** The receiver of [map], [filter] and [find]: on anything but an array the
    method is missing (or the receiver is [null]) and the call is a
    [TypeError]. *)
Definition isArray (h : heap) (v : value) : outcome (list value) :=
  match deref h v with
  | VArr xs => Normal xs
  | _ => Throw TypeError
  end.

Fixpoint mapO {A B} (f : A → outcome B) (xs : list A) : outcome (list B) :=
  match xs with
  | [] => Normal []
  | x :: xs' => let+ y := f x in let+ ys := mapO f xs' in Normal (y :: ys)
  end.

Fixpoint filterO {A} (f : A → outcome bool) (xs : list A) : outcome (list A) :=
  match xs with
  | [] => Normal []
  | x :: xs' =>
      let+ keep := f x in
      let+ ys := filterO f xs' in
      Normal (if keep then x :: ys else ys)
  end.

Fixpoint findO (f : value → outcome bool) (xs : list value) : outcome value :=
  match xs with
  | [] => Normal VUndefined
  | x :: xs' => let+ hit := f x in if hit then Normal x else findO f xs'
  end.

(** [xs.join(sep)]. *)
Definition join (rt : imports) (h : heap) (sep : string) (xs : list value) : string :=
  String.concat sep
    ((λ x, if notNull x then ToString rt h x else EmptyString) <$> xs).

(** [s.split(sep)] for a separator of one character. *)
Fixpoint split (sep : Ascii.ascii) (s : string) : list string :=
  match s with
  | EmptyString => [EmptyString]
  | String c s' =>
      if Ascii.eqb c sep then EmptyString :: split sep s'
      else match split sep s' with
           | p :: ps => String c p :: ps
           | [] => [String c EmptyString]
           end
  end.

(** ** The column preferences: [addFieldsToparams]

    The function is the same in both files ([src/index.js] 235-261 and
    329-355 of the compiled variant). *)

(** [JSON.parse(localStorage.getItem(key))]: a missing item is [null], and
    [JSON.parse(null)] is [null]. *)
Definition getItemJSON (rt : imports) (key : string) : outcome value :=
  match localStorage_getItem rt key with
  | None => Normal VNull
  | Some s => JSON_parse rt s
  end.

(** The local variable [selected] after the two [if]s (244-250). *)
Definition selected (rt : imports) (h : heap) (columns omit available : value)
  : outcome value :=
  let selected := available in
  let+ selected :=
    if notNull omit then
      let+ av := isArray h available in
      let+ kept :=
        filterO (λ a,
          let+ os := isArray h omit in
          let+ hit := findO (λ o,
            let+ source := get h a "source" in
            Normal (looseEq rt source o)) os in
          Normal (negb (truthy hit))) av in
      Normal (VArr kept)
    else Normal selected in
  if notNull columns then
    let+ cs := isArray h columns in
    let+ picked :=
      mapO (λ c,
        let+ av := isArray h available in
        findO (λ a,
          let+ index := get h a "index" in
          Normal (looseEq rt index c)) av) cs in
    Normal (VArr picked)
  else Normal selected.

(** The storage key prefix, and the last segment of the resource path
    (the locals [baseKey] and [apiResource]). *)
Definition baseKey (resource : string) : string :=
  "RaStore.preferences." +:+ resource +:+ ".datagrid".

Definition apiResource (resource : string) : string :=
  let resourceParts := split "/"%char resource in
  default "undefined" (last resourceParts).

Definition addFieldsToparams (rt : imports) (resource : string) (params : value)
  : M value :=
  let baseKey := baseKey resource in
  let* columns := read (λ _, getItemJSON rt (baseKey +:+ ".columns")) in
  let* omit := read (λ _, getItemJSON rt (baseKey +:+ ".omit")) in
  let* available := read (λ _, getItemJSON rt (baseKey +:+ ".availableColumns")) in
  let* selected := read (λ h, selected rt h columns omit available) in
  if notNull selected then
    let apiResource := apiResource resource in
    let* params := setProp params "fields" (VObj []) in
    let* fields := read (λ h, get h params "fields") in
    let* sources := read (λ h,
      let+ xs := isArray h selected in mapO (λ s, get h s "source") xs) in
    let* joined := read (λ h, Normal (join rt h "," sources)) in
    let* fields := setProp fields apiResource (VStr joined) in
    let* params := writeBack params "fields" fields in
    ret params
  else ret params.

(** ** Steps shared by the request kinds *)

(** The query key [name[key]]. *)
Definition param (name key : string) : string := name +:+ "[" +:+ key +:+ "]".

(** [Object.keys(params[name] || {}).forEach(key =>
      query[name + "[" + key + "]"] = params[name][key])],
    the loop that fills in [filter[..]], [fields[..]] and [meta[..]]. *)
Definition addParams (name : string) (params : value) (query : props) : M props :=
  let* group := read (λ h, get h params name) in
  let* keys := read (λ h, Object_keys h (or_else group (VObj []))) in
  forEach keys (λ key query,
    let* v := read (λ h, let+ group := get h params name in get h group key) in
    ret (setOwn (param name key) v query)) query.

(** [if (params.sort && params.sort.field) { query.sort = prefix + field }]. *)
Definition addSort (rt : imports) (params : value) (query : props) : M props :=
  let* sort := read (λ h, get h params "sort") in
  if truthy sort then
    let* field := read (λ h, get h sort "field") in
    if truthy field then
      let* order := read (λ h, get h sort "order") in
      let prefix := if strictEqStr order "ASC" then EmptyString else "-" in
      let* field := read (λ h, Normal (ToString rt h field)) in
      ret (setOwn "sort" (VStr (prefix +:+ field)) query)
    else ret query
  else ret query.

(** [const { page, perPage } = params.pagination] and the query literal. *)
Definition pageQuery (params : value) : M props :=
  let* pagination := read (λ h, get h params "pagination") in
  let* page := read (λ h, get h pagination "page") in
  let* perPage := read (λ h, get h pagination "perPage") in
  ret [("page[number]", page); ("page[size]", perPage)].

(** [Object.assign({ id: value.id }, value.attributes)], and the compiled
    [_extends({ id: id }, attributes)]. *)
Definition record (h : heap) (item : value) : outcome value :=
  let+ id := get h item "id" in
  let+ attributes := get h item "attributes" in
  Normal (VObj (Object_assign h [("id", id)] attributes)).

(** [const { id, attributes } = item] and the spread [{ id, ...attributes }]. *)
Definition spreadRecord (h : heap) (item : value) : outcome value :=
  let+ id := get h item "id" in
  let+ attributes := get h item "attributes" in
  Normal (VObj (spread h [("id", id)] attributes)).

(** [response.data.data.map(value => ...)]. *)
Definition records (h : heap) (response : value) : outcome value :=
  let+ body := get h response "data" in
  let+ data := get h body "data" in
  let+ xs := isArray h data in
  let+ rs := mapO (record h) xs in
  Normal (VArr rs).

(** [.then(callback)]: an exception of the callback rejects the promise. *)
Definition settle (callback : M value) : M promise := λ w,
  match callback w with
  | (Normal v, w') => (Normal (Fulfilled v), w')
  | (Throw e, w') => (Normal (Rejected (Some e)), w')
  end.

Definition unsupported (type : string) : error :=
  NotImplementedError ("Unsupported Data Provider request type " +:+ type).

Definition includes (type : string) (kinds : list string) : bool :=
  existsb (String.eqb type) kinds.

(** Modelled from the spec: the helper [getValue] of [./helpers], which the
    compiled variant calls to read the total, is not among the sources.  The
    spec (4.2) has it read the field "supporting nested/dotted lookup": the
    name is split at the dots and the fields are read one after the other, a
    step that cannot be read giving [undefined]. *)
Definition getValue (h : heap) (obj : value) (path : string) : value :=
  foldl (λ acc key,
    match get h acc key with
    | Normal v => v
    | Throw _ => VUndefined
    end) obj (split "."%char path).

(** ** [src/index.js] *)

Module Src.
Section Provider.

Variable rt : imports.

(** The [query] object of GET_LIST (43-66), and [params] after
    [addFieldsToparams]. *)
Definition listQuery (resource : string) (params : value) : M (props * value) :=
  let* query := pageQuery params in
  let* query := addParams "filter" params query in
  let* params := addFieldsToparams rt resource params in
  let* query := addParams "fields" params query in
  let* query := addSort rt params query in
  ret (query, params).

(** The [query] object of GET_MANY_REFERENCE (121-141). *)
Definition referenceQuery (params : value) : M props :=
  let* query := pageQuery params in
  let* query := addParams "filter" params query in
  let* key := read (λ h,
    let+ target := get h params "target" in
    Normal (param "filter" (ToString rt h target))) in
  let* id := read (λ h, get h params "id") in
  let query := setOwn key id query in
  addSort rt params query.

(** The [query] object of GET_MANY (110-112). *)
Definition manyQuery (settings params : value) : M props :=
  let* key := read (λ h,
    Normal (param "filter" (ToString rt h (prop h settings "getManyKey")))) in
  let* ids := read (λ h, get h params "ids") in
  ret [(key, ids)].

(** The first [switch] (41-151): the URL, the options and [params]. *)
Definition buildRequest (apiUrl : string) (settings : value)
  (type resource : string) (params : value) : M (string * props * value) :=
  let* headers := read (λ h, Normal (prop h settings "headers")) in
  let options := [("headers", headers)] in

  if String.eqb type (GET_LIST rt) then
    let* built := listQuery resource params in
    let '(query, params) := built in
    let* qs := read (λ h, stringify rt h (VObj query) VUndefined) in
    ret (apiUrl +:+ "/" +:+ resource +:+ "?" +:+ qs, options, params)

  else if String.eqb type (GET_ONE rt) then
    let* id := read (λ h, let+ id := get h params "id" in Normal (ToString rt h id)) in
    ret (apiUrl +:+ "/" +:+ resource +:+ "/" +:+ id, options, params)

  else if String.eqb type (CREATE rt) then
    let url := apiUrl +:+ "/" +:+ resource in
    let options := setOwn "method" (VStr "POST") options in
    let* data := read (λ h, get h params "data") in
    let* body := read (λ h, JSON_stringify rt h
      (VObj [("data", VObj [("type", VStr resource); ("attributes", data)])])) in
    let options := setOwn "data" (VStr body) options in
    ret (url, options, params)

  else if String.eqb type (UPDATE rt) then
    let* id := read (λ h, let+ id := get h params "id" in Normal (ToString rt h id)) in
    let url := apiUrl +:+ "/" +:+ resource +:+ "/" +:+ id in
    let* attributes := read (λ h, get h params "data") in
    let* attributes := deleteProp attributes "id" in
    let* params := writeBack params "data" attributes in
    let* id := read (λ h, get h params "id") in
    let data :=
      VObj [("data", VObj [("id", id); ("type", VStr resource);
                           ("attributes", attributes)])] in
    let* method := read (λ h, Normal (prop h settings "updateMethod")) in
    let options := setOwn "method" method options in
    let* body := read (λ h, JSON_stringify rt h data) in
    let options := setOwn "data" (VStr body) options in
    ret (url, options, params)

  else if String.eqb type (DELETE rt) then
    let* id := read (λ h, let+ id := get h params "id" in Normal (ToString rt h id)) in
    let url := apiUrl +:+ "/" +:+ resource +:+ "/" +:+ id in
    let options := setOwn "method" (VStr "DELETE") options in
    ret (url, options, params)

  else if String.eqb type (GET_MANY rt) then
    let* query := manyQuery settings params in
    let* arrayFormat := read (λ h, Normal (prop h settings "arrayFormat")) in
    let* qs := read (λ h, stringify rt h
      (VObj query) (VObj [("arrayFormat", arrayFormat)])) in
    ret (apiUrl +:+ "/" +:+ resource +:+ "?" +:+ qs, options, params)

  else if String.eqb type (GET_MANY_REFERENCE rt) then
    let* query := referenceQuery params in
    let* qs := read (λ h, stringify rt h (VObj query) VUndefined) in
    ret (apiUrl +:+ "/" +:+ resource +:+ "?" +:+ qs, options, params)

  else throw (unsupported type).

(** The total count of a collection request (154-166). *)
Definition total (settings : value) (type : string) (response : value) : M value :=
  let total := VUndefined in
  if includes type [GET_LIST rt; GET_MANY rt; GET_MANY_REFERENCE rt] then
    let* meta := read (λ h, let+ body := get h response "data" in get h body "meta") in
    let* total :=
      if truthy meta then
        let* name := read (λ h, Normal (prop h settings "total")) in
        if truthy name then
          read (λ h, get h meta (ToString rt h name))
        else ret total
      else ret total in
    if truthy total then ret total
    else read (λ h,
      let+ body := get h response "data" in
      let+ data := get h body "data" in
      get h data "length")
  else ret total.

(** The second [switch] (168-231). *)
Definition normalize (type : string) (params response total : value) : M value :=
  if includes type [GET_MANY rt; GET_LIST rt] then
    let* data := read (λ h, records h response) in
    ret (VObj [("data", data); ("total", total)])

  else if String.eqb type (GET_MANY_REFERENCE rt) then
    let* data := read (λ h, records h response) in
    ret (VObj [("data", data); ("total", total)])

  else if includes type [GET_ONE rt; CREATE rt; UPDATE rt] then
    let* item := read (λ h, let+ body := get h response "data" in get h body "data") in
    let* data := read (λ h, spreadRecord h item) in
    ret (VObj [("data", data)])

  else if String.eqb type (DELETE rt) then
    let* id := read (λ h, get h params "id") in
    ret (VObj [("data", VObj [("id", id)])])

  else throw (unsupported type).

(** The provider: the settings are merged, the request is built and sent,
    and the response, when there is one, is normalized.  [settings] is the
    object [deepmerge] returns, its properties are read without a check. *)
Definition dataProvider (apiUrl : string) (userSettings : value)
  (type resource : string) (params : value) : M promise :=
  let userSettings :=
    match userSettings with VUndefined => VObj [] | _ => userSettings end in
  let settings := merge rt (defaultSettings rt) userSettings in
  let* built := buildRequest apiUrl settings type resource params in
  let '(url, options, params) := built in
  let request := VObj (("url", VStr url) :: options) in
  let* _ := send request in
  match axios rt request with
  | None => ret (Rejected None)
  | Some response =>
      settle (let* total := total settings type response in
              normalize type params response total)
  end.

End Provider.
End Src.

(** ** The compiled variant *)

Module Lib.
Section Provider.

Variable rt : imports.

(** The [query] object of GET_LIST (81-110), and [params] after
    [addFieldsToparams]. *)
Definition listQuery (resource : string) (params : value) : M (props * value) :=
  let* query := pageQuery params in
  let* query := addParams "filter" params query in
  let* params := addFieldsToparams rt resource params in
  let* query := addParams "fields" params query in
  let* query := addParams "meta" params query in
  let* query := addSort rt params query in
  ret (query, params).

(** The [query] object of GET_MANY_REFERENCE (189-206): no sort. *)
Definition referenceQuery (params : value) : M props :=
  let* query := pageQuery params in
  let* query := addParams "filter" params query in
  let* key := read (λ h,
    let+ target := get h params "target" in
    Normal (param "filter" (ToString rt h target))) in
  let* id := read (λ h, get h params "id") in
  ret (setOwn key id query).

(** The [query] object of GET_MANY (178-180): the key is a constant. *)
Definition manyQuery (settings params : value) : M props :=
  let* ids := read (λ h, get h params "ids") in
  ret [("filter[id]", ids)].

(** The first [switch] (79-216). *)
Definition buildRequest (apiUrl : string) (settings : value)
  (type resource : string) (params : value) : M (string * props * value) :=
  let* headers := read (λ h, Normal (prop h settings "headers")) in
  let options := [("headers", headers)] in

  if String.eqb type (GET_LIST rt) then
    let* built := listQuery resource params in
    let '(query, params) := built in
    let* qs := read (λ h, stringify rt h (VObj query) VUndefined) in
    ret (apiUrl +:+ "/" +:+ resource +:+ "?" +:+ qs, options, params)

  else if String.eqb type (GET_ONE rt) then
    let* id := read (λ h, let+ id := get h params "id" in Normal (ToString rt h id)) in
    ret (apiUrl +:+ "/" +:+ resource +:+ "/" +:+ id, options, params)

  else if String.eqb type (CREATE rt) then
    let url := apiUrl +:+ "/" +:+ resource in
    let options := setOwn "method" (VStr "POST") options in
    let* data := read (λ h, get h params "data") in
    let* body := read (λ h, JSON_stringify rt h
      (VObj [("data", VObj [("type", VStr resource); ("attributes", data)])])) in
    let options := setOwn "data" (VStr body) options in
    ret (url, options, params)

  else if String.eqb type (UPDATE rt) then
    let* id := read (λ h, let+ id := get h params "id" in Normal (ToString rt h id)) in
    let url := apiUrl +:+ "/" +:+ resource +:+ "/" +:+ id in
    let* attributes := read (λ h, get h params "data") in
    let* attributes := deleteProp attributes "id" in
    let* params := writeBack params "data" attributes in
    let* id := read (λ h, get h params "id") in
    let data :=
      VObj [("data", VObj [("id", id); ("type", VStr resource);
                           ("attributes", attributes)])] in
    let* method := read (λ h, Normal (prop h settings "updateMethod")) in
    let options := setOwn "method" method options in
    let* body := read (λ h, JSON_stringify rt h data) in
    let options := setOwn "data" (VStr body) options in
    ret (url, options, params)

  else if String.eqb type (UPDATE_MANY rt) then
    let url := apiUrl +:+ "/" +:+ resource in
    let* ids := read (λ h, get h params "ids") in
    let* data := read (λ h, get h params "data") in
    let* method := read (λ h, Normal (prop h settings "updateMethod")) in
    let options := setOwn "method" method options in
    let* body := read (λ h, JSON_stringify rt h
      (VObj [("ids", ids); ("data", data)])) in
    let options := setOwn "data" (VStr body) options in
    ret (url, options, params)

  else if String.eqb type (DELETE rt) then
    let* id := read (λ h, let+ id := get h params "id" in Normal (ToString rt h id)) in
    let url := apiUrl +:+ "/" +:+ resource +:+ "/" +:+ id in
    let options := setOwn "method" (VStr "DELETE") options in
    ret (url, options, params)

  else if String.eqb type (DELETE_MANY rt) then
    let url := apiUrl +:+ "/" +:+ resource in
    let options := setOwn "method" (VStr "DELETE") options in
    let* ids := read (λ h, get h params "ids") in
    let* body := read (λ h, JSON_stringify rt h (VObj [("ids", ids)])) in
    let options := setOwn "data" (VStr body) options in
    ret (url, options, params)

  else if String.eqb type (GET_MANY rt) then
    let* query := manyQuery settings params in
    let* arrayFormat := read (λ h, Normal (prop h settings "arrayFormat")) in
    let* qs := read (λ h, stringify rt h
      (VObj query) (VObj [("arrayFormat", arrayFormat)])) in
    ret (apiUrl +:+ "/" +:+ resource +:+ "?" +:+ qs, options, params)

  else if String.eqb type (GET_MANY_REFERENCE rt) then
    let* query := referenceQuery params in
    let* qs := read (λ h, stringify rt h (VObj query) VUndefined) in
    ret (apiUrl +:+ "/" +:+ resource +:+ "?" +:+ qs, options, params)

  else throw (unsupported type).

(** The total count of a collection request (221-239). *)
Definition total (settings : value) (type : string) (response : value) : M value :=
  let total := VUndefined in
  if includes type [GET_LIST rt; GET_MANY rt; GET_MANY_REFERENCE rt] then
    let* meta := read (λ h, let+ body := get h response "data" in get h body "meta") in
    let* total :=
      if truthy meta then
        let* name := read (λ h, Normal (prop h settings "total")) in
        if truthy name then
          read (λ h, Normal (getValue h meta (ToString rt h name)))
        else ret total
      else ret total in
    if truthy total then ret total
    else read (λ h,
      let+ body := get h response "data" in
      let+ data := get h body "data" in
      get h data "length")
  else ret total.

(** The second [switch] (241-324). *)
Definition normalize (type : string) (params response total : value) : M value :=
  if includes type [GET_MANY rt; GET_LIST rt] then
    let* data := read (λ h, records h response) in
    let* meta := read (λ h, let+ body := get h response "data" in get h body "meta") in
    ret (VObj [("data", data); ("total", total); ("meta", meta)])

  else if String.eqb type (GET_MANY_REFERENCE rt) then
    let* data := read (λ h, records h response) in
    ret (VObj [("data", data); ("total", total)])

  else if includes type [GET_ONE rt; CREATE rt; UPDATE rt] then
    let* item := read (λ h, let+ body := get h response "data" in get h body "data") in
    let* data := read (λ h, record h item) in
    ret (VObj [("data", data)])

  else if String.eqb type (DELETE rt) then
    let* id := read (λ h, get h params "id") in
    ret (VObj [("data", VObj [("id", id)])])

  else if includes type [UPDATE_MANY rt; DELETE_MANY rt] then
    let* ids := read (λ h, get h params "ids") in
    ret (VObj [("data", ids)])

  else throw (unsupported type).

(** The provider: the settings are merged, the request is built and sent,
    and the response, when there is one, is normalized.  [settings] is the
    object [deepmerge] returns, its properties are read without a check. *)
Definition dataProvider (apiUrl : string) (userSettings : value)
  (type resource : string) (params : value) : M promise :=
  let userSettings :=
    match userSettings with VUndefined => VObj [] | _ => userSettings end in
  let settings := merge rt (defaultSettings rt) userSettings in
  let* built := buildRequest apiUrl settings type resource params in
  let '(url, options, params) := built in
  let request := VObj (("url", VStr url) :: options) in
  let* _ := send request in
  match axios rt request with
  | None => ret (Rejected None)
  | Some response =>
      settle (let* total := total settings type response in
              normalize type params response total)
  end.

End Provider.
End Lib.

(** ** A fixture to run the provider in

    Stand-ins for the imports: react-admin's request kinds, the documented
    default settings, a shallow [merge], a [stringify] that writes
    [key=value] pairs without encoding, a [JSON.stringify] that writes
    without quotes and throws a [TypeError] on a value that contains itself,
    a transport that answers every request with [response], and a store
    whose JSON texts are named instead of written out ([json] gives the value
    each text parses to). *)

Definition plain (v : value) : string :=
  match v with
  | VStr s => s
  | VNum n => pretty n
  | VArr xs =>
      String.concat ","
        ((λ x, match x with VStr s => s | VNum n => pretty n | _ => "?" end) <$> xs)
  | _ => "?"
  end.

Definition plain_stringify (h : heap) (query options : value) : string :=
  String.concat "&" ((λ kv, kv.1 +:+ "=" +:+ plain (deref h kv.2)) <$> entries h query).

(** The text of a value; [n] is the number of references that may be
    followed on the way down. *)
Fixpoint json_text (n : nat) (h : heap) : value → outcome string :=
  fix text (v : value) : outcome string :=
    let texts :=
      fix texts (xs : list value) : outcome (list string) :=
        match xs with
        | [] => Normal []
        | x :: xs' =>
            let+ s := text x in
            let+ ss := texts xs' in
            Normal (s :: ss)
        end in
    let members :=
      fix members (fs : props) : outcome (list string) :=
        match fs with
        | [] => Normal []
        | (k, x) :: fs' =>
            let+ s := text x in
            let+ ss := members fs' in
            Normal ((k +:+ ":" +:+ s) :: ss)
        end in
    match v with
    | VUndefined => Normal "undefined"
    | VNull => Normal "null"
    | VBool true => Normal "true"
    | VBool false => Normal "false"
    | VNum z => Normal (pretty z)
    | VStr s => Normal s
    | VArr xs => let+ ss := texts xs in Normal ("[" +:+ String.concat "," ss +:+ "]")
    | VObj fs => let+ ss := members fs in Normal ("{" +:+ String.concat "," ss +:+ "}")
    | VRef l =>
        match n with
        | O => Throw TypeError
        | S n' => json_text n' h (deref h v)
        end
    end.

(** In a heap of [n] objects, a chain of more than [n + 1] references comes
    back to an object it has left. *)
Definition plain_json (h : heap) (v : value) : outcome string :=
  json_text (S (size h)) h v.

Definition table {A} (t : list (string * A)) (k : string) : option A :=
  snd <$> find (λ kv, String.eqb k kv.1) t.

Definition fixture (storage : list (string * string)) (json : list (string * value))
  (response : option value) : imports :=
  {| GET_LIST := "GET_LIST";
     GET_ONE := "GET_ONE";
     CREATE := "CREATE";
     UPDATE := "UPDATE";
     UPDATE_MANY := "UPDATE_MANY";
     DELETE := "DELETE";
     DELETE_MANY := "DELETE_MANY";
     GET_MANY := "GET_MANY";
     GET_MANY_REFERENCE := "GET_MANY_REFERENCE";
     defaultSettings :=
       VObj [("headers", VObj []); ("updateMethod", VStr "PATCH");
             ("arrayFormat", VStr "brackets"); ("getManyKey", VStr "id")];
     merge := λ a b, VObj (Object_assign ∅ (entries ∅ a) b);
     stringify := λ h query options, Normal (plain_stringify h query options);
     axios := λ _, response;
     JSON_stringify := plain_json;
     JSON_parse := λ s, match table json s with
                        | Some v => Normal v
                        | None => Throw SyntaxError
                        end;
     localStorage_getItem := table storage;
     toPrimitive := λ _ _, "[object Object]";
     coerceEq := λ _ _, false |}.

Definition emptyWorld : world := World ∅ [].

(** ** Definitions for the statements

    What the steps of the provider compute, as the spec words it, and the
    shapes the theorems below talk about. *)

(** What the loop of [addParams] leaves in the query. *)
Definition filled (name : string) (h : heap) (group : value) (query : props) : props :=
  foldl (λ q key, setOwn (param name key) (prop h group key) q) query
    (keys h (or_else group (VObj []))).

(** The sort parameter as the spec words it: the field, with [-] in front
    unless the order is ["ASC"]; none without a sort field. *)
Definition sortParam (rt : imports) (h : heap) (params : value) : option string :=
  let sort := prop h params "sort" in
  let field := prop h sort "field" in
  if truthy sort && truthy field then
    Some ((if strictEqStr (prop h sort "order") "ASC" then EmptyString else "-")
          +:+ ToString rt h field)
  else None.

Definition pageEntries (h : heap) (params : value) : props :=
  let pagination := prop h params "pagination" in
  [("page[number]", prop h pagination "page");
   ("page[size]", prop h pagination "perPage")].

Definition sorted (rt : imports) (h : heap) (params : value) (query : props) : props :=
  match sortParam rt h params with
  | Some s => setOwn "sort" (VStr s) query
  | None => query
  end.

(** The entries the two files agree on: the page, the filters and the
    reference; the stored column preferences play no part. *)
Definition referenceEntries (rt : imports) (h : heap) (params : value) (q : props)
  : Prop :=
  let pagination := prop h params "pagination" in
  let filter := prop h params "filter" in
  let target := ToString rt h (prop h params "target") in
  lookupOwn "page[number]" q = Some (prop h pagination "page")
  ∧ lookupOwn "page[size]" q = Some (prop h pagination "perPage")
  ∧ (∀ K, K ∈ keys h (or_else filter (VObj [])) → K ≠ target →
       lookupOwn (param "filter" K) q = Some (prop h filter K))
  ∧ lookupOwn (param "filter" target) q = Some (prop h params "id")
  ∧ (∀ x, lookupOwn (param "fields" x) q = None).

(** A step that reads and does not write. *)
Definition readonly {A} (m : M A) : Prop := ∀ w, (m w).2 = w.

(** The settings after the merge. *)
Definition merged (rt : imports) (userSettings : value) : value :=
  merge rt (defaultSettings rt)
    match userSettings with VUndefined => VObj [] | _ => userSettings end.

(** What UPDATE serializes. *)
Definition updateBody (resource : string) (id attributes : value) : value :=
  VObj [("data", VObj [("id", id); ("type", VStr resource);
                       ("attributes", attributes)])].

(** What UPDATE leaves in the heap [h']: [fs] are the properties of
    [params.data] before the call, [attributes] is what is serialized. *)
Definition stripped (params data : value) (fs : props) (attributes : value)
  (h' : heap) : Prop :=
  entries h' attributes = deleteOwn "id" fs
  ∧ (∀ d, data = VRef d →
       attributes = VRef d ∧ cell h' d = Obj (deleteOwn "id" fs))
  ∧ (∀ p, params = VRef p → data = VObj fs →
       attributes = VObj (deleteOwn "id" fs)
       ∧ prop h' params "data" = VObj (deleteOwn "id" fs)).

(** What UPDATE builds: [id] is deleted, then the body is serialized, and
    the serializer returns the text or throws. *)
Definition updated (rt : imports) (apiUrl resource : string)
  (settings params data : value) (fs : props) (w : world)
  (r : outcome (string * props * value) * world) : Prop :=
  let h := objects w in
  ∃ params' attributes h',
    stripped params data fs attributes h'
    ∧ r = match JSON_stringify rt h'
                  (updateBody resource (prop h params "id") attributes) with
          | Normal body =>
              (Normal
                 (apiUrl +:+ "/" +:+ resource +:+ "/" +:+
                  ToString rt h (prop h params "id"),
                  [("headers", prop h settings "headers");
                   ("method", prop h' settings "updateMethod");
                   ("data", VStr body)],
                  params'), World h' (sent w))
          | Throw e => (Throw e, World h' (sent w))
          end.

(** An UPDATE call as its caller sees it: the heap it leaves, and the
    request that was sent, or the exception of the serializer with nothing
    sent. *)
Definition updateCall (rt : imports) (apiUrl resource : string)
  (settings params data : value) (fs : props) (w : world)
  (r : outcome promise * world) : Prop :=
  let h := objects w in
  ∃ attributes h',
    stripped params data fs attributes h'
    ∧ match JSON_stringify rt h'
              (updateBody resource (prop h params "id") attributes) with
      | Normal body =>
          ∃ p, r = (Normal p,
                    World h' (sent w ++
                      [VObj [("url", VStr (apiUrl +:+ "/" +:+ resource +:+ "/" +:+
                                           ToString rt h (prop h params "id")));
                             ("headers", prop h settings "headers");
                             ("method", prop h' settings "updateMethod");
                             ("data", VStr body)]]))
      | Throw e => r = (Throw e, World h' (sent w))
      end.

(** The names an object has from [Object.prototype]: a read of one of them
    on an object without an own property of that name finds the inherited
    member.  [prop] reads own properties, so a statement about a name the
    caller chooses leaves these names out. *)
Definition inherited (k : string) : bool :=
  existsb (String.eqb k)
    ["__proto__"; "constructor"; "hasOwnProperty"; "isPrototypeOf";
     "propertyIsEnumerable"; "toLocaleString"; "toString"; "valueOf";
     "__defineGetter__"; "__defineSetter__"; "__lookupGetter__";
     "__lookupSetter__"].

(** The selection as the spec words it: the available columns whose index
    matches a listed column, in listed order; else the available columns
    whose source is not in the omit list; else all available columns. *)
Definition matches (rt : imports) (h : heap) (c a : value) : bool :=
  looseEq rt (prop h a "index") c.

Definition inOmit (rt : imports) (h : heap) (os : list value) (a : value) : bool :=
  existsb (λ o, looseEq rt (prop h a "source") o) os.

Definition selection (rt : imports) (h : heap) (columns omit available : value)
  : option (list value) :=
  match columns, omit, available with
  | VArr cs, _, VArr av => Some (omap (λ c, find (matches rt h c) av) cs)
  | VNull, VArr os, VArr av => Some (List.filter (λ a, negb (inOmit rt h os a)) av)
  | VNull, VNull, VArr av => Some av
  | _, _, _ => None
  end.

Definition primitive (v : value) : bool :=
  match v with
  | VArr _ | VObj _ | VRef _ => false
  | _ => true
  end.

(** The values a property can be assigned to: the objects. *)
Definition writable (h : heap) (v : value) : bool :=
  match v with
  | VObj _ => true
  | VRef l => match cell h l with Obj _ => true | Arr _ => false end
  | _ => false
  end.

(** Stored preferences that the code applies as the spec words it: the
    available columns are objects, the omit list, if there is one, is a
    list without a falsy entry, and every listed column is available. *)
Definition applicable (rt : imports) (h : heap) (columns omit available : value)
  : Prop :=
  (∀ av, available = VArr av → Forall (λ a, notNull a = true) av)
  ∧ (omit = VNull ∨ ∃ os, omit = VArr os ∧ Forall (λ o, truthy o = true) os)
  ∧ (∀ cs av, columns = VArr cs → available = VArr av →
       Forall (λ c, existsb (matches rt h c) av = true) cs).

(** ** Inputs to run the provider on *)

Definition deleteParams : value := VObj [("id", VNum 7)].

Definition manyParams : value := VObj [("ids", VArr [VNum 1; VNum 2; VNum 3])].
Definition manySettings : value := VObj [("getManyKey", VStr "ids")].

Definition referenceParams : value :=
  VObj [("pagination", VObj [("page", VNum 1); ("perPage", VNum 10)]);
        ("sort", VObj [("field", VStr "name"); ("order", VStr "ASC")]);
        ("filter", VObj [("q", VStr "x")]);
        ("target", VStr "author_id");
        ("id", VNum 5)].

Definition listParams (order : string) : value :=
  VObj [("pagination", VObj [("page", VNum 1); ("perPage", VNum 10)]);
        ("sort", VObj [("field", VStr "name"); ("order", VStr order)]);
        ("filter", VObj [("q", VStr "x")])].

Definition threeItems : list value :=
  [VObj [("id", VNum 1)]; VObj [("id", VNum 2)]; VObj [("id", VNum 3)]].

Definition countBody (count : Z) : value :=
  VObj [("data", VArr threeItems); ("meta", VObj [("count", VNum count)])].

Definition countSettings : value := VObj [("total", VStr "count")].

(** The caller's objects: [params] at 1, its [data] at 2. *)
Definition updateHeap : heap :=
  {[ 1%positive := Obj [("id", VNum 7); ("data", VRef 2%positive)];
     2%positive := Obj [("id", VNum 7); ("title", VStr "t")] ]}.

Definition updateWorld : world := World updateHeap [].

(** The same with a [data] that contains itself. *)
Definition cyclicWorld : world :=
  World {[ 1%positive := Obj [("id", VNum 7); ("data", VRef 2%positive)];
           2%positive := Obj [("id", VNum 7); ("self", VRef 2%positive)] ]} [].

Definition postsKey (suffix : string) : string :=
  "RaStore.preferences.posts.datagrid" +:+ suffix.

(** A store with an omit list and nothing else. *)
Definition omitOnly : imports :=
  fixture [(postsKey ".omit", "OMIT")] [("OMIT", VArr [VStr "body"])] None.

(** A store with an empty column list and nothing else. *)
Definition emptyColumns : imports :=
  fixture [(postsKey ".columns", "[]")] [("[]", VArr [])]
    (Some (VObj [("data", VObj [("data", VArr [])])])).

(** The stored preferences of the spec's example: two available columns,
    [body] omitted, no column list. *)
Definition examplePreferences : imports :=
  fixture [(postsKey ".availableColumns", "AVAILABLE"); (postsKey ".omit", "OMIT")]
    [("AVAILABLE", VArr [VObj [("index", VNum 1); ("source", VStr "title")];
                         VObj [("index", VNum 2); ("source", VStr "body")]]);
     ("OMIT", VArr [VStr "body"])]
    None.

(** Two available columns and a column list. *)
Definition listedColumns (columns : list value) : imports :=
  fixture [(postsKey ".availableColumns", "AVAILABLE"); (postsKey ".columns", "COLUMNS")]
    [("AVAILABLE", VArr [VObj [("index", VNum 1); ("source", VStr "title")];
                         VObj [("index", VNum 2); ("source", VStr "body")]]);
     ("COLUMNS", VArr columns)]
    None.

(** What a caller passes who selects fields itself. *)
Definition callerParams : value :=
  VObj [("pagination", VObj [("page", VNum 1); ("perPage", VNum 10)]);
        ("fields", VObj [("posts", VStr "title")])].

(** ** Definitions for the rest of the provider

    The shapes and the inputs of the properties that follow the claims. *)

(** A step that sends nothing. *)
Definition quiet {A} (m : M A) : Prop := ∀ w, sent (m w).2 = sent w.

(** What a caller sees of a call: a throw with nothing sent, or a promise
    with one request sent, which has a URL. *)
Definition sendsOnce (w : world) (r : outcome promise * world) : Prop :=
  (∃ e, r.1 = Throw e ∧ sent r.2 = sent w)
  ∨ (∃ p request url,
       r.1 = Normal p
       ∧ sent r.2 = (sent w ++ [request])%list
       ∧ prop (objects r.2) request "url" = VStr url).

(** What every result of a step satisfies. *)
Definition post {A} (P : A → Prop) (m : M A) : Prop :=
  ∀ w a w', m w = (Normal a, w') → P a.

(** The options of a request that reads. *)
Definition bare (headers : value) (built : string * props * value) : Prop :=
  built.1.2 = [("headers", headers)].

(** The request of a kind that reads: a URL and the headers. *)
Definition bareRequest (rt : imports) (userSettings : value) (w : world)
  (r : outcome promise * world) : Prop :=
  ∀ p, r.1 = Normal p →
    ∃ url,
      sent r.2 = (sent w ++
        [VObj [("url", VStr url);
               ("headers", prop (objects w) (merged rt userSettings) "headers")]])%list.

(** The record of an item that is there: [Object.assign({ id },
    attributes)], and the spread [{ id, ...attributes }]. *)
Definition flat (h : heap) (item : value) : value :=
  VObj (Object_assign h [("id", prop h item "id")] (prop h item "attributes")).

Definition flatSpread (h : heap) (item : value) : value :=
  VObj (spread h [("id", prop h item "id")] (prop h item "attributes")).

(** The answer to a request for one record. *)
Definition recordResponse : value :=
  VObj [("data", VObj [("data",
    VObj [("id", VNum 7); ("attributes", VObj [("title", VStr "x")])])])].

(** An item whose attributes have an [id] of their own. *)
Definition shadowedItem : value :=
  VObj [("id", VNum 7);
        ("attributes", VObj [("title", VStr "x"); ("id", VStr "inner")])].

(** An item whose attributes have an array index and [__proto__] among
    their keys, as [JSON.parse] makes them. *)
Definition protoItem : value :=
  VObj [("id", VNum 7);
        ("attributes", VObj [("1", VStr "a"); ("title", VStr "x");
                             ("__proto__", VObj [("admin", VBool true)])])].

(** The answer to a request for one record with such attributes. *)
Definition protoResponse : value := VObj [("data", VObj [("data", protoItem)])].

(** The answer to a collection request: two items and a meta object. *)
Definition collectionItems : list value :=
  [VObj [("id", VNum 1); ("attributes", VObj [("title", VStr "a")])];
   VObj [("id", VNum 2); ("attributes", VObj [("title", VStr "b")])]].

Definition collectionResponse : value :=
  VObj [("data", VObj [("data", VArr collectionItems);
                       ("meta", VObj [("page", VNum 1)])])].

(** A step whose only exception is a [TypeError]. *)
Definition typeErrors {A} (m : M A) : Prop :=
  ∀ w e w', m w = (Throw e, w') → e = TypeError.

(** What a caller passes who asks for more than the records. *)
Definition metaParams : value :=
  VObj [("pagination", VObj [("page", VNum 1); ("perPage", VNum 10)]);
        ("meta", VObj [("include", VStr "author")])].

(** A call that succeeds in sending [request], the heap being left as it
    was. *)
Definition sends (w : world) (request : value) (r : outcome promise * world) : Prop :=
  ∃ p, r = (Normal p, World (objects w) (sent w ++ [request])).

(** A call that needs the text of a value, which the serializer returns or
    fails to: the request made of the text is sent, or the call throws what
    the serializer threw and nothing is sent.  The heap is left as it was. *)
Definition serialized (text : outcome string) (request : string → value)
  (w : world) (r : outcome promise * world) : Prop :=
  match text with
  | Normal s => sends w (request s) r
  | Throw e => r = (Throw e, w)
  end.

(** What CREATE serializes, and its request. *)
Definition createBody (resource : string) (data : value) : value :=
  VObj [("data", VObj [("type", VStr resource); ("attributes", data)])].

Definition createRequest (apiUrl resource : string) (headers : value)
  (body : string) : value :=
  VObj [("url", VStr (apiUrl +:+ "/" +:+ resource));
        ("headers", headers);
        ("method", VStr "POST");
        ("data", VStr body)].

(** The request of UPDATE_MANY and DELETE_MANY. *)
Definition bulkRequest (apiUrl resource : string) (headers method : value)
  (body : string) : value :=
  VObj [("url", VStr (apiUrl +:+ "/" +:+ resource));
        ("headers", headers);
        ("method", method);
        ("data", VStr body)].

(** What a caller passes to the kinds that work on many records. *)
Definition bulkParams : value :=
  VObj [("ids", VArr [VNum 1; VNum 2]); ("data", VObj [("done", VBool true)])].

(** What a caller passes to CREATE. *)
Definition createParams : value :=
  VObj [("data", VObj [("id", VNum 7); ("title", VStr "t")])].

(** The values whose string the model writes as JavaScript does: the
    primitives, a number being an integer that a double holds exactly. *)
Definition printable (v : value) : bool :=
  match v with
  | VNum n => (Z.abs n <? 2 ^ 53)%Z
  | VArr _ | VObj _ | VRef _ => false
  | _ => true
  end.

(** The request of GET_ONE. *)
Definition oneRequest (rt : imports) (apiUrl resource : string)
  (settings params : value) (h : heap) : value :=
  VObj [("url", VStr (apiUrl +:+ "/" +:+ resource +:+ "/" +:+
                      ToString rt h (prop h params "id")));
        ("headers", prop h settings "headers")].

(** From [w] to [w'] only properties named in [ks] were written: every other
    property of every object reads as before. *)
Definition frame (ks : list string) (w w' : world) : Prop :=
  ∀ v k, k ∉ ks → prop (objects w') v k = prop (objects w) v k.

(** A call that throws a [TypeError] and sends nothing. *)
Definition crashes (w : world) (r : outcome promise * world) : Prop :=
  ∃ w', r = (Throw TypeError, w') ∧ sent w' = sent w.

(** What the omit test of the code decides: the first entry of the omit list
    that equals the source of the column, taken as a condition. *)
Definition omitted (rt : imports) (h : heap) (os : list value) (a : value) : bool :=
  truthy (default VUndefined (find (λ o, looseEq rt (prop h a "source") o) os)).

(** The request of GET_LIST for the text of its query. *)
Definition listRequest (apiUrl resource : string) (headers : value) (qs : string)
  : value :=
  VObj [("url", VStr (apiUrl +:+ "/" +:+ resource +:+ "?" +:+ qs));
        ("headers", headers)].

(** The three stored preferences, read in the order of the code. *)
Definition preferences (rt : imports) (resource : string)
  : outcome (value * value * value) :=
  let+ columns := getItemJSON rt (baseKey resource +:+ ".columns") in
  let+ omit := getItemJSON rt (baseKey resource +:+ ".omit") in
  let+ available := getItemJSON rt (baseKey resource +:+ ".availableColumns") in
  Normal (columns, omit, available).

(** A store whose omit list is not JSON. *)
Definition brokenStore : imports := fixture [(postsKey ".omit", "{")] [] None.

(** * Properties *)

(** ** Own properties *)

Lemma eqb_false (a b : string) : a ≠ b → String.eqb a b = false.
Proof. apply String.eqb_neq. Qed.

Lemma lookupOwn_setOwn k k' v fs :
  lookupOwn k' (setOwn k v fs)
  = if String.eqb k' k then Some v else lookupOwn k' fs.
Proof.
  induction fs as [|[k0 v0] fs IH]; simpl.
  - reflexivity.
  - destruct (String.eqb_spec k k0) as [->|Hk]; simpl.
    + destruct (String.eqb k' k0); reflexivity.
    + rewrite IH. destruct (String.eqb_spec k' k0) as [->|Hk'].
      * rewrite eqb_false by congruence. reflexivity.
      * reflexivity.
Qed.

Lemma lookupOwn_setOwn_eq k v fs : lookupOwn k (setOwn k v fs) = Some v.
Proof. rewrite lookupOwn_setOwn, String.eqb_refl. reflexivity. Qed.

Lemma lookupOwn_setOwn_ne k k' v fs :
  k' ≠ k → lookupOwn k' (setOwn k v fs) = lookupOwn k' fs.
Proof. intros H. rewrite lookupOwn_setOwn, eqb_false by exact H. reflexivity. Qed.

Lemma lookupOwn_deleteOwn k k' fs :
  lookupOwn k' (deleteOwn k fs)
  = if String.eqb k' k then None else lookupOwn k' fs.
Proof.
  induction fs as [|[k0 v0] fs IH]; simpl.
  - destruct (String.eqb k' k); reflexivity.
  - destruct (String.eqb_spec k k0) as [->|Hk]; simpl.
    + rewrite IH. destruct (String.eqb k' k0); reflexivity.
    + rewrite IH. destruct (String.eqb_spec k' k0) as [->|Hk'].
      * rewrite eqb_false by congruence. reflexivity.
      * reflexivity.
Qed.

Lemma hasOwn_deleteOwn k fs : hasOwn k (deleteOwn k fs) = false.
Proof. unfold hasOwn. rewrite lookupOwn_deleteOwn, String.eqb_refl. reflexivity. Qed.

(** ** Query keys *)

Lemma append_inj_l (a x y : string) : a +:+ x = a +:+ y → x = y.
Proof. induction a as [|c a IH]; simpl; intros H; [exact H | injection H; auto]. Qed.

Lemma append_bracket_inj (x y : string) : x +:+ "]" = y +:+ "]" → x = y.
Proof.
  revert y. induction x as [|c x IH]; intros [|d y]; simpl; intros H.
  - reflexivity.
  - destruct y; discriminate.
  - destruct x; discriminate.
  - injection H as -> H. f_equal. apply IH, H.
Qed.

Lemma param_inj name x y : param name x = param name y → x = y.
Proof.
  unfold param. intros H. apply append_inj_l in H.
  simpl in H. injection H as H. apply append_bracket_inj, H.
Qed.

Lemma truthy_notNull v : truthy v = true → notNull v = true.
Proof. destruct v; simpl; congruence. Qed.

Lemma notNull_or_else v : notNull (or_else v (VObj [])) = true.
Proof.
  unfold or_else. destruct (truthy v) eqn:E; [apply truthy_notNull, E | reflexivity].
Qed.

(** ** The steps of the query *)

Lemma bind_read {A B} (f : heap → outcome A) (k : A → M B) w :
  bind (read f) k w
  = match f (objects w) with
    | Normal a => k a w
    | Throw e => (Throw e, w)
    end.
Proof. reflexivity. Qed.

Lemma get_ok h v k : notNull v = true → get h v k = Normal (prop h v k).
Proof. unfold get. intros ->. reflexivity. Qed.

Lemma get_null h v k : notNull v = false → get h v k = Throw TypeError.
Proof. unfold get. intros ->. reflexivity. Qed.

Lemma bind_inv {A B} (m : M A) (k : A → M B) w b w' :
  bind m k w = (Normal b, w') →
  ∃ a w1, m w = (Normal a, w1) ∧ k a w1 = (Normal b, w').
Proof.
  unfold bind. destruct (m w) as [[a|e] w1]; intros H; [eauto | discriminate].
Qed.

Lemma forEach_params name params group ks query w :
  notNull params = true →
  prop (objects w) params name = group →
  notNull group = true →
  forEach ks (λ key query,
    let* v := read (λ h, let+ group := get h params name in get h group key) in
    ret (setOwn (param name key) v query)) query w
  = (Normal (foldl (λ q key, setOwn (param name key) (prop (objects w) group key) q)
       query ks), w).
Proof.
  intros Hp Hg Hn. revert query.
  induction ks as [|key ks IH]; intros query; simpl.
  - reflexivity.
  - unfold bind at 1. rewrite bind_read, (get_ok _ params) by exact Hp. simpl.
    rewrite Hg, get_ok by exact Hn. unfold ret at 1. apply IH.
Qed.

Lemma addParams_run name params query w :
  notNull params = true →
  addParams name params query w
  = (Normal (filled name (objects w) (prop (objects w) params name) query), w).
Proof.
  intros Hp. unfold addParams, filled.
  rewrite bind_read, get_ok by exact Hp.
  rewrite bind_read. unfold Object_keys. rewrite notNull_or_else.
  set (group := prop (objects w) params name).
  unfold or_else. destruct (truthy group) eqn:Ht.
  - apply forEach_params; auto using truthy_notNull.
  - reflexivity.
Qed.

Lemma lookupOwn_foldl_other (f : string → string) (g : string → value) k ks q :
  (∀ key, k ≠ f key) →
  lookupOwn k (foldl (λ q key, setOwn (f key) (g key) q) q ks) = lookupOwn k q.
Proof.
  intros Hk. revert q. induction ks as [|key ks IH]; intros q; simpl.
  - reflexivity.
  - rewrite IH. apply lookupOwn_setOwn_ne, Hk.
Qed.

Lemma lookupOwn_foldl (f : string → string) (g : string → value) x ks q :
  (∀ a b, f a = f b → a = b) →
  lookupOwn (f x) (foldl (λ q key, setOwn (f key) (g key) q) q ks)
  = if bool_decide (x ∈ ks) then Some (g x) else lookupOwn (f x) q.
Proof.
  intros Hinj. revert q. induction ks as [|key ks IH]; intros q; simpl.
  - reflexivity.
  - rewrite IH. destruct (decide (x ∈ ks)) as [Hin|Hnin].
    + rewrite !bool_decide_eq_true_2;
        [reflexivity | apply elem_of_cons; auto | exact Hin].
    + rewrite (bool_decide_eq_false_2 (x ∈ ks)) by exact Hnin.
      destruct (decide (x = key)) as [->|Hne].
      * rewrite lookupOwn_setOwn_eq, bool_decide_eq_true_2 by apply list_elem_of_here.
        reflexivity.
      * rewrite lookupOwn_setOwn_ne by (intros E; apply Hinj in E; congruence).
        rewrite bool_decide_eq_false_2 by (rewrite not_elem_of_cons; auto).
        reflexivity.
Qed.

Lemma lookupOwn_filled name h group query x :
  lookupOwn (param name x) (filled name h group query)
  = if bool_decide (x ∈ keys h (or_else group (VObj [])))
    then Some (prop h group x) else lookupOwn (param name x) query.
Proof.
  unfold filled.
  apply (lookupOwn_foldl (param name) (prop h group)).
  intros a b. apply param_inj.
Qed.

Lemma lookupOwn_filled_other name h group query k :
  (∀ key, k ≠ param name key) →
  lookupOwn k (filled name h group query) = lookupOwn k query.
Proof.
  intros Hk. unfold filled.
  apply (lookupOwn_foldl_other (param name) (prop h group)), Hk.
Qed.

Lemma addSort_run rt params query w :
  notNull params = true →
  addSort rt params query w
  = (Normal (match sortParam rt (objects w) params with
             | Some s => setOwn "sort" (VStr s) query
             | None => query
             end), w).
Proof.
  intros Hp. unfold addSort, sortParam.
  rewrite bind_read, get_ok by exact Hp.
  destruct (truthy (prop (objects w) params "sort")) eqn:Hs; [|reflexivity].
  rewrite bind_read, get_ok by (apply truthy_notNull, Hs).
  destruct (truthy (prop (objects w) (prop (objects w) params "sort") "field")) eqn:Hf;
    [|reflexivity].
  rewrite bind_read, get_ok by (apply truthy_notNull, Hs).
  rewrite bind_read. reflexivity.
Qed.

Lemma pageQuery_run params w :
  notNull params = true →
  notNull (prop (objects w) params "pagination") = true →
  pageQuery params w
  = (Normal [("page[number]", prop (objects w) (prop (objects w) params "pagination") "page");
             ("page[size]", prop (objects w) (prop (objects w) params "pagination") "perPage")],
     w).
Proof.
  intros Hp Hg. unfold pageQuery.
  rewrite bind_read, get_ok by exact Hp.
  rewrite bind_read, get_ok by exact Hg.
  rewrite bind_read, get_ok by exact Hg. reflexivity.
Qed.

Lemma pageQuery_inv params w q w' :
  pageQuery params w = (Normal q, w') →
  notNull params = true ∧ notNull (prop (objects w) params "pagination") = true.
Proof.
  unfold pageQuery. rewrite bind_read. unfold get at 1.
  destruct (notNull params); [|discriminate].
  rewrite bind_read. unfold get at 1.
  destruct (notNull (prop (objects w) params "pagination")); [auto | discriminate].
Qed.

(** ** Writes *)

Lemma cell_insert (h : heap) l o l0 :
  cell (<[l := o]> h) l0 = if decide (l = l0) then o else cell h l0.
Proof.
  unfold cell. destruct (decide (l = l0)) as [->|Hne].
  - rewrite lookup_insert_eq. reflexivity.
  - rewrite lookup_insert_ne by exact Hne. reflexivity.
Qed.

(** An assignment changes one property of one object. *)
Lemma setProp_inv v k x w v' w' :
  setProp v k x w = (Normal v', w') →
  sent w' = sent w
  ∧ notNull v' = true
  ∧ prop (objects w') v' k = x
  ∧ (∀ k0, k0 ≠ k → prop (objects w') v' k0 = prop (objects w) v k0)
  ∧ (∀ v0 k0, k0 ≠ k → prop (objects w') v0 k0 = prop (objects w) v0 k0).
Proof.
  destruct v; simpl; try discriminate.
  - intros H. injection H as <- <-. repeat split; auto.
    + unfold prop. simpl. rewrite lookupOwn_setOwn_eq. reflexivity.
    + intros k0 Hk. unfold prop. simpl. rewrite lookupOwn_setOwn_ne by exact Hk.
      reflexivity.
  - rewrite bind_read. destruct (cell (objects w) l) as [fs|xs] eqn:Hc; [|discriminate].
    intros H. injection H as <- <-. simpl.
    assert (Hframe : ∀ v0 k0, k0 ≠ k →
      prop (<[l:=Obj (setOwn k x fs)]> (objects w)) v0 k0 = prop (objects w) v0 k0).
    { intros v0 k0 Hk. unfold prop. destruct v0; try reflexivity. simpl.
      rewrite cell_insert. destruct (decide (l = l0)) as [<-|Hne]; [|reflexivity].
      rewrite Hc, lookupOwn_setOwn_ne by exact Hk. reflexivity. }
    repeat split; auto.
    unfold prop. simpl. rewrite cell_insert, decide_True by reflexivity.
    rewrite lookupOwn_setOwn_eq. reflexivity.
Qed.

(** ** [addFieldsToparams] *)

Ltac step H :=
  lazymatch type of H with
  | bind (read _) _ _ = _ =>
      rewrite bind_read in H; cbv beta iota in H;
      try lazymatch type of H with
      | match ?c with Normal _ => _ | Throw _ => _ end = _ =>
          let E := fresh "E" in destruct c eqn:E; [|discriminate H]
      end
  | bind _ _ _ = (Normal _, _) =>
      let E := fresh "E" in
      apply bind_inv in H as (? & ? & E & H)
  end.

Lemma mapO_Normal {A B} (f : A → outcome B) (g : A → B) (P : A → Prop) xs ys :
  (∀ x, (∃ y, f x = Normal y) → P x ∧ f x = Normal (g x)) →
  mapO f xs = Normal ys → Forall P xs ∧ ys = g <$> xs.
Proof.
  intros Hf. revert ys. induction xs as [|x xs IH]; simpl; intros ys H.
  - injection H as <-. auto.
  - destruct (f x) as [y|] eqn:Ey; simpl in H; [|discriminate].
    destruct (mapO f xs) as [ys'|] eqn:Eys; simpl in H; [|discriminate].
    injection H as <-. destruct (IH _ eq_refl) as [HP ->].
    destruct (Hf x) as [Hx Hg]; [eauto|].
    split; [constructor; auto|]. rewrite Hg in Ey. injection Ey as <-. reflexivity.
Qed.

Lemma sources_inv h xs ys :
  mapO (λ s, get h s "source") xs = Normal ys →
  Forall (λ s, notNull s = true) xs ∧ ys = (λ s, prop h s "source") <$> xs.
Proof.
  apply mapO_Normal. intros x [y Hy]. unfold get in *.
  destruct (notNull x); [auto | discriminate].
Qed.

Section AddFields.

Variables (rt : imports) (resource : string).

(** The writes of [addFieldsToparams] touch the [fields] property of
    [params] and nothing else; no request is sent. *)
Lemma addFields_frame params w params' w' :
  addFieldsToparams rt resource params w = (Normal params', w') →
  sent w' = sent w
  ∧ (notNull params = true → notNull params' = true)
  ∧ (∀ k, k ≠ "fields" → prop (objects w') params' k = prop (objects w) params k)
  ∧ (∀ v k, k ≠ "fields" → prop (objects w') v k = prop (objects w) v k).
Proof.
  unfold addFieldsToparams. intros H.
  step H. step H. step H. step H.
  destruct (notNull a2).
  - step H. apply setProp_inv in E3 as (Hs1 & Hn1 & Hf1 & Hp1 & Hv1).
    step H. rewrite get_ok in E3 by exact Hn1. injection E3 as <-. rewrite Hf1 in H.
    step H. step H. step H. simpl in E4. injection E4 as <- <-.
    step H. simpl in E4. apply setProp_inv in E4 as (Hs2 & Hn2 & Hf2 & Hp2 & Hv2).
    injection H as <- <-.
    repeat split.
    + congruence.
    + auto.
    + intros k Hk. rewrite Hp2, Hp1 by exact Hk. reflexivity.
    + intros v k Hk. rewrite Hv2, Hv1 by exact Hk. reflexivity.
  - injection H as <- <-. auto.
Qed.

End AddFields.

(** ** The query of GET_LIST *)

Lemma Src_listQuery_inv rt resource params w q params' w' :
  Src.listQuery rt resource params w = (Normal (q, params'), w') →
  let h := objects w in
  let h' := objects w' in
  notNull params = true
  ∧ notNull (prop h params "pagination") = true
  ∧ addFieldsToparams rt resource params w = (Normal params', w')
  ∧ q = sorted rt h' params'
          (filled "fields" h' (prop h' params' "fields")
             (filled "filter" h (prop h params "filter") (pageEntries h params))).
Proof.
  unfold Src.listQuery. intros H.
  step H. destruct (pageQuery_inv _ _ _ _ E) as [Hp Hg].
  rewrite pageQuery_run in E by assumption. injection E as <- <-.
  step H. rewrite addParams_run in E by assumption. injection E as <- <-.
  step H. destruct (addFields_frame _ _ _ _ _ _ E) as (_ & Hn & _).
  step H. rewrite addParams_run in E0 by auto. injection E0 as <- <-.
  step H. rewrite addSort_run in E0 by auto. injection E0 as <- <-.
  injection H as <- <- <-. auto.
Qed.

Lemma Lib_listQuery_inv rt resource params w q params' w' :
  Lib.listQuery rt resource params w = (Normal (q, params'), w') →
  let h := objects w in
  let h' := objects w' in
  notNull params = true
  ∧ notNull (prop h params "pagination") = true
  ∧ addFieldsToparams rt resource params w = (Normal params', w')
  ∧ q = sorted rt h' params'
          (filled "meta" h' (prop h' params' "meta")
             (filled "fields" h' (prop h' params' "fields")
                (filled "filter" h (prop h params "filter") (pageEntries h params)))).
Proof.
  unfold Lib.listQuery. intros H.
  step H. destruct (pageQuery_inv _ _ _ _ E) as [Hp Hg].
  rewrite pageQuery_run in E by assumption. injection E as <- <-.
  step H. rewrite addParams_run in E by assumption. injection E as <- <-.
  step H. destruct (addFields_frame _ _ _ _ _ _ E) as (_ & Hn & _).
  step H. rewrite addParams_run in E0 by auto. injection E0 as <- <-.
  step H. rewrite addParams_run in E0 by auto. injection E0 as <- <-.
  step H. rewrite addSort_run in E0 by auto. injection E0 as <- <-.
  injection H as <- <- <-. auto.
Qed.

(** GET_LIST builds its query whenever [params] has a pagination and the
    column preferences go through; what the preferences throw, it throws. *)
Lemma Src_listQuery_run rt resource params w params' w' :
  let h := objects w in
  let h' := objects w' in
  notNull params = true →
  notNull (prop h params "pagination") = true →
  addFieldsToparams rt resource params w = (Normal params', w') →
  Src.listQuery rt resource params w
  = (Normal (sorted rt h' params'
               (filled "fields" h' (prop h' params' "fields")
                  (filled "filter" h (prop h params "filter") (pageEntries h params))),
             params'), w').
Proof.
  intros h h' Hp Hg Ha. unfold Src.listQuery, bind at 1.
  rewrite pageQuery_run by assumption.
  unfold bind at 1. rewrite addParams_run by assumption.
  unfold bind at 1. rewrite Ha.
  destruct (addFields_frame _ _ _ _ _ _ Ha) as (_ & Hn & _).
  unfold bind at 1. rewrite addParams_run by auto.
  unfold bind at 1. rewrite addSort_run by auto. reflexivity.
Qed.

Lemma Lib_listQuery_run rt resource params w params' w' :
  let h := objects w in
  let h' := objects w' in
  notNull params = true →
  notNull (prop h params "pagination") = true →
  addFieldsToparams rt resource params w = (Normal params', w') →
  Lib.listQuery rt resource params w
  = (Normal (sorted rt h' params'
               (filled "meta" h' (prop h' params' "meta")
                  (filled "fields" h' (prop h' params' "fields")
                     (filled "filter" h (prop h params "filter")
                        (pageEntries h params)))),
             params'), w').
Proof.
  intros h h' Hp Hg Ha. unfold Lib.listQuery, bind at 1.
  rewrite pageQuery_run by assumption.
  unfold bind at 1. rewrite addParams_run by assumption.
  unfold bind at 1. rewrite Ha.
  destruct (addFields_frame _ _ _ _ _ _ Ha) as (_ & Hn & _).
  unfold bind at 1. rewrite addParams_run by auto.
  unfold bind at 1. rewrite addParams_run by auto.
  unfold bind at 1. rewrite addSort_run by auto. reflexivity.
Qed.

Lemma listQuery_thrown rt resource params w e w' :
  notNull params = true →
  notNull (prop (objects w) params "pagination") = true →
  addFieldsToparams rt resource params w = (Throw e, w') →
  Src.listQuery rt resource params w = (Throw e, w')
  ∧ Lib.listQuery rt resource params w = (Throw e, w').
Proof.
  intros Hp Hg Ha. split.
  - unfold Src.listQuery, bind at 1. rewrite pageQuery_run by assumption.
    unfold bind at 1. rewrite addParams_run by assumption.
    unfold bind at 1. rewrite Ha. reflexivity.
  - unfold Lib.listQuery, bind at 1. rewrite pageQuery_run by assumption.
    unfold bind at 1. rewrite addParams_run by assumption.
    unfold bind at 1. rewrite Ha. reflexivity.
Qed.

(** The loops write keys of their own group only. *)
Lemma sort_not_param name key : (name = "filter" ∨ name = "fields" ∨ name = "meta") →
  "sort" ≠ param name key.
Proof. intros [->|[->| ->]]; discriminate. Qed.

Lemma lookup_sort_sorted rt h params query :
  lookupOwn "sort" query = None →
  lookupOwn "sort" (sorted rt h params query) = VStr <$> sortParam rt h params.
Proof.
  intros Hq. unfold sorted. destruct (sortParam rt h params); simpl.
  - apply lookupOwn_setOwn_eq.
  - exact Hq.
Qed.

Lemma lookup_sorted_other rt h params query k :
  k ≠ "sort" → lookupOwn k (sorted rt h params query) = lookupOwn k query.
Proof.
  intros Hk. unfold sorted. destruct (sortParam rt h params); [|reflexivity].
  apply lookupOwn_setOwn_ne, Hk.
Qed.

(** [addFieldsToparams] does not change what the sort step reads. *)
Lemma sortParam_frame rt (h h' : heap) params params' :
  (∀ k, k ≠ "fields" → prop h' params' k = prop h params k) →
  (∀ v k, k ≠ "fields" → prop h' v k = prop h v k) →
  ∀ f, prop h (prop h params "sort") "field" = VStr f →
  sortParam rt h' params' = sortParam rt h params.
Proof.
  intros Hp Hv f Hf. unfold sortParam.
  rewrite Hp by discriminate. rewrite !Hv by discriminate.
  rewrite Hf. reflexivity.
Qed.

Lemma sortParam_none_frame rt (h h' : heap) params params' :
  (∀ k, k ≠ "fields" → prop h' params' k = prop h params k) →
  (∀ v k, k ≠ "fields" → prop h' v k = prop h v k) →
  truthy (prop h params "sort")
    && truthy (prop h (prop h params "sort") "field") = false →
  sortParam rt h' params' = None.
Proof.
  intros Hp Hv Hf. unfold sortParam.
  rewrite Hp by discriminate. rewrite !Hv by discriminate.
  rewrite Hf. reflexivity.
Qed.

Lemma field_truthy h sort f :
  prop h sort "field" = VStr f → f ≠ EmptyString →
  truthy sort && truthy (prop h sort "field") = true.
Proof.
  intros Hf Hne. rewrite Hf. simpl.
  rewrite eqb_false by exact Hne. simpl. rewrite andb_true_r.
  destruct sort; try reflexivity; try discriminate.
  simpl. destruct s; [discriminate | reflexivity].
Qed.

Lemma sortParam_string rt h params f :
  prop h (prop h params "sort") "field" = VStr f → f ≠ EmptyString →
  sortParam rt h params
  = Some ((if strictEqStr (prop h (prop h params "sort") "order") "ASC"
           then EmptyString else "-") +:+ f).
Proof.
  intros Hf Hne. unfold sortParam.
  rewrite (field_truthy _ _ _ Hf Hne), Hf. reflexivity.
Qed.

(** The sort parameter of a query built by GET_LIST, in either file. *)
Lemma list_sort rt resource params w q params' w' :
  Src.listQuery rt resource params w = (Normal (q, params'), w')
  ∨ Lib.listQuery rt resource params w = (Normal (q, params'), w') →
  let h := objects w in
  let sort := prop h params "sort" in
  (∀ f, prop h sort "field" = VStr f → f ≠ EmptyString →
        lookupOwn "sort" q
        = Some (VStr ((if strictEqStr (prop h sort "order") "ASC"
                       then EmptyString else "-") +:+ f)))
  ∧ (truthy sort && truthy (prop h sort "field") = false →
     lookupOwn "sort" q = None).
Proof.
  intros H h sort.
  assert (∃ q0, addFieldsToparams rt resource params w = (Normal params', w')
                ∧ q = sorted rt (objects w') params' q0
                ∧ lookupOwn "sort" q0 = None) as (q0 & Ha & -> & Hq0).
  { destruct H as [H|H].
    - apply Src_listQuery_inv in H as (_ & _ & Ha & ->). eexists. split; [exact Ha|].
      split; [reflexivity|].
      rewrite !lookupOwn_filled_other by (intros; apply sort_not_param; auto).
      reflexivity.
    - apply Lib_listQuery_inv in H as (_ & _ & Ha & ->). eexists. split; [exact Ha|].
      split; [reflexivity|].
      rewrite !lookupOwn_filled_other by (intros; apply sort_not_param; auto).
      reflexivity. }
  destruct (addFields_frame _ _ _ _ _ _ Ha) as (_ & _ & Hp & Hv).
  rewrite (lookup_sort_sorted _ _ _ _ Hq0).
  split.
  - intros f Hf Hne.
    rewrite (sortParam_frame rt _ _ _ _ Hp Hv f Hf).
    rewrite (sortParam_string _ _ _ _ Hf Hne). reflexivity.
  - intros Hf. rewrite (sortParam_none_frame rt _ _ _ _ Hp Hv Hf). reflexivity.
Qed.

(** ** The query of GET_MANY_REFERENCE *)

Lemma Src_referenceQuery_run rt params w :
  let h := objects w in
  notNull params = true →
  notNull (prop h params "pagination") = true →
  Src.referenceQuery rt params w
  = (Normal (sorted rt h params
       (setOwn (param "filter" (ToString rt h (prop h params "target")))
          (prop h params "id")
          (filled "filter" h (prop h params "filter") (pageEntries h params)))), w).
Proof.
  intros h Hp Hg. unfold Src.referenceQuery, bind at 1.
  rewrite pageQuery_run by assumption.
  unfold bind at 1. rewrite addParams_run by assumption.
  rewrite bind_read, get_ok by exact Hp. simpl.
  rewrite bind_read, get_ok by exact Hp.
  apply addSort_run, Hp.
Qed.

Lemma Lib_referenceQuery_run rt params w :
  let h := objects w in
  notNull params = true →
  notNull (prop h params "pagination") = true →
  Lib.referenceQuery rt params w
  = (Normal
       (setOwn (param "filter" (ToString rt h (prop h params "target")))
          (prop h params "id")
          (filled "filter" h (prop h params "filter") (pageEntries h params))), w).
Proof.
  intros h Hp Hg. unfold Lib.referenceQuery, bind at 1.
  rewrite pageQuery_run by assumption.
  unfold bind at 1. rewrite addParams_run by assumption.
  rewrite bind_read, get_ok by exact Hp. simpl.
  rewrite bind_read, get_ok by exact Hp. reflexivity.
Qed.

Lemma referenceEntries_base rt h params :
  referenceEntries rt h params
    (setOwn (param "filter" (ToString rt h (prop h params "target")))
       (prop h params "id")
       (filled "filter" h (prop h params "filter") (pageEntries h params))).
Proof.
  unfold referenceEntries. repeat split.
  - rewrite lookupOwn_setOwn_ne by discriminate.
    rewrite lookupOwn_filled_other by discriminate. reflexivity.
  - rewrite lookupOwn_setOwn_ne by discriminate.
    rewrite lookupOwn_filled_other by discriminate. reflexivity.
  - intros K HK Hne.
    rewrite lookupOwn_setOwn_ne by (intros E; apply param_inj in E; contradiction).
    rewrite lookupOwn_filled, bool_decide_eq_true_2 by exact HK. reflexivity.
  - apply lookupOwn_setOwn_eq.
  - intros x. rewrite lookupOwn_setOwn_ne by discriminate.
    rewrite lookupOwn_filled_other by discriminate. reflexivity.
Qed.

Lemma referenceEntries_sorted rt h params q :
  referenceEntries rt h params q →
  referenceEntries rt h params (sorted rt h params q).
Proof.
  unfold referenceEntries. intros (H1 & H2 & H3 & H4 & H5).
  rewrite !lookup_sorted_other by discriminate.
  repeat split; auto.
  - intros K HK Hne. rewrite lookup_sorted_other by discriminate. auto.
  - intros x. rewrite lookup_sorted_other by discriminate. auto.
Qed.

(** ** The provider as a whole *)

Lemma readonly_ret {A} (a : A) : readonly (ret a).
Proof. intros w. reflexivity. Qed.

Lemma readonly_throw {A} e : readonly (@throw A e).
Proof. intros w. reflexivity. Qed.

Lemma readonly_read {A} (f : heap → outcome A) : readonly (read f).
Proof. intros w. reflexivity. Qed.

Lemma readonly_bind {A B} (m : M A) (k : A → M B) :
  readonly m → (∀ a, readonly (k a)) → readonly (bind m k).
Proof.
  intros Hm Hk w. unfold bind. specialize (Hm w).
  destruct (m w) as [[a|e] w1]; simpl in *; subst w1; [apply Hk | reflexivity].
Qed.

Ltac readonly :=
  repeat first
    [ apply readonly_ret | apply readonly_throw | apply readonly_read
    | apply readonly_bind; [|intros ?]
    | match goal with
      | |- readonly (if ?c then _ else _) => destruct c
      end ].

Lemma Src_response_readonly rt settings type params response :
  readonly (let* total := Src.total rt settings type response in
            Src.normalize rt type params response total).
Proof. unfold Src.total, Src.normalize. readonly. Qed.

Lemma Lib_response_readonly rt settings type params response :
  readonly (let* total := Lib.total rt settings type response in
            Lib.normalize rt type params response total).
Proof. unfold Lib.total, Lib.normalize. readonly. Qed.

Lemma settle_readonly (m : M value) w :
  readonly m → ∃ p, settle m w = (Normal p, w).
Proof.
  intros Hm. unfold settle. specialize (Hm w).
  destruct (m w) as [[v|e] w1]; simpl in Hm; subst w1; eauto.
Qed.

(** A call throws what the first [switch] throws; otherwise it sends the
    request, once, and returns a promise. *)
Lemma Src_dataProvider_run rt apiUrl userSettings type resource params w :
  match Src.buildRequest rt apiUrl (merged rt userSettings) type resource params w with
  | (Normal (url, options, params'), w1) =>
      ∃ p, Src.dataProvider rt apiUrl userSettings type resource params w
           = (Normal p,
              World (objects w1) (sent w1 ++ [VObj (("url", VStr url) :: options)]))
  | (Throw e, w1) =>
      Src.dataProvider rt apiUrl userSettings type resource params w = (Throw e, w1)
  end.
Proof.
  unfold merged.
  destruct (Src.buildRequest _ _ _ _ _ _ _) as [[[[url options] params']|e] w1] eqn:E;
    unfold Src.dataProvider, bind at 1; rewrite E; [|reflexivity].
  unfold bind, send. simpl.
  destruct (axios rt _) as [response|]; [|eauto].
  apply settle_readonly, Src_response_readonly.
Qed.

Lemma Lib_dataProvider_run rt apiUrl userSettings type resource params w :
  match Lib.buildRequest rt apiUrl (merged rt userSettings) type resource params w with
  | (Normal (url, options, params'), w1) =>
      ∃ p, Lib.dataProvider rt apiUrl userSettings type resource params w
           = (Normal p,
              World (objects w1) (sent w1 ++ [VObj (("url", VStr url) :: options)]))
  | (Throw e, w1) =>
      Lib.dataProvider rt apiUrl userSettings type resource params w = (Throw e, w1)
  end.
Proof.
  unfold merged.
  destruct (Lib.buildRequest _ _ _ _ _ _ _) as [[[[url options] params']|e] w1] eqn:E;
    unfold Lib.dataProvider, bind at 1; rewrite E; [|reflexivity].
  unfold bind, send. simpl.
  destruct (axios rt _) as [response|]; [|eauto].
  apply settle_readonly, Lib_response_readonly.
Qed.

(** ** UPDATE *)

Lemma eqb_false_sym (a b : string) : a ≠ b → String.eqb b a = false.
Proof. intros H. apply String.eqb_neq. congruence. Qed.

(** The request kinds are pairwise different strings. *)
Ltac distinct H :=
  unfold actions_lib in H;
  rewrite ?NoDup_cons, ?not_elem_of_cons in H;
  destruct_and?.

Ltac kinds :=
  repeat match goal with
  | |- context [String.eqb ?a ?a] => rewrite (String.eqb_refl a)
  | H : ?a ≠ ?b |- context [String.eqb ?a ?b] => rewrite (eqb_false a b H)
  | H : ?a ≠ ?b |- context [String.eqb ?b ?a] => rewrite (eqb_false_sym a b H)
  end.

Lemma deref_obj_notNull h v fs : deref h v = VObj fs → notNull v = true.
Proof. destruct v; simpl; intros H; try discriminate; reflexivity. Qed.

Lemma deref_ref_obj h l fs : deref h (VRef l) = VObj fs → cell h l = Obj fs.
Proof. simpl. destruct (cell h l); intros H; [congruence | discriminate]. Qed.

Lemma prop_insert_other (h : heap) d o v k :
  v ≠ VRef d → prop (<[d := o]> h) v k = prop h v k.
Proof.
  intros Hne. unfold prop. destruct v; try reflexivity. simpl.
  rewrite cell_insert. destruct (decide (d = l)) as [->|]; [congruence | reflexivity].
Qed.

Lemma entries_insert_eq (h : heap) d fs : entries (<[d := Obj fs]> h) (VRef d) = fs.
Proof. unfold entries. simpl. rewrite cell_insert, decide_True by reflexivity. reflexivity. Qed.

Ltac update_build Hd Hparams Hdata Hfs Hne :=
  let Hp := fresh "Hp" in
  let Hpd := fresh "Hpd" in
  pose proof (deref_obj_notNull _ _ _ Hparams) as Hp;
  match type of Hdata with
  | lookupOwn "data" ?pfs = Some ?data =>
      match type of Hparams with
      | deref ?h ?params = _ =>
          assert (Hpd : prop h params "data" = data)
            by (unfold prop; rewrite Hparams, Hdata; reflexivity)
      end
  end;
  distinct Hd;
  rewrite bind_read; cbv beta iota; kinds;
  rewrite bind_read, get_ok by exact Hp; cbn [obind];
  rewrite bind_read, get_ok by exact Hp; cbn [objects]; rewrite Hpd;
  unfold bind at 1.

Lemma Src_update_build rt apiUrl settings resource params w pfs data fs :
  NoDup (actions_lib rt) →
  deref (objects w) params = VObj pfs →
  lookupOwn "data" pfs = Some data →
  deref (objects w) data = VObj fs →
  data ≠ params →
  updated rt apiUrl resource settings params data fs w
    (Src.buildRequest rt apiUrl settings (UPDATE rt) resource params w).
Proof.
  intros Hd Hparams Hdata Hfs Hne. unfold updated, stripped, Src.buildRequest.
  destruct w as [h s]. cbn [objects sent] in *.
  update_build Hd Hparams Hdata Hfs Hne.
  destruct data as [| | | | | |fs0|d]; simpl in Hfs; try discriminate.
  - (* params.data lives inside params *)
    injection Hfs as ->. cbn [deleteProp]. unfold ret at 1.
    unfold bind at 1. cbn [writeBack].
    destruct params as [| | | | | |pfs0|p]; simpl in Hparams; try discriminate.
    + injection Hparams as ->. cbn [setProp]. unfold ret at 1.
      rewrite bind_read, get_ok by reflexivity.
      do 2 rewrite bind_read. unfold ret.
      cbn [objects sent].
      assert (Hid : prop h (VObj (setOwn "data" (VObj (deleteOwn "id" fs)) pfs)) "id"
                    = prop h (VObj pfs) "id").
      { unfold prop. cbn [deref]. rewrite lookupOwn_setOwn_ne by discriminate.
        reflexivity. }
      rewrite Hid.
      eexists _, _, _. split; [|reflexivity].
      split; [reflexivity|]. split; intros ? ?; discriminate.
    + apply deref_ref_obj in Hparams as Hc. cbn [setProp].
      rewrite bind_read. cbv beta iota. cbn [objects]. rewrite Hc.
      unfold bind at 1, store at 1.
      unfold ret at 1.
      rewrite bind_read, get_ok by reflexivity.
      do 2 rewrite bind_read. unfold ret. cbn [objects sent].
      assert (Hid : prop (<[p:=Obj (setOwn "data" (VObj (deleteOwn "id" fs)) pfs)]> h)
                      (VRef p) "id"
                    = prop h (VRef p) "id").
      { unfold prop. cbn [deref]. rewrite cell_insert, decide_True by reflexivity.
        rewrite lookupOwn_setOwn_ne by discriminate. rewrite Hc. reflexivity. }
      rewrite Hid.
      eexists _, _, _. split; [|reflexivity].
      split; [reflexivity|].
      split; [intros ? ?; discriminate|].
      intros p0 Hp0 _. injection Hp0 as <-. split; [reflexivity|].
      unfold prop. cbn [objects deref]. rewrite cell_insert, decide_True by reflexivity.
      rewrite lookupOwn_setOwn_eq. reflexivity.
  - (* params.data is an object of the caller's *)
    apply deref_ref_obj in Hfs as Hc. cbn [deleteProp].
    rewrite bind_read. cbv beta iota. cbn [objects]. rewrite Hc.
    unfold bind at 1, store at 1. unfold ret at 1.
    unfold bind at 1. cbn [writeBack]. unfold ret at 1.
    rewrite bind_read, get_ok by exact Hp.
    do 2 rewrite bind_read. unfold ret. cbn [objects sent].
    rewrite (prop_insert_other _ _ _ params) by congruence.
    eexists _, _, _. split; [|reflexivity].
    split; [apply entries_insert_eq|].
    split.
    + intros d0 Hd0. injection Hd0 as <-. split; [reflexivity|].
      rewrite cell_insert, decide_True by reflexivity. reflexivity.
    + intros ? ? ?. discriminate.
Qed.

(** The two files have the same UPDATE case. *)
Lemma Lib_update_build rt apiUrl settings resource params w pfs data fs :
  NoDup (actions_lib rt) →
  deref (objects w) params = VObj pfs →
  lookupOwn "data" pfs = Some data →
  deref (objects w) data = VObj fs →
  data ≠ params →
  updated rt apiUrl resource settings params data fs w
    (Lib.buildRequest rt apiUrl settings (UPDATE rt) resource params w).
Proof.
  intros Hd Hparams Hdata Hfs Hne.
  replace (Lib.buildRequest rt apiUrl settings (UPDATE rt) resource params w)
    with (Src.buildRequest rt apiUrl settings (UPDATE rt) resource params w).
  - eapply Src_update_build; eassumption.
  - distinct Hd. unfold Src.buildRequest, Lib.buildRequest.
    rewrite !bind_read. cbv beta iota. kinds. reflexivity.
Qed.

Lemma update_run rt apiUrl userSettings resource params w pfs data fs provider :
  provider = Src.dataProvider ∨ provider = Lib.dataProvider →
  NoDup (actions_lib rt) →
  deref (objects w) params = VObj pfs →
  lookupOwn "data" pfs = Some data →
  deref (objects w) data = VObj fs →
  data ≠ params →
  updateCall rt apiUrl resource (merged rt userSettings) params data fs w
    (provider rt apiUrl userSettings (UPDATE rt) resource params w).
Proof.
  intros [-> | ->] Hd Hparams Hdata Hfs Hne.
  - pose proof (Src_dataProvider_run rt apiUrl userSettings (UPDATE rt) resource params w)
      as Hrun.
    destruct (Src_update_build rt apiUrl (merged rt userSettings) resource params w
                pfs data fs Hd Hparams Hdata Hfs Hne)
      as (params' & attributes & h' & Hrest & Hb).
    rewrite Hb in Hrun. exists attributes, h'. split; [exact Hrest|].
    destruct (JSON_stringify rt h' _); exact Hrun.
  - pose proof (Lib_dataProvider_run rt apiUrl userSettings (UPDATE rt) resource params w)
      as Hrun.
    destruct (Lib_update_build rt apiUrl (merged rt userSettings) resource params w
                pfs data fs Hd Hparams Hdata Hfs Hne)
      as (params' & attributes & h' & Hrest & Hb).
    rewrite Hb in Hrun. exists attributes, h'. split; [exact Hrest|].
    destruct (JSON_stringify rt h' _); exact Hrun.
Qed.

(** ** The total of a collection *)

Lemma deref_arr_notNull h v xs : deref h v = VArr xs → notNull v = true.
Proof. destruct v; simpl; intros H; try discriminate; reflexivity. Qed.

Lemma prop_length h v xs :
  deref h v = VArr xs → prop h v "length" = VNum (Z.of_nat (length xs)).
Proof. intros H. unfold prop. rewrite H. reflexivity. Qed.

Section Total.

Variables (rt : imports) (settings response body : value) (type : string).
Variables (w : world) (items : list value).

Let h := objects w.
Let meta := prop h body "meta".
Let name := prop h settings "total".
Let count := VNum (Z.of_nat (length items)).

Hypothesis collection :
  includes type [GET_LIST rt; GET_MANY rt; GET_MANY_REFERENCE rt] = true.
Hypothesis response_body : notNull response = true ∧ prop h response "data" = body.
Hypothesis body_data : notNull body = true ∧ deref h (prop h body "data") = VArr items.

Lemma length_fallback :
  (let+ body := get h response "data" in
   let+ data := get h body "data" in
   get h data "length")
  = Normal count.
Proof.
  destruct response_body as [Hr Hb], body_data as [Hn Hd].
  rewrite get_ok by exact Hr. cbn [obind]. rewrite Hb.
  rewrite get_ok by exact Hn. cbn [obind].
  rewrite get_ok by (eapply deref_arr_notNull, Hd).
  rewrite (prop_length _ _ _ Hd). reflexivity.
Qed.

Lemma meta_read :
  (let+ body := get h response "data" in get h body "meta") = Normal meta.
Proof.
  destruct response_body as [Hr Hb], body_data as [Hn Hd].
  rewrite get_ok by exact Hr. cbn [obind]. rewrite Hb.
  rewrite get_ok by exact Hn. reflexivity.
Qed.

(** The total in [src/index.js]: the value of [meta[name]] when it is
    truthy, the length of the data otherwise. *)
Lemma Src_total_run :
  Src.total rt settings type response w
  = (Normal (or_else (if truthy meta && truthy name
                      then prop h meta (ToString rt h name) else VUndefined)
                     count), w).
Proof.
  unfold Src.total. rewrite collection.
  rewrite bind_read. fold h. rewrite meta_read. cbv beta iota.
  unfold or_else. destruct (truthy meta) eqn:Hm; cbn [andb]; unfold bind at 1.
  - rewrite bind_read. cbv beta iota. fold h name.
    destruct (truthy name) eqn:Hn.
    + unfold read at 1. fold h. rewrite get_ok by (apply truthy_notNull, Hm).
      destruct (truthy (prop h meta (ToString rt h name))); [reflexivity|].
      unfold read. fold h. rewrite length_fallback. reflexivity.
    + unfold ret at 1. cbn [truthy]. unfold read. fold h.
      rewrite length_fallback. reflexivity.
  - unfold ret at 1. cbn [truthy]. unfold read. fold h.
    rewrite length_fallback. reflexivity.
Qed.

(** The total in the compiled variant: the same, read with [getValue]. *)
Lemma Lib_total_run :
  Lib.total rt settings type response w
  = (Normal (or_else (if truthy meta && truthy name
                      then getValue h meta (ToString rt h name) else VUndefined)
                     count), w).
Proof.
  unfold Lib.total. rewrite collection.
  rewrite bind_read. fold h. rewrite meta_read. cbv beta iota.
  unfold or_else. destruct (truthy meta) eqn:Hm; cbn [andb]; unfold bind at 1.
  - rewrite bind_read. cbv beta iota. fold h name.
    destruct (truthy name) eqn:Hn.
    + unfold read at 1. fold h.
      destruct (truthy (getValue h meta (ToString rt h name))); [reflexivity|].
      unfold read. fold h. rewrite length_fallback. reflexivity.
    + unfold ret at 1. cbn [truthy]. unfold read. fold h.
      rewrite length_fallback. reflexivity.
  - unfold ret at 1. cbn [truthy]. unfold read. fold h.
    rewrite length_fallback. reflexivity.
Qed.

End Total.

(** ** The column preferences *)

Lemma pageQuery_cases params w :
  (∃ q, pageQuery params w = (Normal q, w)) ∨ pageQuery params w = (Throw TypeError, w).
Proof.
  destruct (notNull params) eqn:Hp.
  - destruct (notNull (prop (objects w) params "pagination")) eqn:Hg.
    + left. eexists. apply pageQuery_run; assumption.
    + right. unfold pageQuery. rewrite bind_read, get_ok by exact Hp.
      rewrite bind_read, get_null by exact Hg. reflexivity.
  - right. unfold pageQuery. rewrite bind_read, get_null by exact Hp. reflexivity.
Qed.

Lemma isArray_throw h v e : isArray h v = Throw e → e = TypeError.
Proof. unfold isArray. destruct (deref h v); intros H; congruence. Qed.

(** Without available columns, an omit list or a column list that is not
    empty makes the selection throw. *)
Lemma selected_null_available rt h columns omit :
  notNull omit = true ∨ (notNull columns = true ∧ isArray h columns ≠ Normal []) →
  selected rt h columns omit VNull = Throw TypeError.
Proof.
  intros H. unfold selected. destruct (notNull omit) eqn:Ho.
  - reflexivity.
  - destruct H as [H|[Hc Hne]]; [discriminate|].
    cbn [obind]. rewrite Hc.
    destruct (isArray h columns) as [[|c cs]|e] eqn:Ha.
    + congruence.
    + reflexivity.
    + apply isArray_throw in Ha as ->. reflexivity.
Qed.

Section Preferences.

Variables (rt : imports) (resource : string) (columns omit available : value).

Hypothesis stored_columns :
  getItemJSON rt (baseKey resource +:+ ".columns") = Normal columns.
Hypothesis stored_omit :
  getItemJSON rt (baseKey resource +:+ ".omit") = Normal omit.
Hypothesis stored_available :
  getItemJSON rt (baseKey resource +:+ ".availableColumns") = Normal available.

Lemma addFields_selected params w :
  addFieldsToparams rt resource params w
  = (let* selected := read (λ h, selected rt h columns omit available) in
     if notNull selected then
       let apiResource := apiResource resource in
       let* params := setProp params "fields" (VObj []) in
       let* fields := read (λ h, get h params "fields") in
       let* sources := read (λ h,
         let+ xs := isArray h selected in mapO (λ s, get h s "source") xs) in
       let* joined := read (λ h, Normal (join rt h "," sources)) in
       let* fields := setProp fields apiResource (VStr joined) in
       let* params := writeBack params "fields" fields in
       ret params
     else ret params) w.
Proof.
  unfold addFieldsToparams.
  rewrite bind_read, stored_columns. rewrite bind_read, stored_omit.
  rewrite bind_read, stored_available. reflexivity.
Qed.

Lemma addFields_throw params w e :
  selected rt (objects w) columns omit available = Throw e →
  addFieldsToparams rt resource params w = (Throw e, w).
Proof. intros H. rewrite addFields_selected, bind_read, H. reflexivity. Qed.

Lemma addFields_none params w v :
  selected rt (objects w) columns omit available = Normal v →
  notNull v = false →
  addFieldsToparams rt resource params w = (Normal params, w).
Proof. intros H Hn. rewrite addFields_selected, bind_read, H, Hn. reflexivity. Qed.

Lemma Src_listQuery_throw params w :
  selected rt (objects w) columns omit available = Throw TypeError →
  Src.listQuery rt resource params w = (Throw TypeError, w).
Proof.
  intros H. unfold Src.listQuery, bind at 1.
  destruct (pageQuery_cases params w) as [[q Hq]| ->]; [|reflexivity].
  rewrite Hq. apply pageQuery_inv in Hq as [Hp _].
  unfold bind at 1. rewrite addParams_run by exact Hp.
  unfold bind at 1. rewrite (addFields_throw _ _ _ H). reflexivity.
Qed.

Lemma Lib_listQuery_throw params w :
  selected rt (objects w) columns omit available = Throw TypeError →
  Lib.listQuery rt resource params w = (Throw TypeError, w).
Proof.
  intros H. unfold Lib.listQuery, bind at 1.
  destruct (pageQuery_cases params w) as [[q Hq]| ->]; [|reflexivity].
  rewrite Hq. apply pageQuery_inv in Hq as [Hp _].
  unfold bind at 1. rewrite addParams_run by exact Hp.
  unfold bind at 1. rewrite (addFields_throw _ _ _ H). reflexivity.
Qed.

End Preferences.

(** GET_LIST is the query of [listQuery], stringified. *)
Lemma Src_list_request rt apiUrl settings resource params w :
  Src.buildRequest rt apiUrl settings (GET_LIST rt) resource params w
  = match Src.listQuery rt resource params w with
    | (Normal (query, params'), w') =>
        match stringify rt (objects w') (VObj query) VUndefined with
        | Normal qs =>
            (Normal (apiUrl +:+ "/" +:+ resource +:+ "?" +:+ qs,
                     [("headers", prop (objects w) settings "headers")], params'), w')
        | Throw e => (Throw e, w')
        end
    | (Throw e, w') => (Throw e, w')
    end.
Proof.
  unfold Src.buildRequest. rewrite bind_read. cbv beta iota.
  rewrite String.eqb_refl. unfold bind at 1.
  destruct (Src.listQuery rt resource params w) as [[[q p]|e] w']; reflexivity.
Qed.

Lemma Lib_list_request rt apiUrl settings resource params w :
  Lib.buildRequest rt apiUrl settings (GET_LIST rt) resource params w
  = match Lib.listQuery rt resource params w with
    | (Normal (query, params'), w') =>
        match stringify rt (objects w') (VObj query) VUndefined with
        | Normal qs =>
            (Normal (apiUrl +:+ "/" +:+ resource +:+ "?" +:+ qs,
                     [("headers", prop (objects w) settings "headers")], params'), w')
        | Throw e => (Throw e, w')
        end
    | (Throw e, w') => (Throw e, w')
    end.
Proof.
  unfold Lib.buildRequest. rewrite bind_read. cbv beta iota.
  rewrite String.eqb_refl. unfold bind at 1.
  destruct (Lib.listQuery rt resource params w) as [[[q p]|e] w']; reflexivity.
Qed.

Lemma join_primitive rt h h' sep xs :
  Forall (λ x, primitive x = true) xs → join rt h sep xs = join rt h' sep xs.
Proof.
  intros H. unfold join. f_equal.
  induction H as [|x xs Hx _ IH]; simpl; [reflexivity|].
  f_equal; [|exact IH]. destruct x; try reflexivity; discriminate.
Qed.

Section Selection.

Variables (rt : imports) (h : heap).

Lemma findO_index c av x :
  findO (λ a, let+ index := get h a "index" in Normal (looseEq rt index c)) av
  = Normal x →
  notNull x = true →
  find (matches rt h c) av = Some x.
Proof.
  induction av as [|a av IH]; simpl; intros H Hx.
  - injection H as <-. discriminate.
  - unfold get in H at 1. destruct (notNull a); [|discriminate].
    cbn [obind] in H. unfold matches at 1.
    destruct (looseEq rt (prop h a "index") c); [congruence | auto].
Qed.

Lemma picked_omap av cs picked :
  mapO (λ c,
    let+ av := isArray h (VArr av) in
    findO (λ a, let+ index := get h a "index" in Normal (looseEq rt index c)) av) cs
  = Normal picked →
  Forall (λ s, notNull s = true) picked →
  omap (λ c, find (matches rt h c) av) cs = picked.
Proof.
  revert picked. induction cs as [|c cs IH]; simpl; intros picked H Hp.
  - injection H as <-. reflexivity.
  - destruct (findO _ av) as [x|] eqn:Ex; [|discriminate]. cbn [obind] in H.
    destruct (mapO _ cs) as [xs|] eqn:Exs; [|discriminate]. cbn [obind] in H.
    injection H as <-. inversion Hp as [|? ? Hx Hxs]; subst.
    rewrite (findO_index _ _ _ Ex Hx). simpl. f_equal. apply IH; auto.
Qed.

Lemma findO_source a os hit :
  findO (λ o, let+ source := get h a "source" in Normal (looseEq rt source o)) os
  = Normal hit →
  Forall (λ o, truthy o = true) os →
  truthy hit = inOmit rt h os a.
Proof.
  induction os as [|o os IH]; simpl; intros H Ht.
  - injection H as <-. reflexivity.
  - inversion Ht as [|? ? Ho Hos]; subst.
    unfold get in H at 1. destruct (notNull a); [|discriminate].
    cbn [obind] in H.
    destruct (looseEq rt (prop h a "source") o); simpl.
    + injection H as <-. exact Ho.
    + auto.
Qed.

Lemma kept_filter os av kept :
  filterO (λ a,
    let+ os := isArray h (VArr os) in
    let+ hit := findO (λ o,
      let+ source := get h a "source" in Normal (looseEq rt source o)) os in
    Normal (negb (truthy hit))) av
  = Normal kept →
  Forall (λ o, truthy o = true) os →
  kept = List.filter (λ a, negb (inOmit rt h os a)) av.
Proof.
  intros H Ht. revert kept H. induction av as [|a av IH]; simpl; intros kept H.
  - injection H as <-. reflexivity.
  - destruct (findO _ os) as [hit|] eqn:Eh; [|discriminate]. cbn [obind] in H.
    destruct (filterO _ av) as [ys|] eqn:Ey; [|discriminate]. cbn [obind] in H.
    injection H as <-. rewrite <- (findO_source _ _ _ Eh Ht), (IH ys eq_refl).
    reflexivity.
Qed.

(** Where the code selects without throwing and every selected column is
    there, it selects what the spec says. *)
Lemma selected_selection columns omit available v sel :
  selected rt h columns omit available = Normal v →
  selection rt h columns omit available = Some sel →
  ∃ xs, v = VArr xs
    ∧ ((∀ os, omit = VArr os → Forall (λ o, truthy o = true) os) →
       Forall (λ s, notNull s = true) xs →
       xs = sel).
Proof.
  unfold selected, selection. intros H Hs.
  destruct columns as [| | | | |cs| |]; try discriminate.
  - (* no column list *)
    destruct omit as [| | | | |os| |]; try discriminate;
      destruct available as [| | | | |av| |]; try discriminate;
      injection Hs as <-.
    + simpl in H. injection H as <-. eauto.
    + cbn [notNull isArray deref obind] in H.
      destruct (filterO _ av) as [kept|] eqn:Ek; [|discriminate].
      cbn [obind] in H. injection H as <-.
      eexists. split; [reflexivity|]. intros Ht _.
      apply (kept_filter _ _ _ Ek), Ht. reflexivity.
  - (* a column list *)
    destruct available as [| | | | |av| |]; try discriminate.
    injection Hs as <-.
    destruct (if notNull omit then _ else _) as [v0|]; [|discriminate].
    cbn [obind notNull isArray deref] in H.
    destruct (mapO _ cs) as [picked|] eqn:Ep; [|discriminate].
    cbn [obind] in H. injection H as <-.
    eexists. split; [reflexivity|]. intros _ Hn.
    symmetry. apply picked_omap; assumption.
Qed.

End Selection.

Section Fields.

Variables (rt : imports) (resource : string) (columns omit available : value).

Hypothesis stored_columns :
  getItemJSON rt (baseKey resource +:+ ".columns") = Normal columns.
Hypothesis stored_omit :
  getItemJSON rt (baseKey resource +:+ ".omit") = Normal omit.
Hypothesis stored_available :
  getItemJSON rt (baseKey resource +:+ ".availableColumns") = Normal available.

(** With a selection, [params.fields] becomes the one entry of the
    resource, the sources joined. *)
Lemma addFields_some params w params' w' xs :
  selected rt (objects w) columns omit available = Normal (VArr xs) →
  addFieldsToparams rt resource params w = (Normal params', w') →
  let h := objects w in
  Forall (λ s, notNull s = true) xs
  ∧ (Forall (λ s, primitive (prop h s "source") = true) xs →
     prop (objects w') params' "fields"
     = VObj [(apiResource resource,
              VStr (join rt h "," ((λ s, prop h s "source") <$> xs)))]).
Proof.
  intros Hsel H h.
  rewrite (addFields_selected rt resource columns omit available) in H by assumption.
  rewrite bind_read, Hsel in H. cbn [notNull] in H. cbv zeta in H.
  step H. apply setProp_inv in E as (Hs1 & Hn1 & Hf1 & Hp1 & Hv1).
  step H. rewrite get_ok in E by exact Hn1. injection E as <-. rewrite Hf1 in H.
  step H. cbn [isArray deref obind] in E.
  apply sources_inv in E as [Hnn ->].
  step H. step H. simpl in E. injection E as <- <-.
  step H. simpl in E. apply setProp_inv in E as (Hs2 & Hn2 & Hf2 & Hp2 & Hv2).
  injection H as <- <-.
  split; [exact Hnn|]. intros Hprim.
  assert (Hsrc : (λ s, prop (objects x0) s "source") <$> xs
                 = (λ s, prop h s "source") <$> xs).
  { apply list_fmap_ext. intros i s _. apply Hv1. discriminate. }
  rewrite Hf2, Hsrc, (join_primitive rt (objects x0) h)
    by (apply Forall_fmap; exact Hprim).
  reflexivity.
Qed.

Lemma addFields_null params w params' w' :
  columns = VNull → omit = VNull → available = VNull →
  addFieldsToparams rt resource params w = (Normal params', w') →
  params' = params ∧ w' = w.
Proof.
  intros -> -> -> H.
  rewrite (addFields_none rt resource VNull VNull VNull) with (v := VNull) in H
    by auto.
  injection H as <- <-. auto.
Qed.

End Fields.

Lemma fields_not_param name x key : (name = "filter" ∨ name = "meta") →
  param "fields" x ≠ param name key.
Proof. intros [->| ->]; discriminate. Qed.

(** The [fields] parameters of a query built by GET_LIST, in either file:
    those of [params.fields] once [addFieldsToparams] is done. *)
Lemma list_fields_lookup rt resource params w q params' w' x :
  Src.listQuery rt resource params w = (Normal (q, params'), w')
  ∨ Lib.listQuery rt resource params w = (Normal (q, params'), w') →
  let h' := objects w' in
  let fields := prop h' params' "fields" in
  addFieldsToparams rt resource params w = (Normal params', w')
  ∧ lookupOwn (param "fields" x) q
    = if bool_decide (x ∈ keys h' (or_else fields (VObj [])))
      then Some (prop h' fields x) else None.
Proof.
  intros [H|H] h' fields.
  - apply Src_listQuery_inv in H as (_ & _ & Ha & ->). split; [exact Ha|].
    rewrite lookup_sorted_other by discriminate.
    rewrite lookupOwn_filled.
    rewrite lookupOwn_filled_other by (intros; apply fields_not_param; auto).
    reflexivity.
  - apply Lib_listQuery_inv in H as (_ & _ & Ha & ->). split; [exact Ha|].
    rewrite lookup_sorted_other by discriminate.
    rewrite lookupOwn_filled_other by (intros; apply fields_not_param; auto).
    rewrite lookupOwn_filled.
    rewrite lookupOwn_filled_other by (intros; apply fields_not_param; auto).
    reflexivity.
Qed.

(** * The claims *)

Lemma fixture_distinct storage json response :
  NoDup (actions_lib (fixture storage json response)).
Proof. apply (bool_decide_unpack _). vm_compute. exact I. Qed.

(** C6.  A request kind outside the supported ones makes the provider throw
    the "unsupported request type" error, which carries the kind, before
    anything is sent and with the world as it was: [src/index.js] for every
    kind that is none of its seven, the compiled variant for every kind that
    is none of its nine. *)
Theorem unsupported_request_type rt apiUrl userSettings type resource params w :
  (type ∉ actions rt →
   Src.dataProvider rt apiUrl userSettings type resource params w
   = (Throw (NotImplementedError
               ("Unsupported Data Provider request type " +:+ type)), w))
  ∧ (type ∉ actions_lib rt →
     Lib.dataProvider rt apiUrl userSettings type resource params w
     = (Throw (NotImplementedError
                 ("Unsupported Data Provider request type " +:+ type)), w)).
Proof.
  split; intros H.
  - unfold actions in H. rewrite ?not_elem_of_cons in H. destruct_and?.
    unfold Src.dataProvider, Src.buildRequest, bind at 1.
    rewrite bind_read. cbv beta iota. kinds. reflexivity.
  - unfold actions_lib in H. rewrite ?not_elem_of_cons in H. destruct_and?.
    unfold Lib.dataProvider, Lib.buildRequest, bind at 1.
    rewrite bind_read. cbv beta iota. kinds. reflexivity.
Qed.

Lemma unsupported_request_type_witness :
  ("PATCH_ALL" ∉ actions_lib (fixture [] [] None))
  ∧ Lib.dataProvider (fixture [] [] None) "http://api" VUndefined "PATCH_ALL"
      "posts" VUndefined emptyWorld
    = (Throw (NotImplementedError
                "Unsupported Data Provider request type PATCH_ALL"), emptyWorld).
Proof.
  assert (H : "PATCH_ALL" ∉ actions_lib (fixture [] [] None)).
  { apply (bool_decide_unpack _). vm_compute. exact I. }
  split; [exact H|].
  apply (proj2 (unsupported_request_type (fixture [] [] None) "http://api" VUndefined
                  "PATCH_ALL" "posts" VUndefined emptyWorld) H).
Defined.

(** C7.  A DELETE call that the transport answers is fulfilled with
    [{data: {id: params.id}}], whatever the response is: in both files. *)
Theorem delete_result rt apiUrl userSettings resource params w provider :
  provider = Src.dataProvider ∨ provider = Lib.dataProvider →
  NoDup (actions_lib rt) →
  notNull params = true →
  let h := objects w in
  let request :=
    VObj [("url", VStr (apiUrl +:+ "/" +:+ resource +:+ "/" +:+
                        ToString rt h (prop h params "id")));
          ("headers", prop h (merged rt userSettings) "headers");
          ("method", VStr "DELETE")] in
  ∀ response, axios rt request = Some response →
  provider rt apiUrl userSettings (DELETE rt) resource params w
  = (Normal (Fulfilled (VObj [("data", VObj [("id", prop h params "id")])])),
     World h (sent w ++ [request])).
Proof.
  intros Hprov Hd Hp h request response Hax. distinct Hd.
  destruct Hprov as [-> | ->].
  - unfold Src.dataProvider, Src.buildRequest, bind at 1. fold (merged rt userSettings).
    rewrite bind_read. cbv beta iota. kinds.
    rewrite bind_read, get_ok by exact Hp. cbn [obind]. unfold ret at 1.
    unfold bind at 1, send at 1. cbn [setOwn String.eqb Ascii.eqb Bool.eqb].
    fold h. fold request. rewrite Hax.
    unfold settle, Src.total, Src.normalize, includes. cbn [existsb]. kinds.
    cbn [orb]. unfold bind at 1, ret at 1. rewrite bind_read.
    cbn [objects]. fold h. rewrite get_ok by exact Hp. reflexivity.
  - unfold Lib.dataProvider, Lib.buildRequest, bind at 1. fold (merged rt userSettings).
    rewrite bind_read. cbv beta iota. kinds.
    rewrite bind_read, get_ok by exact Hp. cbn [obind]. unfold ret at 1.
    unfold bind at 1, send at 1. cbn [setOwn String.eqb Ascii.eqb Bool.eqb].
    fold h. fold request. rewrite Hax.
    unfold settle, Lib.total, Lib.normalize, includes. cbn [existsb]. kinds.
    cbn [orb]. unfold bind at 1, ret at 1. rewrite bind_read.
    cbn [objects]. fold h. rewrite get_ok by exact Hp. reflexivity.
Qed.

Lemma delete_result_witness :
  Lib.dataProvider (fixture [] [] (Some (VObj [("data", VStr "gone")])))
    "http://api" VUndefined "DELETE" "posts" deleteParams emptyWorld
  = (Normal (Fulfilled (VObj [("data", VObj [("id", VNum 7)])])),
     World ∅ [VObj [("url", VStr "http://api/posts/7"); ("headers", VObj []);
                    ("method", VStr "DELETE")]]).
Proof.
  apply (delete_result (fixture [] [] (Some (VObj [("data", VStr "gone")])))
           "http://api" VUndefined "posts" deleteParams emptyWorld Lib.dataProvider
           (or_intror eq_refl) (fixture_distinct _ _ _) eq_refl
           (VObj [("data", VStr "gone")]) eq_refl).
Defined.

(** C3.  GET_MANY asks for [base/resource?query] with no method of its own
    (the transport's GET), the query being one [filter] parameter that holds
    [params.ids] and is stringified with [settings.arrayFormat]; where [qs]
    fails on the query, the call throws what [qs] threw.  In [src/index.js]
    the key of the parameter is [filter[settings.getManyKey]]; the compiled
    variant writes [filter[id]] whatever the setting is. *)
Theorem get_many_filter_key rt apiUrl userSettings resource params w :
  NoDup (actions_lib rt) →
  notNull params = true →
  let h := objects w in
  let settings := merged rt userSettings in
  let options := [("headers", prop h settings "headers")] in
  let request query :=
    match stringify rt h (VObj query)
            (VObj [("arrayFormat", prop h settings "arrayFormat")]) with
    | Normal qs =>
        (Normal (apiUrl +:+ "/" +:+ resource +:+ "?" +:+ qs, options, params), w)
    | Throw e => (Throw e, w)
    end in
  Src.buildRequest rt apiUrl settings (GET_MANY rt) resource params w
  = request [(param "filter" (ToString rt h (prop h settings "getManyKey")),
              prop h params "ids")]
  ∧ Lib.buildRequest rt apiUrl settings (GET_MANY rt) resource params w
    = request [("filter[id]", prop h params "ids")].
Proof.
  intros Hd Hp h settings options request. distinct Hd. split.
  - unfold Src.buildRequest, Src.manyQuery. rewrite bind_read. cbv beta iota. kinds.
    unfold bind at 1. rewrite bind_read. cbv beta iota.
    rewrite bind_read, get_ok by exact Hp. reflexivity.
  - unfold Lib.buildRequest, Lib.manyQuery. rewrite bind_read. cbv beta iota. kinds.
    unfold bind at 1.
    rewrite bind_read, get_ok by exact Hp. reflexivity.
Qed.

Lemma get_many_filter_key_witness :
  let rt := fixture [] [] None in
  let options := [("headers", VObj [])] in
  Src.buildRequest rt "http://api" (merged rt manySettings) "GET_MANY" "posts"
    manyParams emptyWorld
  = (Normal ("http://api/posts?filter[ids]=1,2,3", options, manyParams), emptyWorld)
  ∧ Lib.buildRequest rt "http://api" (merged rt manySettings) "GET_MANY" "posts"
      manyParams emptyWorld
    = (Normal ("http://api/posts?filter[id]=1,2,3", options, manyParams), emptyWorld).
Proof.
  apply (get_many_filter_key (fixture [] [] None) "http://api" manySettings "posts"
           manyParams emptyWorld (fixture_distinct _ _ _) eq_refl).
Defined.

(** C4.  GET_MANY_REFERENCE builds the page parameters, a [filter]
    parameter for every filter key and [filter[target] = params.id] in both
    files (and no [fields] parameter).  [src/index.js] adds the sort
    parameter of GET_LIST; the compiled variant has no sort parameter,
    whatever [params.sort] is. *)
Theorem reference_query rt params w :
  let h := objects w in
  notNull params = true →
  notNull (prop h params "pagination") = true →
  ∃ q_src q_lib,
    Src.referenceQuery rt params w = (Normal q_src, w)
    ∧ Lib.referenceQuery rt params w = (Normal q_lib, w)
    ∧ referenceEntries rt h params q_src
    ∧ referenceEntries rt h params q_lib
    ∧ lookupOwn "sort" q_src = VStr <$> sortParam rt h params
    ∧ lookupOwn "sort" q_lib = None.
Proof.
  intros h Hp Hg. eexists _, _.
  split; [apply Src_referenceQuery_run; assumption|].
  split; [apply Lib_referenceQuery_run; assumption|].
  split; [apply referenceEntries_sorted, referenceEntries_base|].
  split; [apply referenceEntries_base|].
  assert (Hnone : lookupOwn "sort"
    (setOwn (param "filter" (ToString rt h (prop h params "target")))
       (prop h params "id")
       (filled "filter" h (prop h params "filter") (pageEntries h params))) = None).
  { rewrite lookupOwn_setOwn_ne by discriminate.
    rewrite lookupOwn_filled_other by discriminate. reflexivity. }
  split; [|exact Hnone].
  apply lookup_sort_sorted, Hnone.
Qed.

Lemma reference_query_witness :
  ∃ q_src q_lib,
    Src.referenceQuery (fixture [] [] None) referenceParams emptyWorld
    = (Normal q_src, emptyWorld)
    ∧ Lib.referenceQuery (fixture [] [] None) referenceParams emptyWorld
      = (Normal q_lib, emptyWorld)
    ∧ lookupOwn "sort" q_src = Some (VStr "name")
    ∧ lookupOwn "sort" q_lib = None.
Proof.
  destruct (reference_query (fixture [] [] None) referenceParams emptyWorld
              eq_refl eq_refl) as (q_src & q_lib & Hs & Hl & _ & _ & Hsort & Hnone).
  exists q_src, q_lib. repeat split; assumption.
Defined.

(** C8.  The sort parameter of GET_LIST, in both files.  A call whose
    [params] has a pagination builds its query once the column preferences
    are applied, and in that query, the object that is stringified into the
    URL: with a sort field [f] and the order ["DESC"] there is [sort = -f],
    with the order ["ASC"] there is [sort = f], and without a sort field
    there is no [sort] entry.  When the column preferences throw, the call
    throws what they throw and builds no query. *)
Theorem list_sort_parameter rt resource params w :
  let h := objects w in
  let sort := prop h params "sort" in
  let sort_of q :=
    (∀ f, f ≠ EmptyString → prop h sort "field" = VStr f →
          prop h sort "order" = VStr "DESC" →
          lookupOwn "sort" q = Some (VStr ("-" +:+ f)))
    ∧ (∀ f, f ≠ EmptyString → prop h sort "field" = VStr f →
            prop h sort "order" = VStr "ASC" →
            lookupOwn "sort" q = Some (VStr f))
    ∧ (truthy sort && truthy (prop h sort "field") = false →
       lookupOwn "sort" q = None) in
  notNull params = true →
  notNull (prop h params "pagination") = true →
  (∀ params' w',
     addFieldsToparams rt resource params w = (Normal params', w') →
     ∃ q_src q_lib,
       Src.listQuery rt resource params w = (Normal (q_src, params'), w')
       ∧ Lib.listQuery rt resource params w = (Normal (q_lib, params'), w')
       ∧ sort_of q_src ∧ sort_of q_lib)
  ∧ (∀ e w',
       addFieldsToparams rt resource params w = (Throw e, w') →
       Src.listQuery rt resource params w = (Throw e, w')
       ∧ Lib.listQuery rt resource params w = (Throw e, w')).
Proof.
  intros h sort sort_of Hp Hg. split.
  - intros params' w' Ha.
    pose proof (Src_listQuery_run rt resource params w params' w' Hp Hg Ha) as Hs.
    pose proof (Lib_listQuery_run rt resource params w params' w' Hp Hg Ha) as Hl.
    cbv zeta in Hs, Hl. fold h in Hs, Hl.
    eexists _, _. split; [exact Hs|]. split; [exact Hl|].
    split.
    + destruct (list_sort rt resource params w _ params' w' (or_introl Hs))
        as [Hfield Hnone].
      fold h sort in Hfield, Hnone. unfold sort_of. repeat split.
      * intros f Hne Hf Ho. rewrite (Hfield f Hf Hne), Ho. reflexivity.
      * intros f Hne Hf Ho. rewrite (Hfield f Hf Hne), Ho. reflexivity.
      * exact Hnone.
    + destruct (list_sort rt resource params w _ params' w' (or_intror Hl))
        as [Hfield Hnone].
      fold h sort in Hfield, Hnone. unfold sort_of. repeat split.
      * intros f Hne Hf Ho. rewrite (Hfield f Hf Hne), Ho. reflexivity.
      * intros f Hne Hf Ho. rewrite (Hfield f Hf Hne), Ho. reflexivity.
      * exact Hnone.
  - intros e w' Ha. apply listQuery_thrown; assumption.
Qed.

(** The spec's example, run in both files: [sort = -name] for the order
    ["DESC"]. *)
Lemma list_sort_parameter_witness :
  ∃ q_src q_lib,
    Src.listQuery (fixture [] [] None) "posts" (listParams "DESC") emptyWorld
    = (Normal (q_src, listParams "DESC"), emptyWorld)
    ∧ Lib.listQuery (fixture [] [] None) "posts" (listParams "DESC") emptyWorld
      = (Normal (q_lib, listParams "DESC"), emptyWorld)
    ∧ lookupOwn "sort" q_src = Some (VStr "-name")
    ∧ lookupOwn "sort" q_lib = Some (VStr "-name").
Proof.
  destruct (list_sort_parameter (fixture [] [] None) "posts" (listParams "DESC")
              emptyWorld eq_refl eq_refl) as [Hbuilt _].
  destruct (Hbuilt (listParams "DESC") emptyWorld eq_refl)
    as (q_src & q_lib & Hs & Hl & (Hsrc & _) & (Hlib & _)).
  exists q_src, q_lib. split; [exact Hs|]. split; [exact Hl|].
  split; [apply (Hsrc "name") | apply (Hlib "name")];
    first [discriminate | reflexivity].
Defined.

(** The same call with the orders ["ASC"] and without a sort. *)
Example list_sort_ascending_or_absent :
  let rt := fixture [] [] None in
  Src.listQuery rt "posts" (listParams "ASC") emptyWorld
  = (Normal ([("page[number]", VNum 1); ("page[size]", VNum 10);
              ("filter[q]", VStr "x"); ("sort", VStr "name")],
             listParams "ASC"), emptyWorld)
  ∧ Lib.listQuery rt "posts" (listParams "ASC") emptyWorld
    = Src.listQuery rt "posts" (listParams "ASC") emptyWorld
  ∧ Src.listQuery rt "posts" callerParams emptyWorld
    = (Normal ([("page[number]", VNum 1); ("page[size]", VNum 10);
                ("fields[posts]", VStr "title")], callerParams), emptyWorld)
  ∧ Lib.listQuery rt "posts" callerParams emptyWorld
    = Src.listQuery rt "posts" callerParams emptyWorld.
Proof. repeat split; reflexivity. Qed.

(** For a name without a dot the nested lookup is the read of one key. *)
Lemma getValue_plain h meta key :
  notNull meta = true →
  split "."%char key = [key] →
  getValue h meta key = prop h meta key.
Proof.
  intros Hm Hk. unfold getValue. rewrite Hk. simpl.
  rewrite get_ok by exact Hm. reflexivity.
Qed.

Lemma deref_obj_truthy h v fs : deref h v = VObj fs → truthy v = true.
Proof. destruct v; simpl; intros H; try discriminate; reflexivity. Qed.

(** C1.  The total of a collection request whose response has a data array,
    in both files.
    - Without a meta object or without a [total] setting it is the length of
      the data array.
    - With a meta object and the name [key] for a setting: the value found
      under the name is the total when it is truthy, and the length of the
      data array when it is not.  So a meta total that is there and is 0 is
      overridden by the length.  [src/index.js] reads [meta[key]], the name
      as one key; the compiled variant reads [getValue(meta, key)], the
      nested lookup.
    The names of [Object.prototype] are left out of the second part. *)
Theorem total_resolution rt settings type response body items w :
  let h := objects w in
  let meta := prop h body "meta" in
  let name := prop h settings "total" in
  let count := VNum (Z.of_nat (length items)) in
  let resolved value := if truthy value then value else count in
  includes type [GET_LIST rt; GET_MANY rt; GET_MANY_REFERENCE rt] = true →
  notNull response = true ∧ prop h response "data" = body →
  notNull body = true ∧ deref h (prop h body "data") = VArr items →
  (truthy meta && truthy name = false →
   Src.total rt settings type response w = (Normal count, w)
   ∧ Lib.total rt settings type response w = (Normal count, w))
  ∧ (∀ fs key,
       deref h meta = VObj fs →
       name = VStr key → key ≠ EmptyString →
       Forall (λ k, inherited k = false) (split "."%char key) →
       Src.total rt settings type response w
       = (Normal (resolved (prop h meta key)), w)
       ∧ Lib.total rt settings type response w
         = (Normal (resolved (getValue h meta key)), w)).
Proof.
  intros h meta name count resolved Hc Hr Hb.
  pose proof (Src_total_run rt settings response body type w items Hc Hr Hb) as Hs.
  pose proof (Lib_total_run rt settings response body type w items Hc Hr Hb) as Hl.
  fold h meta name count in Hs, Hl. rewrite Hs, Hl. clear Hs Hl.
  unfold or_else. split.
  - intros ->. simpl. auto.
  - intros fs key Hm Hn Hne _.
    rewrite (deref_obj_truthy _ _ _ Hm), Hn. simpl.
    rewrite eqb_false by exact Hne. simpl. auto.
Qed.

(** Three items and a meta total of 0 under [count]: both files answer 3. *)
Lemma total_resolution_witness :
  Src.total (fixture [] [] None) countSettings "GET_LIST"
    (VObj [("data", countBody 0)]) emptyWorld
  = (Normal (VNum 3), emptyWorld)
  ∧ Lib.total (fixture [] [] None) countSettings "GET_LIST"
      (VObj [("data", countBody 0)]) emptyWorld
    = (Normal (VNum 3), emptyWorld).
Proof.
  destruct (total_resolution (fixture [] [] None) countSettings "GET_LIST"
              (VObj [("data", countBody 0)]) (countBody 0) threeItems emptyWorld
              eq_refl (conj eq_refl eq_refl) (conj eq_refl eq_refl)) as [_ Hvalue].
  apply (Hvalue [("count", VNum 0)] "count"); try reflexivity.
  - discriminate.
  - repeat constructor.
Defined.

(** The spec's examples: three items and [meta.count = 42] give 42 with the
    setting [count], and 3 without a setting. *)
Example total_examples :
  let rt := fixture [] [] None in
  let response := VObj [("data", countBody 42)] in
  Src.total rt countSettings "GET_LIST" response emptyWorld
  = (Normal (VNum 42), emptyWorld)
  ∧ Lib.total rt countSettings "GET_LIST" response emptyWorld
    = (Normal (VNum 42), emptyWorld)
  ∧ Src.total rt (VObj []) "GET_LIST" response emptyWorld
    = (Normal (VNum 3), emptyWorld)
  ∧ Lib.total rt (VObj []) "GET_LIST" response emptyWorld
    = (Normal (VNum 3), emptyWorld).
Proof. repeat split; reflexivity. Qed.

(** [src/index.js] reads the name as one key: a dotted name finds nothing
    there, where the compiled variant finds the nested field. *)
Example total_dotted_name :
  let rt := fixture [] [] None in
  let body :=
    VObj [("data", VArr threeItems);
          ("meta", VObj [("page", VObj [("total", VNum 42)])])] in
  let settings := VObj [("total", VStr "page.total")] in
  Src.total rt settings "GET_LIST" (VObj [("data", body)]) emptyWorld
  = (Normal (VNum 3), emptyWorld)
  ∧ Lib.total rt settings "GET_LIST" (VObj [("data", body)]) emptyWorld
    = (Normal (VNum 42), emptyWorld).
Proof. split; reflexivity. Qed.

(** C2.  An UPDATE call on an object [params] whose [data] is an object,
    whatever the properties of [params.data] are, in both files: what is
    serialized is [{data: {id: params.id, type: resource, attributes}}],
    where [attributes] has the properties of [params.data] but [id].  When
    the serializer returns its text, the request is sent with that text as
    its body and [settings.updateMethod] as its method; when the serializer
    throws (on a record that contains itself), the call throws the same and
    no request is sent. *)
Theorem update_body rt apiUrl userSettings resource params w pfs data fs provider :
  provider = Src.dataProvider ∨ provider = Lib.dataProvider →
  NoDup (actions_lib rt) →
  deref (objects w) params = VObj pfs →
  lookupOwn "data" pfs = Some data →
  deref (objects w) data = VObj fs →
  data ≠ params →
  let h := objects w in
  let settings := merged rt userSettings in
  let run := provider rt apiUrl userSettings (UPDATE rt) resource params w in
  ∃ attributes h',
    entries h' attributes = deleteOwn "id" fs
    ∧ hasOwn "id" (entries h' attributes) = false
    ∧ match JSON_stringify rt h'
              (updateBody resource (prop h params "id") attributes) with
      | Normal body =>
          ∃ p url,
            run = (Normal p,
                   World h' (sent w ++
                     [VObj [("url", VStr url);
                            ("headers", prop h settings "headers");
                            ("method", prop h' settings "updateMethod");
                            ("data", VStr body)]]))
      | Throw e => run = (Throw e, World h' (sent w))
      end.
Proof.
  intros Hprov Hd Hparams Hdata Hfs Hne h settings run.
  destruct (update_run rt apiUrl userSettings resource params w pfs data fs provider
              Hprov Hd Hparams Hdata Hfs Hne)
    as (attributes & h' & (Hentries & _) & Hrun).
  exists attributes, h'.
  split; [exact Hentries|].
  split; [rewrite Hentries; apply hasOwn_deleteOwn|].
  fold h in Hrun. destruct (JSON_stringify rt h' _); [|exact Hrun].
  destruct Hrun as [p Hrun]. eauto.
Qed.

Lemma update_body_witness :
  let rt := fixture [] [] None in
  let run :=
    Src.dataProvider rt "http://api" VUndefined "UPDATE" "posts" (VRef 1%positive)
      updateWorld in
  ∃ attributes h',
    entries h' attributes = [("title", VStr "t")]
    ∧ hasOwn "id" (entries h' attributes) = false
    ∧ match JSON_stringify rt h' (updateBody "posts" (VNum 7) attributes) with
      | Normal body =>
          ∃ p url,
            run = (Normal p,
                   World h'
                     [VObj [("url", VStr url); ("headers", VObj []);
                            ("method", VStr "PATCH"); ("data", VStr body)]])
      | Throw e => run = (Throw e, World h' [])
      end.
Proof.
  apply (update_body (fixture [] [] None) "http://api" VUndefined "posts"
           (VRef 1%positive) updateWorld
           [("id", VNum 7); ("data", VRef 2%positive)] (VRef 2%positive)
           [("id", VNum 7); ("title", VStr "t")] Src.dataProvider
           (or_introl eq_refl) (fixture_distinct _ _ _) eq_refl eq_refl eq_refl).
  discriminate.
Defined.

(** The call of the witness as it runs: the body that is sent has no [id]
    among the attributes, and the caller's record has lost it. *)
Example update_body_sent :
  Lib.dataProvider (fixture [] [] None) "http://api" VUndefined "UPDATE" "posts"
    (VRef 1%positive) updateWorld
  = (Normal (Rejected None),
     World {[ 1%positive := Obj [("id", VNum 7); ("data", VRef 2%positive)];
              2%positive := Obj [("title", VStr "t")] ]}
       [VObj [("url", VStr "http://api/posts/7");
              ("headers", VObj []);
              ("method", VStr "PATCH");
              ("data", VStr "{data:{id:7,type:posts,attributes:{title:t}}}")]]).
Proof. vm_compute. reflexivity. Qed.

(** A record that contains itself: the serializer throws, and so does the
    call, after [id] is deleted and before anything is sent. *)
Example update_body_cyclic :
  Src.dataProvider (fixture [] [] None) "http://api" VUndefined "UPDATE" "posts"
    (VRef 1%positive) cyclicWorld
  = (Throw TypeError,
     World {[ 1%positive := Obj [("id", VNum 7); ("data", VRef 2%positive)];
              2%positive := Obj [("self", VRef 2%positive)] ]} []).
Proof. vm_compute. reflexivity. Qed.

(** C9.  An UPDATE call deletes [id] from the object [params.data] itself:
    when [params.data] is an object of the caller's, that object has lost
    its [id] after the call, and it is the object that is serialized as
    [attributes]; when it lives inside a [params] the caller shares, the
    caller's [params.data] has lost its [id].  In both files, whether the
    transport answers or not, and whether the serializer returns its text
    (the request is sent with it) or throws (the call throws, nothing is
    sent): [h'] is the heap after the call in either case. *)
Theorem update_in_place rt apiUrl userSettings resource params w pfs data fs provider :
  provider = Src.dataProvider ∨ provider = Lib.dataProvider →
  NoDup (actions_lib rt) →
  deref (objects w) params = VObj pfs →
  lookupOwn "data" pfs = Some data →
  deref (objects w) data = VObj fs →
  data ≠ params →
  let h := objects w in
  let settings := merged rt userSettings in
  let run := provider rt apiUrl userSettings (UPDATE rt) resource params w in
  ∃ attributes h',
    objects run.2 = h'
    ∧ lookupOwn "id" (deleteOwn "id" fs) = None
    ∧ (∀ d, data = VRef d →
         attributes = VRef d ∧ cell h' d = Obj (deleteOwn "id" fs))
    ∧ (∀ l, params = VRef l → data = VObj fs →
         prop h' params "data" = VObj (deleteOwn "id" fs))
    ∧ match JSON_stringify rt h'
              (updateBody resource (prop h params "id") attributes) with
      | Normal body =>
          ∃ p request,
            run = (Normal p, World h' (sent w ++ [request]))
            ∧ prop h' request "data" = VStr body
      | Throw e => run = (Throw e, World h' (sent w))
      end.
Proof.
  intros Hprov Hd Hparams Hdata Hfs Hne h settings run.
  destruct (update_run rt apiUrl userSettings resource params w pfs data fs provider
              Hprov Hd Hparams Hdata Hfs Hne)
    as (attributes & h' & (Hentries & Href & Hin) & Hrun).
  fold h run in Hrun.
  exists attributes, h'.
  split.
  { destruct (JSON_stringify rt h' _); [destruct Hrun as [p ->] | rewrite Hrun];
      reflexivity. }
  split; [rewrite lookupOwn_deleteOwn, String.eqb_refl; reflexivity|].
  split; [exact Href|].
  split; [intros l Hl Hdat; apply (Hin l Hl Hdat)|].
  destruct (JSON_stringify rt h' _); [|exact Hrun].
  destruct Hrun as [p Hrun]. eexists p, _. split; [exact Hrun | reflexivity].
Qed.

Lemma update_in_place_witness :
  cell (objects (Lib.dataProvider (fixture [] [] None) "http://api" VUndefined
                   "UPDATE" "posts" (VRef 1%positive) updateWorld).2) 2%positive
  = Obj [("title", VStr "t")].
Proof.
  destruct (update_in_place (fixture [] [] None) "http://api" VUndefined "posts"
              (VRef 1%positive) updateWorld
              [("id", VNum 7); ("data", VRef 2%positive)] (VRef 2%positive)
              [("id", VNum 7); ("title", VStr "t")] Lib.dataProvider
              (or_intror eq_refl) (fixture_distinct _ _ _) eq_refl eq_refl eq_refl)
    as (attributes & h' & Hh & _ & Href & _); [discriminate|].
  subst h'. exact (proj2 (Href 2%positive eq_refl)).
Defined.

(** C10, as amended.  When the store has no available columns but an omit
    list, or a column list that is not empty, a GET_LIST call throws a
    [TypeError] before anything is sent and with the world as it was: in
    both files.  (An empty column list does not make it throw.) *)
Theorem list_without_available_columns rt apiUrl userSettings resource params w
    columns omit provider :
  provider = Src.dataProvider ∨ provider = Lib.dataProvider →
  getItemJSON rt (baseKey resource +:+ ".columns") = Normal columns →
  getItemJSON rt (baseKey resource +:+ ".omit") = Normal omit →
  getItemJSON rt (baseKey resource +:+ ".availableColumns") = Normal VNull →
  notNull omit = true
  ∨ (notNull columns = true ∧ isArray (objects w) columns ≠ Normal []) →
  provider rt apiUrl userSettings (GET_LIST rt) resource params w
  = (Throw TypeError, w).
Proof.
  intros Hprov Hc Ho Ha Hsel.
  apply (selected_null_available rt) in Hsel.
  destruct Hprov as [-> | ->].
  - pose proof (Src_dataProvider_run rt apiUrl userSettings (GET_LIST rt) resource
                  params w) as Hrun.
    rewrite Src_list_request in Hrun.
    rewrite (Src_listQuery_throw rt resource columns omit VNull Hc Ho Ha params w Hsel)
      in Hrun.
    exact Hrun.
  - pose proof (Lib_dataProvider_run rt apiUrl userSettings (GET_LIST rt) resource
                  params w) as Hrun.
    rewrite Lib_list_request in Hrun.
    rewrite (Lib_listQuery_throw rt resource columns omit VNull Hc Ho Ha params w Hsel)
      in Hrun.
    exact Hrun.
Qed.

Lemma list_without_available_columns_witness :
  Src.dataProvider omitOnly "http://api" VUndefined "GET_LIST" "posts"
    (listParams "ASC") emptyWorld
  = (Throw TypeError, emptyWorld).
Proof.
  apply (list_without_available_columns omitOnly "http://api" VUndefined "posts"
           (listParams "ASC") emptyWorld VNull (VArr [VStr "body"]) Src.dataProvider
           (or_introl eq_refl) eq_refl eq_refl eq_refl (or_introl eq_refl)).
Defined.

(** C10, as stated, fails: with the column list [[]] and no available
    columns the call completes, and the request it sends asks for an empty
    [fields[posts]]. *)
Lemma empty_column_list_completes :
  getItemJSON emptyColumns (baseKey "posts" +:+ ".columns") = Normal (VArr [])
  ∧ getItemJSON emptyColumns (baseKey "posts" +:+ ".availableColumns") = Normal VNull
  ∧ Src.dataProvider emptyColumns "http://api" VUndefined "GET_LIST" "posts"
      (listParams "ASC") emptyWorld
    = (Normal (Fulfilled (VObj [("data", VArr []); ("total", VNum 0)])),
       World ∅
         [VObj [("url", VStr ("http://api/posts?page[number]=1&page[size]=10" +:+
                              "&filter[q]=x&fields[posts]=&sort=name"));
                ("headers", VObj [])]])
  ∧ Src.listQuery emptyColumns "posts" (listParams "ASC") emptyWorld
    = Lib.listQuery emptyColumns "posts" (listParams "ASC") emptyWorld.
Proof. repeat split; reflexivity. Qed.

(** The [fields] parameters of a query that GET_LIST has built, in either
    file, the omit list having no falsy entry: [fields[T]] for the selected
    columns and nothing else when the store selects columns, the caller's
    own when nothing is stored. *)
Lemma list_fields_built rt resource params w q params' w' columns omit available :
  Src.listQuery rt resource params w = (Normal (q, params'), w')
  ∨ Lib.listQuery rt resource params w = (Normal (q, params'), w') →
  getItemJSON rt (baseKey resource +:+ ".columns") = Normal columns →
  getItemJSON rt (baseKey resource +:+ ".omit") = Normal omit →
  getItemJSON rt (baseKey resource +:+ ".availableColumns") = Normal available →
  (∀ os, omit = VArr os → Forall (λ o, truthy o = true) os) →
  let h := objects w in
  let T := apiResource resource in
  (∀ sel, selection rt h columns omit available = Some sel →
     let sources := (λ a, prop h a "source") <$> sel in
     Forall (λ s, primitive s = true) sources →
     lookupOwn (param "fields" T) q = Some (VStr (join rt h "," sources))
     ∧ ∀ x, x ≠ T → lookupOwn (param "fields" x) q = None)
  ∧ (columns = VNull → omit = VNull → available = VNull →
     ∀ x, lookupOwn (param "fields" x) q
          = if bool_decide (x ∈ keys h (or_else (prop h params "fields") (VObj [])))
            then Some (prop h (prop h params "fields") x) else None).
Proof.
  intros H Hc Ho Ha Ht h T.
  assert (Hlook := λ x, list_fields_lookup rt resource params w q params' w' x H).
  destruct (Hlook EmptyString) as [Hadd _].
  split.
  - intros sel Hsel sources Hprim.
    pose proof Hadd as Hadd'.
    rewrite (addFields_selected rt resource columns omit available) in Hadd'
      by assumption.
    step Hadd'.
    destruct (selected_selection rt _ _ _ _ _ _ E Hsel) as (xs & -> & Hxs).
    destruct (addFields_some rt resource columns omit available Hc Ho Ha
                params w params' w' xs E Hadd) as [Hnn Hfields].
    specialize (Hxs Ht Hnn). subst xs.
    assert (Hp : Forall (λ s, primitive (prop h s "source") = true) sel).
    { apply Forall_fmap in Hprim. exact Hprim. }
    specialize (Hfields Hp).
    split.
    + destruct (Hlook T) as [_ ->]. rewrite Hfields.
      rewrite bool_decide_eq_true_2 by (simpl; apply list_elem_of_here).
      unfold prop. simpl. rewrite String.eqb_refl. reflexivity.
    + intros x Hx. destruct (Hlook x) as [_ ->]. rewrite Hfields.
      rewrite bool_decide_eq_false_2; [reflexivity|].
      unfold keys, entries, or_else. simpl. intros Hin.
      apply list_elem_of_singleton in Hin. contradiction.
  - intros Hc0 Ho0 Ha0 x.
    destruct (addFields_null rt resource columns omit available Hc Ho Ha
                params w params' w' Hc0 Ho0 Ha0 Hadd) as [-> ->].
    destruct (Hlook x) as [_ ->]. reflexivity.
Qed.

(** The columns of a column list come in listed order; a listed column that
    is not available makes the call throw. *)
Example listed_columns :
  (∃ params', Src.listQuery (listedColumns [VNum 2; VNum 1]) "posts" (listParams "ASC")
                emptyWorld
              = (Normal ([("page[number]", VNum 1); ("page[size]", VNum 10);
                          ("filter[q]", VStr "x"); ("fields[posts]", VStr "body,title");
                          ("sort", VStr "name")], params'), emptyWorld))
  ∧ (Src.listQuery (listedColumns [VNum 1; VNum 3]) "posts" (listParams "ASC")
       emptyWorld).1
    = Throw TypeError.
Proof. split; [eexists|]; reflexivity. Qed.

(** * More of the provider *)

(** ** What a call sends *)

Lemma quiet_ret {A} (a : A) : quiet (ret a).
Proof. intros w. reflexivity. Qed.

Lemma quiet_throw {A} e : quiet (@throw A e).
Proof. intros w. reflexivity. Qed.

Lemma quiet_read {A} (f : heap → outcome A) : quiet (read f).
Proof. intros w. reflexivity. Qed.

Lemma quiet_store l o : quiet (store l o).
Proof. intros w. reflexivity. Qed.

Lemma quiet_bind {A B} (m : M A) (k : A → M B) :
  quiet m → (∀ a, quiet (k a)) → quiet (bind m k).
Proof.
  intros Hm Hk w. unfold bind. specialize (Hm w).
  destruct (m w) as [[a|e] w1]; simpl in *; [|exact Hm].
  rewrite Hk. exact Hm.
Qed.

Lemma quiet_forEach {A B} (xs : list A) (body : A → B → M B) acc :
  (∀ x b, quiet (body x b)) → quiet (forEach xs body acc).
Proof.
  intros Hb. revert acc. induction xs as [|x xs IH]; intros acc; simpl.
  - apply quiet_ret.
  - apply quiet_bind; [apply Hb | intros b; apply IH].
Qed.

Lemma readonly_forEach {A B} (xs : list A) (body : A → B → M B) acc :
  (∀ x b, readonly (body x b)) → readonly (forEach xs body acc).
Proof.
  intros Hb. revert acc. induction xs as [|x xs IH]; intros acc; simpl.
  - apply readonly_ret.
  - apply readonly_bind; [apply Hb | intros b; apply IH].
Qed.

Ltac quiet :=
  repeat first
    [ apply quiet_ret | apply quiet_throw | apply quiet_read | apply quiet_store
    | apply quiet_forEach; intros ? ?
    | apply quiet_bind; [|intros ?]
    | match goal with
      | |- quiet (if ?c then _ else _) => destruct c
      | |- quiet (match ?c with _ => _ end) => destruct c
      | |- quiet (let '(_, _) := ?c in _) => destruct c
      end ].

Lemma quiet_setProp v k x : quiet (setProp v k x).
Proof. unfold setProp. quiet. Qed.

Lemma quiet_deleteProp v k : quiet (deleteProp v k).
Proof. unfold deleteProp. quiet. Qed.

Lemma quiet_writeBack owner k child : quiet (writeBack owner k child).
Proof. unfold writeBack. destruct child; first [apply quiet_ret | apply quiet_setProp]. Qed.

Lemma quiet_addFields rt resource params : quiet (addFieldsToparams rt resource params).
Proof.
  unfold addFieldsToparams.
  repeat first
    [ apply quiet_ret | apply quiet_read | apply quiet_setProp | apply quiet_writeBack
    | apply quiet_bind; [|intros ?]
    | match goal with |- quiet (if ?c then _ else _) => destruct c end ].
Qed.

Lemma quiet_addParams name params query : quiet (addParams name params query).
Proof. unfold addParams. quiet. Qed.

Lemma quiet_addSort rt params query : quiet (addSort rt params query).
Proof. unfold addSort. quiet. Qed.

Lemma quiet_pageQuery params : quiet (pageQuery params).
Proof. unfold pageQuery. quiet. Qed.

Ltac quiet_build :=
  repeat first
    [ apply quiet_ret | apply quiet_throw | apply quiet_read
    | apply quiet_setProp | apply quiet_deleteProp | apply quiet_writeBack
    | apply quiet_addFields | apply quiet_addParams | apply quiet_addSort
    | apply quiet_pageQuery
    | apply quiet_bind; [|intros ?]
    | match goal with
      | |- quiet (if ?c then _ else _) => destruct c
      | |- quiet (let '(_, _) := ?c in _) => destruct c
      end ].

Lemma Src_build_quiet rt apiUrl settings type resource params :
  quiet (Src.buildRequest rt apiUrl settings type resource params).
Proof.
  unfold Src.buildRequest, Src.listQuery, Src.referenceQuery, Src.manyQuery.
  quiet_build.
Qed.

Lemma Lib_build_quiet rt apiUrl settings type resource params :
  quiet (Lib.buildRequest rt apiUrl settings type resource params).
Proof.
  unfold Lib.buildRequest, Lib.listQuery, Lib.referenceQuery, Lib.manyQuery.
  quiet_build.
Qed.

(** X1.  Every call either throws having sent nothing, or returns a promise
    having sent exactly one request: in both files, for every kind and every
    input. *)
Theorem one_request_per_call rt apiUrl userSettings type resource params w :
  sendsOnce w (Src.dataProvider rt apiUrl userSettings type resource params w)
  ∧ sendsOnce w (Lib.dataProvider rt apiUrl userSettings type resource params w).
Proof.
  unfold sendsOnce. split.
  - pose proof (Src_dataProvider_run rt apiUrl userSettings type resource params w)
      as Hrun.
    pose proof (Src_build_quiet rt apiUrl (merged rt userSettings) type resource
                  params w) as Hq.
    destruct (Src.buildRequest _ _ _ _ _ _ _) as [[[[url options] params']|e] w1].
    + destruct Hrun as [p ->]. right. eexists p, _, url. simpl in *.
      rewrite Hq. auto.
    + rewrite Hrun. left. eauto.
  - pose proof (Lib_dataProvider_run rt apiUrl userSettings type resource params w)
      as Hrun.
    pose proof (Lib_build_quiet rt apiUrl (merged rt userSettings) type resource
                  params w) as Hq.
    destruct (Lib.buildRequest _ _ _ _ _ _ _) as [[[[url options] params']|e] w1].
    + destruct Hrun as [p ->]. right. eexists p, _, url. simpl in *.
      rewrite Hq. auto.
    + rewrite Hrun. left. eauto.
Qed.

Lemma readonly_addParams name params query : readonly (addParams name params query).
Proof.
  unfold addParams.
  repeat first
    [ apply readonly_ret | apply readonly_read
    | apply readonly_forEach; intros ? ?
    | apply readonly_bind; [|intros ?] ].
Qed.

Lemma readonly_addSort rt params query : readonly (addSort rt params query).
Proof. unfold addSort. readonly. Qed.

Lemma readonly_pageQuery params : readonly (pageQuery params).
Proof. unfold pageQuery. readonly. Qed.

Ltac readonly_build :=
  repeat first
    [ apply readonly_ret | apply readonly_throw | apply readonly_read
    | apply readonly_addParams | apply readonly_addSort | apply readonly_pageQuery
    | apply readonly_bind; [|intros ?]
    | match goal with
      | |- readonly (if ?c then _ else _) => destruct c
      end ].

Lemma Src_build_readonly rt apiUrl settings type resource params :
  type ≠ GET_LIST rt → type ≠ UPDATE rt →
  readonly (Src.buildRequest rt apiUrl settings type resource params).
Proof.
  intros Hl Hu. unfold Src.buildRequest, Src.referenceQuery, Src.manyQuery.
  apply readonly_bind; [apply readonly_read|]. intros headers.
  rewrite (eqb_false _ _ Hl), (eqb_false _ _ Hu). readonly_build.
Qed.

Lemma Lib_build_readonly rt apiUrl settings type resource params :
  type ≠ GET_LIST rt → type ≠ UPDATE rt →
  readonly (Lib.buildRequest rt apiUrl settings type resource params).
Proof.
  intros Hl Hu. unfold Lib.buildRequest, Lib.referenceQuery, Lib.manyQuery.
  apply readonly_bind; [apply readonly_read|]. intros headers.
  rewrite (eqb_false _ _ Hl), (eqb_false _ _ Hu). readonly_build.
Qed.

(** X2.  Only GET_LIST and UPDATE write to the caller's objects: a call of
    any other kind, supported or not, leaves the heap as it was, in both
    files. *)
Theorem heap_untouched rt apiUrl userSettings type resource params w :
  type ≠ GET_LIST rt → type ≠ UPDATE rt →
  objects (Src.dataProvider rt apiUrl userSettings type resource params w).2
  = objects w
  ∧ objects (Lib.dataProvider rt apiUrl userSettings type resource params w).2
    = objects w.
Proof.
  intros Hl Hu. split.
  - pose proof (Src_dataProvider_run rt apiUrl userSettings type resource params w)
      as Hrun.
    pose proof (Src_build_readonly rt apiUrl (merged rt userSettings) type resource
                  params Hl Hu w) as Hr.
    destruct (Src.buildRequest _ _ _ _ _ _ _) as [[[[url options] params']|e] w1];
      simpl in Hr; subst w1.
    + destruct Hrun as [p ->]. reflexivity.
    + rewrite Hrun. reflexivity.
  - pose proof (Lib_dataProvider_run rt apiUrl userSettings type resource params w)
      as Hrun.
    pose proof (Lib_build_readonly rt apiUrl (merged rt userSettings) type resource
                  params Hl Hu w) as Hr.
    destruct (Lib.buildRequest _ _ _ _ _ _ _) as [[[[url options] params']|e] w1];
      simpl in Hr; subst w1.
    + destruct Hrun as [p ->]. reflexivity.
    + rewrite Hrun. reflexivity.
Qed.

Lemma heap_untouched_witness :
  objects (Lib.dataProvider (fixture [] [] None) "http://api" VUndefined "CREATE"
             "posts" (VRef 1%positive) updateWorld).2
  = updateHeap.
Proof.
  apply (proj2 (heap_untouched (fixture [] [] None) "http://api" VUndefined "CREATE"
                  "posts" (VRef 1%positive) updateWorld
                  ltac:(discriminate) ltac:(discriminate))).
Defined.

Lemma post_ret {A} (P : A → Prop) a : P a → post P (ret a).
Proof. intros HP w a' w' H. injection H as <- <-. exact HP. Qed.

Lemma post_throw {A} (P : A → Prop) e : post P (throw e).
Proof. intros w a w' H. discriminate. Qed.

Lemma post_bind {A B} (P : B → Prop) (m : M A) (k : A → M B) :
  (∀ a, post P (k a)) → post P (bind m k).
Proof.
  intros Hk w b w' H. apply bind_inv in H as (a & w1 & _ & H). exact (Hk a w1 b w' H).
Qed.

Ltac post :=
  repeat first
    [ apply post_throw
    | apply post_bind; intros ?
    | match goal with
      | |- post _ (let '(_, _) := ?c in _) => destruct c
      end ];
  try (apply post_ret; reflexivity).

Ltac bare_build Hd Ht :=
  distinct Hd;
  rewrite bind_read; cbv beta iota;
  repeat (apply elem_of_cons in Ht as [-> | Ht]); [..|inversion Ht];
    kinds;
    match goal with
    | |- ?m ?w = (Normal ?built, ?w') → bare ?hd _ =>
        cut (post (bare hd) m); [intros Hp; exact (Hp w built w') | post]
    end.

Lemma Src_build_bare rt apiUrl settings type resource params w built w' :
  NoDup (actions_lib rt) →
  type ∈ [GET_LIST rt; GET_ONE rt; GET_MANY rt; GET_MANY_REFERENCE rt] →
  Src.buildRequest rt apiUrl settings type resource params w = (Normal built, w') →
  bare (prop (objects w) settings "headers") built.
Proof. intros Hd Ht. unfold Src.buildRequest. bare_build Hd Ht. Qed.

Lemma Lib_build_bare rt apiUrl settings type resource params w built w' :
  NoDup (actions_lib rt) →
  type ∈ [GET_LIST rt; GET_ONE rt; GET_MANY rt; GET_MANY_REFERENCE rt] →
  Lib.buildRequest rt apiUrl settings type resource params w = (Normal built, w') →
  bare (prop (objects w) settings "headers") built.
Proof. intros Hd Ht. unfold Lib.buildRequest. bare_build Hd Ht. Qed.

(** X3.  The four kinds that read (GET_LIST, GET_ONE, GET_MANY,
    GET_MANY_REFERENCE) send a request that has a URL and the settings'
    headers and nothing else: no method, so the transport's default, and no
    body.  In both files. *)
Theorem read_requests_are_bare rt apiUrl userSettings type resource params w :
  NoDup (actions_lib rt) →
  type ∈ [GET_LIST rt; GET_ONE rt; GET_MANY rt; GET_MANY_REFERENCE rt] →
  bareRequest rt userSettings w
    (Src.dataProvider rt apiUrl userSettings type resource params w)
  ∧ bareRequest rt userSettings w
      (Lib.dataProvider rt apiUrl userSettings type resource params w).
Proof.
  intros Hd Ht. split; intros p H.
  - pose proof (Src_dataProvider_run rt apiUrl userSettings type resource params w)
      as Hrun.
    pose proof (Src_build_quiet rt apiUrl (merged rt userSettings) type resource
                  params w) as Hq.
    destruct (Src.buildRequest _ _ _ _ _ _ _) as [[[[url options] params']|e] w1] eqn:Hb.
    + apply (Src_build_bare _ _ _ _ _ _ _ _ _ Hd Ht) in Hb. unfold bare in Hb.
      simpl in Hb, Hq. subst options.
      destruct Hrun as [p0 Hrun]. rewrite Hrun. 
      exists url. simpl. rewrite Hq. reflexivity.
    + rewrite Hrun in H. discriminate.
  - pose proof (Lib_dataProvider_run rt apiUrl userSettings type resource params w)
      as Hrun.
    pose proof (Lib_build_quiet rt apiUrl (merged rt userSettings) type resource
                  params w) as Hq.
    destruct (Lib.buildRequest _ _ _ _ _ _ _) as [[[[url options] params']|e] w1] eqn:Hb.
    + apply (Lib_build_bare _ _ _ _ _ _ _ _ _ Hd Ht) in Hb. unfold bare in Hb.
      simpl in Hb, Hq. subst options.
      destruct Hrun as [p0 Hrun]. rewrite Hrun.
      exists url. simpl. rewrite Hq. reflexivity.
    + rewrite Hrun in H. discriminate.
Qed.

Lemma read_requests_are_bare_witness :
  bareRequest (fixture [] [] None) VUndefined emptyWorld
    (Src.dataProvider (fixture [] [] None) "http://api" VUndefined "GET_MANY"
       "posts" manyParams emptyWorld).
Proof.
  apply (read_requests_are_bare (fixture [] [] None) "http://api" VUndefined
           "GET_MANY" "posts" manyParams emptyWorld (fixture_distinct _ _ _)).
  apply (bool_decide_unpack _). vm_compute. exact I.
Defined.

(** ** The response *)

(** A call, step by step: the request is built and logged, and the promise
    is the transport's rejection or what the handler makes of the response. *)
Lemma Src_dataProvider_unfold rt apiUrl userSettings type resource params w :
  Src.dataProvider rt apiUrl userSettings type resource params w
  = match Src.buildRequest rt apiUrl (merged rt userSettings) type resource params w with
    | (Normal (url, options, params'), w1) =>
        let request := VObj (("url", VStr url) :: options) in
        let w2 := World (objects w1) (sent w1 ++ [request]) in
        match axios rt request with
        | None => (Normal (Rejected None), w2)
        | Some response =>
            settle (let* total := Src.total rt (merged rt userSettings) type response in
                    Src.normalize rt type params' response total) w2
        end
    | (Throw e, w1) => (Throw e, w1)
    end.
Proof.
  unfold merged, Src.dataProvider, bind at 1.
  destruct (Src.buildRequest _ _ _ _ _ _ _) as [[[[url options] params']|e] w1];
    [|reflexivity].
  unfold bind at 1, send. cbv beta iota zeta.
  destruct (axios rt _); reflexivity.
Qed.

Lemma Lib_dataProvider_unfold rt apiUrl userSettings type resource params w :
  Lib.dataProvider rt apiUrl userSettings type resource params w
  = match Lib.buildRequest rt apiUrl (merged rt userSettings) type resource params w with
    | (Normal (url, options, params'), w1) =>
        let request := VObj (("url", VStr url) :: options) in
        let w2 := World (objects w1) (sent w1 ++ [request]) in
        match axios rt request with
        | None => (Normal (Rejected None), w2)
        | Some response =>
            settle (let* total := Lib.total rt (merged rt userSettings) type response in
                    Lib.normalize rt type params' response total) w2
        end
    | (Throw e, w1) => (Throw e, w1)
    end.
Proof.
  unfold merged, Lib.dataProvider, bind at 1.
  destruct (Lib.buildRequest _ _ _ _ _ _ _) as [[[[url options] params']|e] w1];
    [|reflexivity].
  unfold bind at 1, send. cbv beta iota zeta.
  destruct (axios rt _); reflexivity.
Qed.

Lemma prop_notNull h v k : notNull (prop h v k) = true → notNull v = true.
Proof. destruct v; try reflexivity; discriminate. Qed.

Lemma record_ok h item : notNull item = true → record h item = Normal (flat h item).
Proof. intros H. unfold record, flat. rewrite !get_ok by exact H. reflexivity. Qed.

Lemma record_null h item : notNull item = false → record h item = Throw TypeError.
Proof. intros H. unfold record. rewrite get_null by exact H. reflexivity. Qed.

Lemma spreadRecord_ok h item :
  notNull item = true → spreadRecord h item = Normal (flatSpread h item).
Proof. intros H. unfold spreadRecord, flatSpread. rewrite !get_ok by exact H. reflexivity. Qed.

Lemma spreadRecord_null h item :
  notNull item = false → spreadRecord h item = Throw TypeError.
Proof. intros H. unfold spreadRecord. rewrite get_null by exact H. reflexivity. Qed.

(** The item of a response that has one. *)
Lemma item_read h response :
  let item := prop h (prop h response "data") "data" in
  (let+ body := get h response "data" in get h body "data")
  = if notNull (prop h response "data") then Normal item else Throw TypeError.
Proof.
  intros item. unfold get at 1. destruct (notNull response) eqn:Hr; cbn [obind].
  - unfold get. destruct (notNull _); reflexivity.
  - destruct response; try discriminate; reflexivity.
Qed.

(** One case for every kind of a list of kinds. *)
Ltac each_kind Hd Ht :=
  distinct Hd;
  repeat (apply elem_of_cons in Ht as [-> | Ht]); [..|inversion Ht].

Ltac handler_kind Hd Ht :=
  each_kind Hd Ht; unfold includes; cbn [existsb]; kinds; cbn [orb].

(** The handler of the kinds that answer with one record: the spread in
    [src/index.js], [_extends] in the compiled variant. *)
Lemma Src_single_response rt settings type params response w :
  NoDup (actions_lib rt) →
  type ∈ [GET_ONE rt; CREATE rt; UPDATE rt] →
  let h := objects w in
  let item := prop h (prop h response "data") "data" in
  settle (let* total := Src.total rt settings type response in
          Src.normalize rt type params response total) w
  = (Normal (if notNull item then Fulfilled (VObj [("data", flatSpread h item)])
             else Rejected (Some TypeError)), w).
Proof.
  intros Hd Ht h item. unfold settle, Src.total, Src.normalize.
  handler_kind Hd Ht;
    unfold bind at 1, ret at 1; rewrite bind_read, item_read; fold h item;
    (destruct (notNull item) eqn:Hi;
     [ rewrite (prop_notNull _ _ _ Hi), bind_read, spreadRecord_ok by exact Hi;
       reflexivity
     | destruct (notNull (prop h response "data")); [|reflexivity];
       rewrite bind_read, spreadRecord_null by exact Hi; reflexivity ]).
Qed.

Lemma Lib_single_response rt settings type params response w :
  NoDup (actions_lib rt) →
  type ∈ [GET_ONE rt; CREATE rt; UPDATE rt] →
  let h := objects w in
  let item := prop h (prop h response "data") "data" in
  settle (let* total := Lib.total rt settings type response in
          Lib.normalize rt type params response total) w
  = (Normal (if notNull item then Fulfilled (VObj [("data", flat h item)])
             else Rejected (Some TypeError)), w).
Proof.
  intros Hd Ht h item. unfold settle, Lib.total, Lib.normalize.
  handler_kind Hd Ht;
    unfold bind at 1, ret at 1; rewrite bind_read, item_read; fold h item;
    (destruct (notNull item) eqn:Hi;
     [ rewrite (prop_notNull _ _ _ Hi), bind_read, record_ok by exact Hi; reflexivity
     | destruct (notNull (prop h response "data")); [|reflexivity];
       rewrite bind_read, record_null by exact Hi; reflexivity ]).
Qed.

(** X4.  GET_ONE, CREATE and UPDATE answer with one record, made of the
    item [response.data.data]: when the transport answers, the promise is
    fulfilled with [{ data: record }], the record being the spread
    [{ id, ...attributes }] in [src/index.js] and [_extends({ id },
    attributes)], which is [Object.assign], in the compiled variant; when
    the response has no such item (the response, its body or the item is
    [null] or [undefined]) the promise is rejected with a [TypeError], the
    call itself does not throw. *)
Theorem single_record_result rt apiUrl userSettings type resource params w response
    p w' :
  NoDup (actions_lib rt) →
  type ∈ [GET_ONE rt; CREATE rt; UPDATE rt] →
  (∀ request, axios rt request = Some response) →
  let h' := objects w' in
  let item := prop h' (prop h' response "data") "data" in
  (Src.dataProvider rt apiUrl userSettings type resource params w = (Normal p, w') →
   (notNull item = true → p = Fulfilled (VObj [("data", flatSpread h' item)]))
   ∧ (notNull item = false → p = Rejected (Some TypeError)))
  ∧ (Lib.dataProvider rt apiUrl userSettings type resource params w = (Normal p, w') →
     (notNull item = true → p = Fulfilled (VObj [("data", flat h' item)]))
     ∧ (notNull item = false → p = Rejected (Some TypeError))).
Proof.
  intros Hd Ht Hax h' item. split; intros H.
  - assert (Hp : p = if notNull item
                     then Fulfilled (VObj [("data", flatSpread h' item)])
                     else Rejected (Some TypeError)).
    { rewrite Src_dataProvider_unfold in H.
      destruct (Src.buildRequest _ _ _ _ _ _ _) as [[[[url options] params']|e] w1];
        [|discriminate].
      cbv zeta in H. rewrite Hax, Src_single_response in H by assumption.
      injection H as <- <-. reflexivity. }
    rewrite Hp. split; intros ->; reflexivity.
  - assert (Hp : p = if notNull item then Fulfilled (VObj [("data", flat h' item)])
                     else Rejected (Some TypeError)).
    { rewrite Lib_dataProvider_unfold in H.
      destruct (Lib.buildRequest _ _ _ _ _ _ _) as [[[[url options] params']|e] w1];
        [|discriminate].
      cbv zeta in H. rewrite Hax, Lib_single_response in H by assumption.
      injection H as <- <-. reflexivity. }
    rewrite Hp. split; intros ->; reflexivity.
Qed.

(** The two files on attributes that have an array index and [__proto__]
    among their keys: the index comes first in both records, and the spread
    keeps [__proto__] as a property where [_extends] does not. *)
Lemma single_record_result_witness :
  ∃ p q w',
    Src.dataProvider (fixture [] [] (Some protoResponse)) "http://api" VUndefined
      "GET_ONE" "posts" deleteParams emptyWorld = (Normal p, w')
    ∧ Lib.dataProvider (fixture [] [] (Some protoResponse)) "http://api" VUndefined
        "GET_ONE" "posts" deleteParams emptyWorld = (Normal q, w')
    ∧ p = Fulfilled (VObj [("data",
            VObj [("1", VStr "a"); ("id", VNum 7); ("title", VStr "x");
                  ("__proto__", VObj [("admin", VBool true)])])])
    ∧ q = Fulfilled (VObj [("data",
            VObj [("1", VStr "a"); ("id", VNum 7); ("title", VStr "x")])]).
Proof.
  eexists _, _, _.
  split; [vm_compute; reflexivity|]. split; [vm_compute; reflexivity|].
  split.
  - eapply (proj1 (single_record_result (fixture [] [] (Some protoResponse))
                     "http://api" VUndefined "GET_ONE" "posts" deleteParams emptyWorld
                     protoResponse _ _ (fixture_distinct _ _ _)
                     ltac:(apply (bool_decide_unpack _); vm_compute; exact I)
                     (λ _, eq_refl)));
      [vm_compute; reflexivity | reflexivity].
  - eapply (proj2 (single_record_result (fixture [] [] (Some protoResponse))
                     "http://api" VUndefined "GET_ONE" "posts" deleteParams emptyWorld
                     protoResponse _ _ (fixture_distinct _ _ _)
                     ltac:(apply (bool_decide_unpack _); vm_compute; exact I)
                     (λ _, eq_refl)));
      [vm_compute; reflexivity | reflexivity].
Defined.

Lemma lookupOwn_absent k (fs : props) : k ∉ fs.*1 → lookupOwn k fs = None.
Proof.
  induction fs as [|[k0 v0] fs IH]; simpl; intros H; [reflexivity|].
  apply not_elem_of_cons in H as [Hne Hin].
  rewrite eqb_false by exact Hne. apply IH, Hin.
Qed.

Lemma lookupOwn_define k k' v fs :
  lookupOwn k' (define k v fs)
  = if String.eqb k' k then Some v else lookupOwn k' fs.
Proof.
  induction fs as [|[k0 v0] fs IH]; simpl.
  - reflexivity.
  - destruct (String.eqb_spec k k0) as [->|Hk]; simpl.
    + destruct (String.eqb k' k0); reflexivity.
    + destruct (precedes k k0); simpl.
      * destruct (String.eqb k' k); reflexivity.
      * rewrite IH. destruct (String.eqb_spec k' k0) as [->|Hk'].
        -- rewrite eqb_false by congruence. reflexivity.
        -- reflexivity.
Qed.

(** The spread: a property of the source wins over the target's. *)
Lemma lookupOwn_spread k (target source : props) :
  NoDup source.*1 →
  lookupOwn k (foldl (λ acc kv, define kv.1 kv.2 acc) target source)
  = match lookupOwn k source with
    | Some v => Some v
    | None => lookupOwn k target
    end.
Proof.
  revert target. induction source as [|[k0 v0] source IH]; intros target Hnd; simpl.
  - reflexivity.
  - apply NoDup_cons in Hnd as [Hk0 Hnd]. rewrite IH by exact Hnd.
    rewrite lookupOwn_define.
    destruct (String.eqb_spec k k0) as [->|Hne]; [|reflexivity].
    rewrite lookupOwn_absent by exact Hk0. reflexivity.
Qed.

(** [Object.assign]: the same, but for [__proto__], which the target does
    not get. *)
Lemma lookupOwn_assign k (target source : props) :
  NoDup source.*1 →
  lookupOwn k
    (foldl (λ acc kv,
       if String.eqb kv.1 "__proto__" then acc else define kv.1 kv.2 acc)
       target source)
  = if String.eqb k "__proto__" then lookupOwn k target
    else match lookupOwn k source with
         | Some v => Some v
         | None => lookupOwn k target
         end.
Proof.
  revert target. induction source as [|[k0 v0] source IH]; intros target Hnd.
  - simpl. destruct (String.eqb k "__proto__"); reflexivity.
  - apply NoDup_cons in Hnd as [Hk0 Hnd]. cbn [foldl fst snd lookupOwn].
    rewrite IH by exact Hnd.
    destruct (String.eqb_spec k "__proto__") as [->|Hp].
    + destruct (String.eqb_spec k0 "__proto__") as [->|Hp0]; [reflexivity|].
      rewrite lookupOwn_define, eqb_false by congruence. reflexivity.
    + destruct (String.eqb_spec k0 "__proto__") as [->|Hp0].
      * rewrite (eqb_false k "__proto__") by exact Hp. reflexivity.
      * rewrite lookupOwn_define.
        destruct (String.eqb_spec k k0) as [->|Hne]; [|reflexivity].
        rewrite lookupOwn_absent by exact Hk0. reflexivity.
Qed.

(** X5.  The record made of an item, as [Object.assign({ id: item.id },
    item.attributes)] makes it and as the spread [{ id, ...attributes }]
    does: it has the attributes of the item as its own properties, and the
    id of the item, unless the attributes have an [id] of their own, which
    then replaces it.  An attribute named [__proto__] is a property of the
    spread; [Object.assign] does not make it one. *)
Theorem record_properties h item :
  let attributes := prop h item "attributes" in
  let own := entries h attributes in
  let id := Some (default (prop h item "id") (lookupOwn "id" own)) in
  notNull item = true →
  NoDup (keys h attributes) →
  ∃ fs gs,
    record h item = Normal (VObj fs)
    ∧ spreadRecord h item = Normal (VObj gs)
    ∧ lookupOwn "id" fs = id
    ∧ lookupOwn "id" gs = id
    ∧ lookupOwn "__proto__" fs = None
    ∧ lookupOwn "__proto__" gs = lookupOwn "__proto__" own
    ∧ (∀ k, k ≠ "id" → k ≠ "__proto__" →
            lookupOwn k fs = lookupOwn k own ∧ lookupOwn k gs = lookupOwn k own).
Proof.
  intros attributes own id Hi Hnd. eexists _, _.
  split; [apply record_ok, Hi|]. split; [apply spreadRecord_ok, Hi|].
  unfold Object_assign, spread. fold attributes own.
  repeat split.
  - rewrite lookupOwn_assign by exact Hnd. cbn [String.eqb Ascii.eqb Bool.eqb].
    unfold id. destruct (lookupOwn "id" own); reflexivity.
  - rewrite lookupOwn_spread by exact Hnd.
    unfold id. destruct (lookupOwn "id" own); reflexivity.
  - rewrite lookupOwn_assign by exact Hnd. reflexivity.
  - rewrite lookupOwn_spread by exact Hnd.
    destruct (lookupOwn "__proto__" own); reflexivity.
  - rewrite lookupOwn_assign, eqb_false by assumption.
    destruct (lookupOwn k own); [reflexivity|].
    simpl. rewrite eqb_false by assumption. reflexivity.
  - rewrite lookupOwn_spread by exact Hnd.
    destruct (lookupOwn k own); [reflexivity|].
    simpl. rewrite eqb_false by assumption. reflexivity.
Qed.

Lemma record_properties_witness :
  ∃ fs gs,
    record ∅ shadowedItem = Normal (VObj fs)
    ∧ spreadRecord ∅ shadowedItem = Normal (VObj gs)
    ∧ lookupOwn "id" fs = Some (VStr "inner")
    ∧ lookupOwn "id" gs = Some (VStr "inner").
Proof.
  destruct (record_properties ∅ shadowedItem eq_refl) as (fs & gs & H).
  - apply (bool_decide_unpack _). vm_compute. exact I.
  - exists fs, gs. destruct H as (Hf & Hg & Hif & Hig & _). auto.
Defined.

(** The records of an item whose attributes have an array index and
    [__proto__] among their keys. *)
Example record_order :
  record ∅ protoItem
  = Normal (VObj [("1", VStr "a"); ("id", VNum 7); ("title", VStr "x")])
  ∧ spreadRecord ∅ protoItem
    = Normal (VObj [("1", VStr "a"); ("id", VNum 7); ("title", VStr "x");
                    ("__proto__", VObj [("admin", VBool true)])]).
Proof. split; reflexivity. Qed.

(** ** The response to a collection request *)

Lemma mapO_record h items :
  Forall (λ item, notNull item = true) items →
  mapO (record h) items = Normal (flat h <$> items).
Proof.
  induction 1 as [|item items Hi _ IH]; simpl; [reflexivity|].
  rewrite record_ok by exact Hi. cbn [obind]. rewrite IH. reflexivity.
Qed.

Lemma records_ok h response items :
  deref h (prop h (prop h response "data") "data") = VArr items →
  Forall (λ item, notNull item = true) items →
  records h response = Normal (VArr (flat h <$> items)).
Proof.
  intros Hd Hi. unfold records.
  pose proof (deref_arr_notNull _ _ _ Hd) as Hdata.
  pose proof (prop_notNull _ _ _ Hdata) as Hbody.
  pose proof (prop_notNull _ _ _ Hbody) as Hresponse.
  rewrite get_ok by exact Hresponse. cbn [obind].
  rewrite get_ok by exact Hbody. cbn [obind].
  unfold isArray. rewrite Hd. cbn [obind].
  rewrite mapO_record by exact Hi. reflexivity.
Qed.

Lemma collection_includes rt type :
  type ∈ [GET_LIST rt; GET_MANY rt; GET_MANY_REFERENCE rt] →
  includes type [GET_LIST rt; GET_MANY rt; GET_MANY_REFERENCE rt] = true.
Proof.
  intros Ht. unfold includes. cbn [existsb].
  repeat (apply elem_of_cons in Ht as [-> | Ht]); [..|inversion Ht];
    rewrite String.eqb_refl, ?orb_true_r; reflexivity.
Qed.

Section Collection.

Variables (rt : imports) (settings params response : value) (type : string).
Variables (w : world) (items : list value).

Let h := objects w.
Let body := prop h response "data".

Hypothesis distinct_kinds : NoDup (actions_lib rt).
Hypothesis collection : type ∈ [GET_LIST rt; GET_MANY rt; GET_MANY_REFERENCE rt].
Hypothesis data_array : deref h (prop h body "data") = VArr items.
Hypothesis data_items : Forall (λ item, notNull item = true) items.

Lemma response_read :
  (notNull response = true ∧ prop h response "data" = body)
  ∧ (notNull body = true ∧ deref h (prop h body "data") = VArr items).
Proof.
  pose proof (deref_arr_notNull _ _ _ data_array) as Hdata.
  pose proof (prop_notNull _ _ _ Hdata) as Hbody.
  pose proof (prop_notNull _ _ _ Hbody) as Hresponse.
  auto.
Qed.

Lemma Src_collection_response :
  ∃ total,
    Src.total rt settings type response w = (Normal total, w)
    ∧ settle (let* total := Src.total rt settings type response in
              Src.normalize rt type params response total) w
      = (Normal (Fulfilled (VObj [("data", VArr (flat h <$> items));
                                  ("total", total)])), w).
Proof.
  destruct response_read as [Hr Hb].
  pose proof (Src_total_run rt settings response body type w items
                (collection_includes _ _ collection) Hr Hb) as Ht.
  eexists. split; [exact Ht|].
  unfold settle, bind at 1. rewrite Ht. clear Ht.
  pose proof collection as Hc. pose proof distinct_kinds as Hd.
  unfold Src.normalize.
  handler_kind Hd Hc;
    rewrite bind_read; fold h;
    rewrite (records_ok _ _ _ data_array data_items); reflexivity.
Qed.

Lemma Lib_collection_response :
  ∃ total,
    Lib.total rt settings type response w = (Normal total, w)
    ∧ settle (let* total := Lib.total rt settings type response in
              Lib.normalize rt type params response total) w
      = (Normal (Fulfilled (VObj (("data", VArr (flat h <$> items))
                                  :: ("total", total)
                                  :: if String.eqb type (GET_MANY_REFERENCE rt) then []
                                     else [("meta", prop h body "meta")]))), w).
Proof.
  destruct response_read as [Hr Hb].
  pose proof (Lib_total_run rt settings response body type w items
                (collection_includes _ _ collection) Hr Hb) as Ht.
  eexists. split; [exact Ht|].
  unfold settle, bind at 1. rewrite Ht. clear Ht.
  pose proof collection as Hc. pose proof distinct_kinds as Hd.
  pose proof (meta_read response body w items Hr Hb) as Hm. fold h in Hm.
  unfold Lib.normalize.
  handler_kind Hd Hc;
    rewrite bind_read; fold h;
    rewrite (records_ok _ _ _ data_array data_items); cbv beta iota;
    rewrite ?bind_read; fold h; rewrite ?Hm; reflexivity.
Qed.

End Collection.

(** X6.  The collection kinds (GET_LIST, GET_MANY, GET_MANY_REFERENCE), when
    the transport answers with a data array of items: the promise is
    fulfilled with [data], one record [Object.assign({ id }, attributes)]
    per item in the order of the response (so without an attribute named
    [__proto__]), and [total], the value the total step computes.
    [src/index.js] returns
    these two and nothing else; the compiled variant adds the response's
    [meta] for GET_LIST and GET_MANY, and not for GET_MANY_REFERENCE. *)
Theorem collection_result rt apiUrl userSettings type resource params w response
    items p w' :
  let h' := objects w' in
  let body := prop h' response "data" in
  let data := VArr (flat h' <$> items) in
  NoDup (actions_lib rt) →
  type ∈ [GET_LIST rt; GET_MANY rt; GET_MANY_REFERENCE rt] →
  (∀ request, axios rt request = Some response) →
  deref h' (prop h' body "data") = VArr items →
  Forall (λ item, notNull item = true) items →
  (Src.dataProvider rt apiUrl userSettings type resource params w = (Normal p, w') →
   ∃ total,
     Src.total rt (merged rt userSettings) type response w' = (Normal total, w')
     ∧ p = Fulfilled (VObj [("data", data); ("total", total)]))
  ∧ (Lib.dataProvider rt apiUrl userSettings type resource params w = (Normal p, w') →
     ∃ total,
       Lib.total rt (merged rt userSettings) type response w' = (Normal total, w')
       ∧ p = Fulfilled (VObj (("data", data) :: ("total", total)
                              :: if String.eqb type (GET_MANY_REFERENCE rt) then []
                                 else [("meta", prop h' body "meta")]))).
Proof.
  intros h' body data Hd Ht Hax Harr Hitems. split; intros H.
  - rewrite Src_dataProvider_unfold in H.
    destruct (Src.buildRequest _ _ _ _ _ _ _) as [[[[url options] params']|e] w1];
      [|discriminate].
    cbv zeta in H. rewrite Hax in H.
    destruct (settle_readonly _ (World (objects w1)
                (sent w1 ++ [VObj (("url", VStr url) :: options)]))
                (Src_response_readonly rt (merged rt userSettings) type params'
                   response)) as [p0 Hp0].
    rewrite Hp0 in H. injection H as -> <-.
    destruct (Src_collection_response rt (merged rt userSettings) params' response
                type _ items Hd Ht Harr Hitems) as (total & Htotal & Hs).
    rewrite Hs in Hp0. injection Hp0 as <-. eauto.
  - rewrite Lib_dataProvider_unfold in H.
    destruct (Lib.buildRequest _ _ _ _ _ _ _) as [[[[url options] params']|e] w1];
      [|discriminate].
    cbv zeta in H. rewrite Hax in H.
    destruct (settle_readonly _ (World (objects w1)
                (sent w1 ++ [VObj (("url", VStr url) :: options)]))
                (Lib_response_readonly rt (merged rt userSettings) type params'
                   response)) as [p0 Hp0].
    rewrite Hp0 in H. injection H as -> <-.
    destruct (Lib_collection_response rt (merged rt userSettings) params' response
                type _ items Hd Ht Harr Hitems) as (total & Htotal & Hs).
    rewrite Hs in Hp0. injection Hp0 as <-. eauto.
Qed.

Lemma collection_result_witness :
  ∃ p w',
    Lib.dataProvider (fixture [] [] (Some collectionResponse)) "http://api" VUndefined
      "GET_MANY" "posts" manyParams emptyWorld = (Normal p, w')
    ∧ ∃ total,
        Lib.total (fixture [] [] (Some collectionResponse))
          (merged (fixture [] [] (Some collectionResponse)) VUndefined) "GET_MANY"
          collectionResponse w' = (Normal total, w')
        ∧ p = Fulfilled (VObj [
            ("data", VArr [VObj [("id", VNum 1); ("title", VStr "a")];
                           VObj [("id", VNum 2); ("title", VStr "b")]]);
            ("total", total);
            ("meta", VObj [("page", VNum 1)])]).
Proof.
  eexists _, _. split; [vm_compute; reflexivity|].
  apply (proj2 (collection_result (fixture [] [] (Some collectionResponse))
                  "http://api" VUndefined "GET_MANY" "posts" manyParams emptyWorld
                  collectionResponse collectionItems _ _ (fixture_distinct _ _ _)
                  ltac:(apply (bool_decide_unpack _); vm_compute; exact I)
                  (λ _, eq_refl) eq_refl ltac:(repeat constructor))).
  vm_compute. reflexivity.
Defined.

(** ** Responses that are not what the handler expects *)

Lemma typeErrors_ret {A} (a : A) : typeErrors (ret a).
Proof. intros w e w' H. discriminate. Qed.

Lemma typeErrors_read {A} (f : heap → outcome A) :
  (∀ h e, f h = Throw e → e = TypeError) → typeErrors (read f).
Proof. intros Hf w e w' H. injection H as H _. exact (Hf _ _ H). Qed.

Lemma typeErrors_bind {A B} (m : M A) (k : A → M B) :
  typeErrors m → (∀ a, typeErrors (k a)) → typeErrors (bind m k).
Proof.
  intros Hm Hk w e w' H. unfold bind in H.
  destruct (m w) as [[a|e0] w1] eqn:E.
  - exact (Hk a w1 e w' H).
  - injection H as <- <-. exact (Hm w e0 w1 E).
Qed.

Lemma get_throw h v k e : get h v k = Throw e → e = TypeError.
Proof. unfold get. destruct (notNull v); congruence. Qed.

Lemma obind_throw {A B} (m : outcome A) (k : A → outcome B) e :
  (∀ e, m = Throw e → e = TypeError) →
  (∀ a e, k a = Throw e → e = TypeError) →
  obind m k = Throw e → e = TypeError.
Proof.
  intros Hm Hk. destruct m as [a|e0]; simpl; [apply Hk|].
  intros H. injection H as <-. apply Hm. reflexivity.
Qed.

Lemma record_throw h item e : record h item = Throw e → e = TypeError.
Proof.
  unfold record. apply obind_throw; [intros ?; apply get_throw|].
  intros id e0. apply obind_throw; [intros ?; apply get_throw|]. discriminate.
Qed.

Lemma spreadRecord_throw h item e : spreadRecord h item = Throw e → e = TypeError.
Proof.
  unfold spreadRecord. apply obind_throw; [intros ?; apply get_throw|].
  intros id e0. apply obind_throw; [intros ?; apply get_throw|]. discriminate.
Qed.

Lemma mapO_record_inv h items rs :
  mapO (record h) items = Normal rs → Forall (λ item, notNull item = true) items.
Proof.
  revert rs. induction items as [|item items IH]; simpl; intros rs H; [constructor|].
  destruct (record h item) as [r|] eqn:Er; [|discriminate]. cbn [obind] in H.
  destruct (mapO (record h) items) as [rs'|]; [|discriminate].
  constructor; [|eapply IH; reflexivity].
  unfold record, get in Er. destruct (notNull item); [reflexivity | discriminate].
Qed.

Lemma mapO_record_throw h items e :
  mapO (record h) items = Throw e → e = TypeError.
Proof.
  revert e. induction items as [|item items IH]; simpl; intros e; [discriminate|].
  apply obind_throw; [intros ?; apply record_throw|].
  intros r e0. apply obind_throw; [exact IH|]. discriminate.
Qed.

Lemma records_throw h response e : records h response = Throw e → e = TypeError.
Proof.
  unfold records. apply obind_throw; [intros ?; apply get_throw|].
  intros body e0. apply obind_throw; [intros ?; apply get_throw|].
  intros data e1. apply obind_throw; [intros ?; apply isArray_throw|].
  intros xs e2. apply obind_throw; [intros ?; apply mapO_record_throw|].
  discriminate.
Qed.

Lemma records_inv h response v :
  records h response = Normal v →
  ∃ items,
    deref h (prop h (prop h response "data") "data") = VArr items
    ∧ Forall (λ item, notNull item = true) items.
Proof.
  unfold records, get. intros H.
  destruct (notNull response); [|discriminate]. cbn [obind] in H.
  destruct (notNull (prop h response "data")); [|discriminate]. cbn [obind] in H.
  unfold isArray in H.
  destruct (deref h (prop h (prop h response "data") "data")) as [| | | | |xs| |];
    try discriminate.
  cbn [obind] in H. destruct (mapO (record h) xs) as [rs|] eqn:E; [|discriminate].
  exists xs. split; [reflexivity|]. eapply mapO_record_inv, E.
Qed.

Lemma body_read_throw h response k e :
  (let+ body := get h response "data" in get h body k) = Throw e → e = TypeError.
Proof.
  apply obind_throw; [intros ?; apply get_throw|]. intros body e0. apply get_throw.
Qed.

Lemma length_read_throw h response e :
  (let+ body := get h response "data" in
   let+ data := get h body "data" in
   get h data "length") = Throw e → e = TypeError.
Proof.
  apply obind_throw; [intros ?; apply get_throw|].
  intros body e0. apply obind_throw; [intros ?; apply get_throw|].
  intros data e1. apply get_throw.
Qed.

Ltac typeErrors :=
  repeat first
    [ apply typeErrors_ret
    | apply typeErrors_bind; [|intros ?]
    | apply typeErrors_read; intros ? ?;
        first [ apply body_read_throw | apply length_read_throw | apply get_throw
              | apply records_throw | apply record_throw
              | apply spreadRecord_throw | discriminate ]
    | match goal with
      | |- typeErrors (if ?c then _ else _) => destruct c
      end ].

Lemma Src_total_typeErrors rt settings type response :
  typeErrors (Src.total rt settings type response).
Proof. unfold Src.total. typeErrors. Qed.

Lemma Lib_total_typeErrors rt settings type response :
  typeErrors (Lib.total rt settings type response).
Proof. unfold Lib.total. typeErrors. Qed.

(** The handler of a collection kind starts with the records. *)
Lemma Src_normalize_collection rt type params response :
  NoDup (actions_lib rt) →
  type ∈ [GET_LIST rt; GET_MANY rt; GET_MANY_REFERENCE rt] →
  ∃ k, (∀ total, Src.normalize rt type params response total
                 = (let* data := read (λ h, records h response) in k total data))
       ∧ ∀ total data, typeErrors (k total data).
Proof.
  intros Hd Ht. unfold Src.normalize.
  handler_kind Hd Ht;
    eexists; (split; [intros total; reflexivity|]); intros total data; typeErrors.
Qed.

Lemma Lib_normalize_collection rt type params response :
  NoDup (actions_lib rt) →
  type ∈ [GET_LIST rt; GET_MANY rt; GET_MANY_REFERENCE rt] →
  ∃ k, (∀ total, Lib.normalize rt type params response total
                 = (let* data := read (λ h, records h response) in k total data))
       ∧ ∀ total data, typeErrors (k total data).
Proof.
  intros Hd Ht. unfold Lib.normalize.
  handler_kind Hd Ht;
    eexists; (split; [intros total; reflexivity|]); intros total data; typeErrors.
Qed.

Lemma collection_handler (total : M value) (normalize : value → M value)
    (k : value → value → M value) response w p w' :
  typeErrors total →
  readonly total →
  (∀ t, normalize t = (let* data := read (λ h, records h response) in k t data)) →
  (∀ t data, typeErrors (k t data)) →
  settle (let* t := total in normalize t) w = (Normal p, w') →
  (∃ v data, p = Fulfilled v ∧ records (objects w) response = Normal data)
  ∨ p = Rejected (Some TypeError).
Proof.
  intros Ht Hr Hn Hk H. unfold settle in H.
  destruct (bind total _ w) as [[v|e] w1] eqn:E; injection H as <- <-.
  - left. apply bind_inv in E as (t & w2 & Et & E). rewrite Hn in E.
    pose proof (Hr w) as Hw. rewrite Et in Hw. simpl in Hw. subst w2.
    rewrite bind_read in E.
    destruct (records (objects w) response); [eauto | discriminate].
  - right. do 2 f_equal. revert E. apply typeErrors_bind; [exact Ht|].
    intros t. rewrite Hn. apply typeErrors_bind; [|apply Hk].
    apply typeErrors_read. intros h e0. apply records_throw.
Qed.

Lemma Src_total_readonly rt settings type response :
  readonly (Src.total rt settings type response).
Proof. unfold Src.total. readonly. Qed.

Lemma Lib_total_readonly rt settings type response :
  readonly (Lib.total rt settings type response).
Proof. unfold Lib.total. readonly. Qed.

(** X7.  A collection kind whose response does not carry an array of items
    (no body, a [data] that is a single object or [null], an item that is
    [null]) does not throw and does not answer with partial data: the
    promise is rejected with a [TypeError].  In both files, the helper
    [getValue] of the compiled variant being one that does not throw. *)
Theorem malformed_collection_rejected rt apiUrl userSettings type resource params w
    response p w' :
  let h' := objects w' in
  NoDup (actions_lib rt) →
  type ∈ [GET_LIST rt; GET_MANY rt; GET_MANY_REFERENCE rt] →
  (∀ request, axios rt request = Some response) →
  (∀ items, deref h' (prop h' (prop h' response "data") "data") = VArr items →
            ¬ Forall (λ item, notNull item = true) items) →
  Src.dataProvider rt apiUrl userSettings type resource params w = (Normal p, w')
  ∨ Lib.dataProvider rt apiUrl userSettings type resource params w = (Normal p, w') →
  p = Rejected (Some TypeError).
Proof.
  intros h' Hd Ht Hax Hbad H.
  assert (Hp : (∃ v data, p = Fulfilled v ∧ records h' response = Normal data)
               ∨ p = Rejected (Some TypeError)).
  { destruct H as [H|H].
    - rewrite Src_dataProvider_unfold in H.
      destruct (Src.buildRequest _ _ _ _ _ _ _) as [[[[url options] params']|e] w1];
        [|discriminate].
      cbv zeta in H. rewrite Hax in H.
      destruct (settle_readonly _ (World (objects w1)
                  (sent w1 ++ [VObj (("url", VStr url) :: options)]))
                  (Src_response_readonly rt (merged rt userSettings) type params'
                     response)) as [p0 Hp0].
      rewrite Hp0 in H. injection H as -> <-.
      destruct (Src_normalize_collection rt type params' response Hd Ht)
        as (k & Hn & Hk).
      eapply collection_handler;
        [apply Src_total_typeErrors | apply Src_total_readonly | exact Hn | exact Hk
        | exact Hp0].
    - rewrite Lib_dataProvider_unfold in H.
      destruct (Lib.buildRequest _ _ _ _ _ _ _) as [[[[url options] params']|e] w1];
        [|discriminate].
      cbv zeta in H. rewrite Hax in H.
      destruct (settle_readonly _ (World (objects w1)
                  (sent w1 ++ [VObj (("url", VStr url) :: options)]))
                  (Lib_response_readonly rt (merged rt userSettings) type params'
                     response)) as [p0 Hp0].
      rewrite Hp0 in H. injection H as -> <-.
      destruct (Lib_normalize_collection rt type params' response Hd Ht)
        as (k & Hn & Hk).
      eapply collection_handler;
        [apply Lib_total_typeErrors | apply Lib_total_readonly | exact Hn | exact Hk
        | exact Hp0]. }
  destruct Hp as [(v & data & _ & Hrec)|Hp]; [|exact Hp].
  apply records_inv in Hrec as (items & Harr & Hitems).
  destruct (Hbad items Harr Hitems).
Qed.

Lemma malformed_collection_rejected_witness :
  ∃ p w',
    Src.dataProvider (fixture [] [] (Some recordResponse)) "http://api" VUndefined
      "GET_MANY" "posts" manyParams emptyWorld = (Normal p, w')
    ∧ p = Rejected (Some TypeError).
Proof.
  eexists _, _. split; [vm_compute; reflexivity|].
  eapply (malformed_collection_rejected (fixture [] [] (Some recordResponse))
            "http://api" VUndefined "GET_MANY" "posts" manyParams emptyWorld
            recordResponse _ _ (fixture_distinct _ _ _)).
  - apply (bool_decide_unpack _). vm_compute. exact I.
  - intros request. reflexivity.
  - intros items Hi. discriminate Hi.
  - left. vm_compute. reflexivity.
Defined.

(** ** The rest of the GET_LIST query *)

Lemma filter_not_param K name key : (name = "fields" ∨ name = "meta") →
  param "filter" K ≠ param name key.
Proof. intros [->| ->]; discriminate. Qed.

Lemma meta_not_param K name key : (name = "filter" ∨ name = "fields") →
  param "meta" K ≠ param name key.
Proof. intros [->| ->]; discriminate. Qed.

(** X8.  The query of a GET_LIST call, in both files: [page[number]] and
    [page[size]] are the caller's [pagination.page] and [pagination.perPage],
    and every own key [K] of [params.filter] gives [filter[K]] with the value
    of that key; the later steps (fields, meta, sort) overwrite none of
    them. *)
Theorem list_page_and_filters rt resource params w q params' w' :
  Src.listQuery rt resource params w = (Normal (q, params'), w')
  ∨ Lib.listQuery rt resource params w = (Normal (q, params'), w') →
  let h := objects w in
  let pagination := prop h params "pagination" in
  let filter := prop h params "filter" in
  lookupOwn "page[number]" q = Some (prop h pagination "page")
  ∧ lookupOwn "page[size]" q = Some (prop h pagination "perPage")
  ∧ (∀ K, K ∈ keys h (or_else filter (VObj [])) →
          lookupOwn (param "filter" K) q = Some (prop h filter K)).
Proof.
  intros H h pagination filter.
  assert (Hq : ∀ k, k ≠ "sort" → (∀ key, k ≠ param "fields" key) →
                    (∀ key, k ≠ param "meta" key) →
                    lookupOwn k q
                    = lookupOwn k (filled "filter" h filter (pageEntries h params))).
  { intros k Hs Hf Hm. destruct H as [H|H].
    - apply Src_listQuery_inv in H as (_ & _ & _ & ->).
      rewrite lookup_sorted_other by exact Hs.
      rewrite lookupOwn_filled_other by exact Hf. reflexivity.
    - apply Lib_listQuery_inv in H as (_ & _ & _ & ->).
      rewrite lookup_sorted_other by exact Hs.
      rewrite lookupOwn_filled_other by exact Hm.
      rewrite lookupOwn_filled_other by exact Hf. reflexivity. }
  repeat split.
  - rewrite Hq by discriminate.
    rewrite lookupOwn_filled_other by discriminate. reflexivity.
  - rewrite Hq by discriminate.
    rewrite lookupOwn_filled_other by discriminate. reflexivity.
  - intros K HK.
    rewrite Hq by (try discriminate; intros; apply filter_not_param; auto).
    rewrite lookupOwn_filled, bool_decide_eq_true_2 by exact HK. reflexivity.
Qed.

Lemma list_page_and_filters_witness :
  ∃ q params' w',
    Lib.listQuery (fixture [] [] None) "posts" (listParams "ASC") emptyWorld
    = (Normal (q, params'), w')
    ∧ lookupOwn "page[number]" q = Some (VNum 1)
    ∧ lookupOwn "page[size]" q = Some (VNum 10)
    ∧ (∀ K, K ∈ ["q"] → lookupOwn (param "filter" K) q
                        = Some (prop ∅ (VObj [("q", VStr "x")]) K)).
Proof.
  eexists _, _, _. split; [vm_compute; reflexivity|].
  apply (list_page_and_filters (fixture [] [] None) "posts" (listParams "ASC")
           emptyWorld _ _ _ (or_intror eq_refl)).
Defined.

(** X9.  [meta[K]] parameters.  The compiled variant sends one for every own
    key of [params.meta], with the value of that key; [src/index.js] has no
    such step, its query never has a [meta[..]] parameter. *)
Theorem list_meta_parameters rt resource params w q params' w' :
  (Src.listQuery rt resource params w = (Normal (q, params'), w') →
   ∀ K, lookupOwn (param "meta" K) q = None)
  ∧ (Lib.listQuery rt resource params w = (Normal (q, params'), w') →
     let h' := objects w' in
     let meta := prop h' params' "meta" in
     meta = prop (objects w) params "meta"
     ∧ ∀ K, K ∈ keys h' (or_else meta (VObj [])) →
            lookupOwn (param "meta" K) q = Some (prop h' meta K)).
Proof.
  split; intros H.
  - intros K. apply Src_listQuery_inv in H as (_ & _ & _ & ->).
    rewrite lookup_sorted_other by discriminate.
    rewrite !lookupOwn_filled_other by (intros; apply meta_not_param; auto).
    reflexivity.
  - intros h' meta. apply Lib_listQuery_inv in H as (_ & _ & Ha & ->).
    apply addFields_frame in Ha as (_ & _ & Hp & _).
    split; [apply Hp; discriminate|].
    intros K HK. rewrite lookup_sorted_other by discriminate.
    rewrite lookupOwn_filled, bool_decide_eq_true_2 by exact HK. reflexivity.
Qed.

Lemma list_meta_parameters_witness :
  ∃ q params' w',
    Lib.listQuery (fixture [] [] None) "posts" metaParams emptyWorld
    = (Normal (q, params'), w')
    ∧ lookupOwn "meta[include]" q = Some (VStr "author").
Proof.
  eexists _, _, _. split; [vm_compute; reflexivity|].
  destruct (proj2 (list_meta_parameters (fixture [] [] None) "posts" metaParams
                     emptyWorld _ _ _) eq_refl) as [_ Hmeta].
  apply (Hmeta "include"). apply (bool_decide_unpack _). vm_compute. exact I.
Defined.

Lemma strictEqStr_false v s : v ≠ VStr s → strictEqStr v s = false.
Proof.
  intros H. destruct v; try reflexivity. simpl.
  apply eqb_false. congruence.
Qed.

(** X10.  The sort order of GET_LIST, in both files: only the string
    ["ASC"] sorts ascending.  Any other order (["DESC"], lower-case
    ["asc"], a missing order) gives the field with [-] in front. *)
Theorem list_sort_descending_unless_asc rt resource params w q params' w' f :
  Src.listQuery rt resource params w = (Normal (q, params'), w')
  ∨ Lib.listQuery rt resource params w = (Normal (q, params'), w') →
  let h := objects w in
  let sort := prop h params "sort" in
  prop h sort "field" = VStr f → f ≠ EmptyString →
  prop h sort "order" ≠ VStr "ASC" →
  lookupOwn "sort" q = Some (VStr ("-" +:+ f)).
Proof.
  intros H h sort Hf Hne Ho.
  destruct (list_sort rt resource params w q params' w' H) as [Hfield _].
  fold h sort in Hfield.
  rewrite (Hfield f Hf Hne), (strictEqStr_false _ _ Ho). reflexivity.
Qed.

Lemma list_sort_descending_unless_asc_witness :
  ∃ q params' w',
    Src.listQuery (fixture [] [] None) "posts" (listParams "asc") emptyWorld
    = (Normal (q, params'), w')
    ∧ lookupOwn "sort" q = Some (VStr "-name").
Proof.
  eexists _, _, _. split; [vm_compute; reflexivity|].
  apply (list_sort_descending_unless_asc (fixture [] [] None) "posts"
           (listParams "asc") emptyWorld _ _ _ "name" (or_introl eq_refl) eq_refl);
    discriminate.
Defined.

(** ** The kinds that write *)

(** X11.  CREATE serializes [{ data: { type, attributes: params.data } }],
    the attributes being [params.data] as the caller passed it (an [id] in
    it goes along, where UPDATE removes it).  When the serializer returns
    its text, the text is posted to [base/resource]; when it throws, the
    call throws the same and nothing is sent.  Nothing of the caller's is
    written.  In both files. *)
Theorem create_request rt apiUrl userSettings resource params w :
  let h := objects w in
  let settings := merged rt userSettings in
  let text := JSON_stringify rt h (createBody resource (prop h params "data")) in
  let request := createRequest apiUrl resource (prop h settings "headers") in
  NoDup (actions_lib rt) →
  notNull params = true →
  serialized text request w
    (Src.dataProvider rt apiUrl userSettings (CREATE rt) resource params w)
  ∧ serialized text request w
      (Lib.dataProvider rt apiUrl userSettings (CREATE rt) resource params w).
Proof.
  intros h settings text request Hd Hp. distinct Hd.
  unfold serialized, text, request, createBody. split.
  - pose proof (Src_dataProvider_run rt apiUrl userSettings (CREATE rt) resource
                  params w) as Hrun.
    unfold Src.buildRequest in Hrun. rewrite bind_read in Hrun.
    cbv beta iota in Hrun. revert Hrun. kinds.
    rewrite bind_read, get_ok by exact Hp. rewrite bind_read. fold h.
    destruct (JSON_stringify rt h _); exact id.
  - pose proof (Lib_dataProvider_run rt apiUrl userSettings (CREATE rt) resource
                  params w) as Hrun.
    unfold Lib.buildRequest in Hrun. rewrite bind_read in Hrun.
    cbv beta iota in Hrun. revert Hrun. kinds.
    rewrite bind_read, get_ok by exact Hp. rewrite bind_read. fold h.
    destruct (JSON_stringify rt h _); exact id.
Qed.

Lemma create_request_witness :
  sends emptyWorld
    (createRequest "http://api" "posts" (VObj [])
       "{data:{type:posts,attributes:{id:7,title:t}}}")
    (Src.dataProvider (fixture [] [] None) "http://api" VUndefined "CREATE" "posts"
       createParams emptyWorld)
  ∧ Lib.dataProvider (fixture [] [] None) "http://api" VUndefined "CREATE" "posts"
      (VRef 1%positive) cyclicWorld
    = (Throw TypeError, cyclicWorld).
Proof.
  split.
  - apply (proj1 (create_request (fixture [] [] None) "http://api" VUndefined "posts"
                    createParams emptyWorld (fixture_distinct _ _ _) eq_refl)).
  - apply (proj2 (create_request (fixture [] [] None) "http://api" VUndefined "posts"
                    (VRef 1%positive) cyclicWorld (fixture_distinct _ _ _) eq_refl)).
Defined.

(** The handler of the kinds that work on many records. *)
Lemma Lib_bulk_response rt settings type params response w :
  NoDup (actions_lib rt) →
  type ∈ [UPDATE_MANY rt; DELETE_MANY rt] →
  notNull params = true →
  settle (let* total := Lib.total rt settings type response in
          Lib.normalize rt type params response total) w
  = (Normal (Fulfilled (VObj [("data", prop (objects w) params "ids")])), w).
Proof.
  intros Hd Ht Hp. unfold settle, Lib.total, Lib.normalize.
  handler_kind Hd Ht;
    unfold bind at 1, ret at 1; rewrite bind_read, get_ok by exact Hp; reflexivity.
Qed.

(** X12.  The compiled variant's UPDATE_MANY and DELETE_MANY serialize
    [{ ids, data }] and [{ ids }].  When the serializer returns its text,
    one request goes to [base/resource], with the settings' update method,
    or with DELETE, and the text as its body; when the transport answers,
    whatever it answers, the promise is fulfilled with
    [{ data: params.ids }].  When the serializer throws, the call throws the
    same and nothing is sent.  Nothing of the caller's is written. *)
Theorem bulk_requests rt apiUrl userSettings resource params w response :
  let h := objects w in
  let settings := merged rt userSettings in
  let headers := prop h settings "headers" in
  let ids := prop h params "ids" in
  let result := Fulfilled (VObj [("data", ids)]) in
  NoDup (actions_lib rt) →
  notNull params = true →
  (∀ request, axios rt request = Some response) →
  Lib.dataProvider rt apiUrl userSettings (UPDATE_MANY rt) resource params w
  = match JSON_stringify rt h (VObj [("ids", ids); ("data", prop h params "data")]) with
    | Normal body =>
        (Normal result,
         World h (sent w ++ [bulkRequest apiUrl resource headers
                               (prop h settings "updateMethod") body]))
    | Throw e => (Throw e, w)
    end
  ∧ Lib.dataProvider rt apiUrl userSettings (DELETE_MANY rt) resource params w
    = match JSON_stringify rt h (VObj [("ids", ids)]) with
      | Normal body =>
          (Normal result,
           World h (sent w ++ [bulkRequest apiUrl resource headers (VStr "DELETE")
                                 body]))
      | Throw e => (Throw e, w)
      end.
Proof.
  intros h settings headers ids result Hd Hp Hax. split.
  - rewrite Lib_dataProvider_unfold. unfold Lib.buildRequest.
    rewrite bind_read. cbv beta iota.
    pose proof Hd as Hd'. distinct Hd'. kinds.
    rewrite bind_read, get_ok by exact Hp.
    rewrite bind_read, get_ok by exact Hp.
    do 2 rewrite bind_read. fold h ids.
    destruct (JSON_stringify rt h _); [|reflexivity].
    unfold ret. cbv zeta. rewrite Hax.
    rewrite Lib_bulk_response; [reflexivity | exact Hd | | exact Hp].
    apply list_elem_of_here.
  - rewrite Lib_dataProvider_unfold. unfold Lib.buildRequest.
    rewrite bind_read. cbv beta iota.
    pose proof Hd as Hd'. distinct Hd'. kinds.
    rewrite bind_read, get_ok by exact Hp.
    rewrite bind_read. fold h ids.
    destruct (JSON_stringify rt h _); [|reflexivity].
    unfold ret. cbv zeta. rewrite Hax.
    rewrite Lib_bulk_response; [reflexivity | exact Hd | | exact Hp].
    apply elem_of_cons; right; apply list_elem_of_here.
Qed.

Lemma bulk_requests_witness :
  Lib.dataProvider (fixture [] [] (Some VNull)) "http://api" VUndefined "UPDATE_MANY"
    "posts" bulkParams emptyWorld
  = (Normal (Fulfilled (VObj [("data", VArr [VNum 1; VNum 2])])),
     World ∅ [VObj [("url", VStr "http://api/posts"); ("headers", VObj []);
                    ("method", VStr "PATCH");
                    ("data", VStr "{ids:[1,2],data:{done:true}}")]])
  ∧ Lib.dataProvider (fixture [] [] (Some VNull)) "http://api" VUndefined
      "DELETE_MANY" "posts" bulkParams emptyWorld
    = (Normal (Fulfilled (VObj [("data", VArr [VNum 1; VNum 2])])),
       World ∅ [VObj [("url", VStr "http://api/posts"); ("headers", VObj []);
                      ("method", VStr "DELETE"); ("data", VStr "{ids:[1,2]}")]]).
Proof.
  apply (bulk_requests (fixture [] [] (Some VNull)) "http://api" VUndefined
           "posts" bulkParams emptyWorld VNull (fixture_distinct _ _ _)
           eq_refl (λ _, eq_refl)).
Defined.

(** ** Where the two files agree *)

Lemma build_agrees rt apiUrl settings type resource params w :
  NoDup (actions_lib rt) →
  type ∈ [GET_ONE rt; CREATE rt; UPDATE rt; DELETE rt] →
  Lib.buildRequest rt apiUrl settings type resource params w
  = Src.buildRequest rt apiUrl settings type resource params w.
Proof.
  intros Hd Ht. unfold Src.buildRequest, Lib.buildRequest.
  rewrite !bind_read. cbv beta iota.
  each_kind Hd Ht; kinds; reflexivity.
Qed.

(** Without a key [__proto__] in the source, [Object.assign] and the spread
    copy the same. *)
Lemma assign_spread h target source :
  "__proto__" ∉ keys h source →
  Object_assign h target source = spread h target source.
Proof.
  unfold Object_assign, spread, keys. generalize (entries h source).
  intros fs. revert target. induction fs as [|[k v] fs IH]; intros target Hk.
  - reflexivity.
  - rewrite fmap_cons, not_elem_of_cons in Hk. destruct Hk as [Hne Hk].
    simpl in Hne. cbn [foldl fst snd].
    rewrite eqb_false by (intros ->; apply Hne; reflexivity). apply IH, Hk.
Qed.

Lemma response_agrees rt settings type params response w :
  NoDup (actions_lib rt) →
  type ∈ [GET_ONE rt; CREATE rt; UPDATE rt; DELETE rt] →
  type = DELETE rt
  ∨ "__proto__" ∉ keys (objects w)
      (prop (objects w) (prop (objects w) (prop (objects w) response "data") "data")
         "attributes") →
  settle (let* total := Lib.total rt settings type response in
          Lib.normalize rt type params response total) w
  = settle (let* total := Src.total rt settings type response in
            Src.normalize rt type params response total) w.
Proof.
  intros Hd Ht Hproto.
  assert (Hsingle : type ∈ [GET_ONE rt; CREATE rt; UPDATE rt] ∨ type = DELETE rt).
  { rewrite !elem_of_cons in Ht. rewrite !elem_of_cons. tauto. }
  destruct Hsingle as [Hs | ->].
  - destruct Hproto as [-> | Hproto].
    { distinct Hd. rewrite !elem_of_cons in Hs.
      destruct Hs as [Hs|[Hs|[Hs|Hs]]]; [congruence.. | inversion Hs]. }
    rewrite Src_single_response, Lib_single_response by assumption.
    unfold flat, flatSpread. rewrite (assign_spread _ _ _ Hproto). reflexivity.
  - distinct Hd. unfold settle, Lib.total, Lib.normalize, Src.total, Src.normalize.
    unfold includes; cbn [existsb]; kinds; reflexivity.
Qed.

(** X13.  The two files are the same program on GET_ONE, CREATE, UPDATE and
    DELETE, one thing apart: for every input a call gives the same outcome,
    sends the same request and leaves the same heap, provided the attributes
    of the record in the response have no key [__proto__], which the spread
    of [src/index.js] copies and the [_extends] of the compiled variant does
    not.  (DELETE does not read the response.) *)
Theorem single_kinds_agree rt apiUrl userSettings type resource params w :
  NoDup (actions_lib rt) →
  type ∈ [GET_ONE rt; CREATE rt; UPDATE rt; DELETE rt] →
  type = DELETE rt
  ∨ (∀ request response h,
       axios rt request = Some response →
       "__proto__" ∉ keys h (prop h (prop h (prop h response "data") "data")
                               "attributes")) →
  Lib.dataProvider rt apiUrl userSettings type resource params w
  = Src.dataProvider rt apiUrl userSettings type resource params w.
Proof.
  intros Hd Ht Hproto.
  rewrite Src_dataProvider_unfold, Lib_dataProvider_unfold.
  rewrite build_agrees by assumption.
  destruct (Src.buildRequest _ _ _ _ _ _ _) as [[[[url options] params']|e] w1];
    [|reflexivity].
  cbv zeta. destruct (axios rt _) as [response|] eqn:Hax; [|reflexivity].
  apply response_agrees; [assumption.. |].
  destruct Hproto as [-> | Hproto]; [left; reflexivity | right].
  apply (Hproto _ _ _ Hax).
Qed.

Lemma single_kinds_agree_witness :
  Lib.dataProvider (fixture [] [] (Some recordResponse)) "http://api" VUndefined
    "UPDATE" "posts" (VRef 1%positive) updateWorld
  = Src.dataProvider (fixture [] [] (Some recordResponse)) "http://api" VUndefined
      "UPDATE" "posts" (VRef 1%positive) updateWorld.
Proof.
  apply (single_kinds_agree (fixture [] [] (Some recordResponse)) "http://api"
           VUndefined "UPDATE" "posts" (VRef 1%positive) updateWorld
           (fixture_distinct _ _ _)).
  - apply (bool_decide_unpack _). vm_compute. exact I.
  - right. intros request response h Hax. injection Hax as <-.
    apply (bool_decide_unpack _). vm_compute. exact I.
Defined.

(** ** Calls without [params] *)

Ltac no_params Hp :=
  kinds;
  unfold Src.listQuery, Src.referenceQuery, Src.manyQuery,
         Lib.listQuery, Lib.referenceQuery, Lib.manyQuery, pageQuery;
  unfold bind, read, get; rewrite Hp; reflexivity.

(** X14.  A call of a supported kind without [params] ([undefined] or
    [null]) throws a [TypeError] at once: no request is sent and nothing is
    written.  In both files, each for its own kinds. *)
Theorem missing_params rt apiUrl userSettings type resource params w :
  NoDup (actions_lib rt) →
  notNull params = false →
  (type ∈ actions rt →
   Src.dataProvider rt apiUrl userSettings type resource params w
   = (Throw TypeError, w))
  ∧ (type ∈ actions_lib rt →
     Lib.dataProvider rt apiUrl userSettings type resource params w
     = (Throw TypeError, w)).
Proof.
  intros Hd Hp. distinct Hd. split; intros Ht.
  - rewrite Src_dataProvider_unfold. unfold Src.buildRequest.
    rewrite bind_read. cbv beta iota.
    unfold actions in Ht.
    repeat (apply elem_of_cons in Ht as [-> | Ht]); [..|inversion Ht]; no_params Hp.
  - rewrite Lib_dataProvider_unfold. unfold Lib.buildRequest.
    rewrite bind_read. cbv beta iota.
    unfold actions_lib in Ht.
    repeat (apply elem_of_cons in Ht as [-> | Ht]); [..|inversion Ht]; no_params Hp.
Qed.

Lemma missing_params_witness :
  Src.dataProvider (fixture [] [] None) "http://api" VUndefined "GET_LIST" "posts"
    VUndefined emptyWorld
  = (Throw TypeError, emptyWorld).
Proof.
  apply (proj1 (missing_params (fixture [] [] None) "http://api" VUndefined
                  "GET_LIST" "posts" VUndefined emptyWorld (fixture_distinct _ _ _)
                  eq_refl)).
  apply (bool_decide_unpack _). vm_compute. exact I.
Defined.

(** X15.  GET_ONE asks for [base/resource/id], the id being [params.id] as a
    string, for an id that is a string, an integer that a JavaScript number
    holds exactly, or another primitive (a [params] without [id] asks for
    [base/resource/undefined]); the request has no method and no body, and
    nothing of the caller's is written.  In both files. *)
Theorem get_one_request rt apiUrl userSettings resource params w :
  let settings := merged rt userSettings in
  let request := oneRequest rt apiUrl resource settings params (objects w) in
  NoDup (actions_lib rt) →
  notNull params = true →
  printable (prop (objects w) params "id") = true →
  sends w request (Src.dataProvider rt apiUrl userSettings (GET_ONE rt) resource params w)
  ∧ sends w request
      (Lib.dataProvider rt apiUrl userSettings (GET_ONE rt) resource params w).
Proof.
  intros settings request Hd Hp _. distinct Hd. split.
  - pose proof (Src_dataProvider_run rt apiUrl userSettings (GET_ONE rt) resource
                  params w) as Hrun.
    unfold Src.buildRequest in Hrun. rewrite bind_read in Hrun.
    cbv beta iota in Hrun. revert Hrun. kinds.
    rewrite bind_read, get_ok by exact Hp. exact id.
  - pose proof (Lib_dataProvider_run rt apiUrl userSettings (GET_ONE rt) resource
                  params w) as Hrun.
    unfold Lib.buildRequest in Hrun. rewrite bind_read in Hrun.
    cbv beta iota in Hrun. revert Hrun. kinds.
    rewrite bind_read, get_ok by exact Hp. exact id.
Qed.

Lemma get_one_request_witness :
  sends emptyWorld
    (VObj [("url", VStr "http://api/posts/undefined"); ("headers", VObj [])])
    (Lib.dataProvider (fixture [] [] None) "http://api" VUndefined "GET_ONE" "posts"
       (VObj []) emptyWorld)
  ∧ sends emptyWorld
      (VObj [("url", VStr "http://api/posts/7"); ("headers", VObj [])])
      (Src.dataProvider (fixture [] [] None) "http://api" VUndefined "GET_ONE" "posts"
         deleteParams emptyWorld).
Proof.
  split.
  - apply (proj2 (get_one_request (fixture [] [] None) "http://api" VUndefined "posts"
                    (VObj []) emptyWorld (fixture_distinct _ _ _) eq_refl eq_refl)).
  - apply (proj1 (get_one_request (fixture [] [] None) "http://api" VUndefined "posts"
                    deleteParams emptyWorld (fixture_distinct _ _ _) eq_refl eq_refl)).
Defined.

(** ** The resource of the [fields] parameter *)

Lemma split_nonempty sep s : split sep s ≠ [].
Proof.
  destruct s as [|c s]; simpl; [discriminate|].
  destruct (Ascii.eqb c sep); [discriminate|].
  destruct (split sep s); discriminate.
Qed.

Lemma split_length sep p s :
  (2 ≤ List.length (split sep (p +:+ String sep s)))%nat.
Proof.
  induction p as [|c p IH]; simpl.
  - rewrite Ascii.eqb_refl. simpl.
    pose proof (split_nonempty sep s). destruct (split sep s); [congruence | simpl; lia].
  - destruct (Ascii.eqb c sep); simpl; [lia|].
    destruct (split sep (p +:+ String sep s)); simpl in *; lia.
Qed.

Lemma split_last sep p s :
  last (split sep (p +:+ String sep s)) = last (split sep s).
Proof.
  induction p as [|c p IH]; simpl.
  - rewrite Ascii.eqb_refl.
    pose proof (split_nonempty sep s). destruct (split sep s); [congruence | reflexivity].
  - pose proof (split_length sep p s) as Hl.
    destruct (Ascii.eqb c sep).
    + rewrite <- IH. destruct (split sep (p +:+ String sep s)); [simpl in Hl; lia|].
      reflexivity.
    + rewrite <- IH. destruct (split sep (p +:+ String sep s)) as [|q [|q' qs]];
        simpl in Hl; try lia. reflexivity.
Qed.

(** X16.  The resource of the [fields[..]] parameter is the last segment of
    the resource path: for a nested resource [prefix/name] it is [name], and
    a resource without [/] is taken whole. *)
Theorem apiResource_last_segment prefix name :
  split "/"%char name = [name] →
  apiResource (prefix +:+ "/" +:+ name) = name ∧ apiResource name = name.
Proof.
  intros Hname. unfold apiResource. split.
  - change (prefix +:+ "/" +:+ name) with (prefix +:+ String "/"%char name).
    rewrite split_last, Hname. reflexivity.
  - rewrite Hname. reflexivity.
Qed.

Lemma apiResource_last_segment_witness :
  apiResource ("users/5" +:+ "/" +:+ "posts") = "posts" ∧ apiResource "posts" = "posts".
Proof. apply (apiResource_last_segment "users/5" "posts"). reflexivity. Defined.

(** ** What a call writes *)

Lemma frame_refl ks w : frame ks w w.
Proof. intros v k _. reflexivity. Qed.

Lemma frame_objects ks w w1 w2 :
  objects w2 = objects w1 → frame ks w w1 → frame ks w w2.
Proof. intros Ho H v k Hk. rewrite Ho. apply H, Hk. Qed.

Lemma frame_readonly {A} ks (m : M A) w : readonly m → frame ks w (m w).2.
Proof. intros H. rewrite H. apply frame_refl. Qed.

Lemma frame_bind {A B} ks (m : M A) (k : A → M B) w :
  frame ks w (m w).2 →
  (∀ a w1, m w = (Normal a, w1) → frame ks w1 (k a w1).2) →
  frame ks w (bind m k w).2.
Proof.
  intros Hm Hk. unfold bind. destruct (m w) as [[a|e] w1]; [|exact Hm].
  intros v k0 Hk0. rewrite (Hk a w1 eq_refl) by exact Hk0. apply Hm, Hk0.
Qed.

Lemma frame_insert ks (h : heap) s l fs fs' :
  cell h l = Obj fs →
  (∀ k, k ∉ ks → lookupOwn k fs' = lookupOwn k fs) →
  frame ks (World h s) (World (<[l := Obj fs']> h) s).
Proof.
  intros Hc Hfs v k Hk. unfold prop. destruct v; try reflexivity. simpl.
  rewrite cell_insert. destruct (decide (l = l0)) as [<-|Hne]; [|reflexivity].
  rewrite Hc, Hfs by exact Hk. reflexivity.
Qed.

Lemma frame_setProp ks v k x w : k ∈ ks → frame ks w (setProp v k x w).2.
Proof.
  intros Hk. destruct v; try apply frame_refl. simpl.
  rewrite bind_read. destruct w as [h s]. cbn [objects].
  destruct (cell h l) as [fs|xs] eqn:Hc; [|apply frame_refl].
  apply (frame_insert _ _ _ _ _ _ Hc). intros k0 Hk0.
  apply lookupOwn_setOwn_ne. intros ->. contradiction.
Qed.

Lemma frame_deleteProp ks v k w : k ∈ ks → frame ks w (deleteProp v k w).2.
Proof.
  intros Hk. destruct v; try apply frame_refl. simpl.
  rewrite bind_read. destruct w as [h s]. cbn [objects].
  destruct (cell h l) as [fs|xs] eqn:Hc; [|apply frame_refl].
  apply (frame_insert _ _ _ _ _ _ Hc). intros k0 Hk0.
  rewrite lookupOwn_deleteOwn, eqb_false; [reflexivity|]. intros ->. contradiction.
Qed.

Lemma frame_writeBack ks owner k child w :
  k ∈ ks → frame ks w (writeBack owner k child w).2.
Proof.
  intros Hk. destruct child; first [apply frame_refl | apply frame_setProp, Hk].
Qed.

Lemma read_inv {A} (f : heap → outcome A) w a w' :
  read f w = (Normal a, w') → f (objects w) = Normal a ∧ w' = w.
Proof. unfold read. intros H. injection H as -> <-. auto. Qed.

(** [addFieldsToparams] writes [params.fields]; the object it fills in is a
    fresh one. *)
Lemma addFields_writes rt resource params w :
  frame ["fields"] w (addFieldsToparams rt resource params w).2.
Proof.
  assert (Hin : "fields" ∈ ["fields"]) by apply list_elem_of_here.
  unfold addFieldsToparams. revert w.
  do 4 (intros w; apply frame_bind; [apply frame_readonly, readonly_read|];
        intros ? w1 _; clear w; revert w1).
  intros w. destruct (notNull _); [|apply frame_refl].
  apply frame_bind; [apply frame_setProp, Hin|]. intros params1 w1 E.
  apply setProp_inv in E as (_ & Hn1 & Hf1 & _).
  apply frame_bind; [apply frame_readonly, readonly_read|]. intros fields w2 E.
  apply read_inv in E as [E ->]. rewrite get_ok in E by exact Hn1.
  injection E as <-. rewrite Hf1.
  do 2 (apply frame_bind; [apply frame_readonly, readonly_read|];
        intros ? w2 E; apply read_inv in E as [_ ->]).
  apply frame_bind; [apply frame_refl|]. intros fields w2 E.
  simpl in E. injection E as <- <-.
  apply frame_bind; [apply frame_writeBack, Hin|]. intros params2 w2 _.
  apply frame_refl.
Qed.

Ltac frame_reads :=
  repeat first
    [ apply frame_refl
    | apply frame_readonly;
        first [ apply readonly_read | apply readonly_ret | apply readonly_throw
              | apply readonly_pageQuery | apply readonly_addParams
              | apply readonly_addSort ]
    | apply addFields_writes
    | apply frame_deleteProp; set_solver
    | apply frame_writeBack; set_solver
    | match goal with
      | |- ∀ _, _ => intros ?
      | |- _ = _ → _ => intros _
      | |- frame _ _ (let '(_, _) := ?c in _) => destruct c
      | |- frame _ ?w (bind _ _ ?w).2 => apply frame_bind
      end ].

Lemma Src_listQuery_writes rt resource params w :
  frame ["fields"] w (Src.listQuery rt resource params w).2.
Proof. unfold Src.listQuery. frame_reads. Qed.

Lemma Lib_listQuery_writes rt resource params w :
  frame ["fields"] w (Lib.listQuery rt resource params w).2.
Proof. unfold Lib.listQuery. frame_reads. Qed.

Lemma Src_provider_objects rt apiUrl userSettings type resource params w :
  objects (Src.dataProvider rt apiUrl userSettings type resource params w).2
  = objects (Src.buildRequest rt apiUrl (merged rt userSettings) type resource
               params w).2.
Proof.
  pose proof (Src_dataProvider_run rt apiUrl userSettings type resource params w)
    as Hrun.
  destruct (Src.buildRequest _ _ _ _ _ _ _) as [[[[url options] params']|e] w1].
  - destruct Hrun as [p ->]. reflexivity.
  - rewrite Hrun. reflexivity.
Qed.

Lemma Lib_provider_objects rt apiUrl userSettings type resource params w :
  objects (Lib.dataProvider rt apiUrl userSettings type resource params w).2
  = objects (Lib.buildRequest rt apiUrl (merged rt userSettings) type resource
               params w).2.
Proof.
  pose proof (Lib_dataProvider_run rt apiUrl userSettings type resource params w)
    as Hrun.
  destruct (Lib.buildRequest _ _ _ _ _ _ _) as [[[[url options] params']|e] w1].
  - destruct Hrun as [p ->]. reflexivity.
  - rewrite Hrun. reflexivity.
Qed.

(** X17.  What GET_LIST and UPDATE write, in both files and whatever the
    outcome of the call: GET_LIST writes properties named [fields] and
    nothing else, UPDATE properties named [id] and [data] and nothing else;
    every other property of every object of the caller reads as before. *)
Theorem write_footprint rt apiUrl userSettings resource params w :
  NoDup (actions_lib rt) →
  frame ["fields"] w
    (Src.dataProvider rt apiUrl userSettings (GET_LIST rt) resource params w).2
  ∧ frame ["fields"] w
      (Lib.dataProvider rt apiUrl userSettings (GET_LIST rt) resource params w).2
  ∧ frame ["id"; "data"] w
      (Src.dataProvider rt apiUrl userSettings (UPDATE rt) resource params w).2
  ∧ frame ["id"; "data"] w
      (Lib.dataProvider rt apiUrl userSettings (UPDATE rt) resource params w).2.
Proof.
  intros Hd. distinct Hd. repeat split.
  - eapply frame_objects; [apply Src_provider_objects|].
    rewrite Src_list_request.
    pose proof (Src_listQuery_writes rt resource params w) as Hw.
    destruct (Src.listQuery rt resource params w) as [[[q p]|e] w']; [|exact Hw].
    destruct (stringify rt _ _ _); exact Hw.
  - eapply frame_objects; [apply Lib_provider_objects|].
    rewrite Lib_list_request.
    pose proof (Lib_listQuery_writes rt resource params w) as Hw.
    destruct (Lib.listQuery rt resource params w) as [[[q p]|e] w']; [|exact Hw].
    destruct (stringify rt _ _ _); exact Hw.
  - eapply frame_objects; [apply Src_provider_objects|].
    unfold Src.buildRequest. rewrite bind_read. cbv beta iota. kinds. frame_reads.
  - eapply frame_objects; [apply Lib_provider_objects|].
    unfold Lib.buildRequest. rewrite bind_read. cbv beta iota. kinds. frame_reads.
Qed.

Lemma write_footprint_witness :
  frame ["id"; "data"] updateWorld
    (Lib.dataProvider (fixture [] [] None) "http://api" VUndefined "UPDATE" "posts"
       (VRef 1%positive) updateWorld).2.
Proof.
  apply (write_footprint (fixture [] [] None) "http://api" VUndefined "posts"
           (VRef 1%positive) updateWorld (fixture_distinct _ _ _)).
Defined.

(** ** A listed column that is not available *)

Lemma mapO_throw {A B} (f : A → outcome B) xs e :
  (∀ x e, f x = Throw e → e = TypeError) → mapO f xs = Throw e → e = TypeError.
Proof.
  intros Hf. revert e. induction xs as [|x xs IH]; simpl; intros e; [discriminate|].
  apply obind_throw; [intros ?; apply Hf|].
  intros y e0. apply obind_throw; [exact IH|]. discriminate.
Qed.

Lemma filterO_throw {A} (f : A → outcome bool) xs e :
  (∀ x e, f x = Throw e → e = TypeError) → filterO f xs = Throw e → e = TypeError.
Proof.
  intros Hf. revert e. induction xs as [|x xs IH]; simpl; intros e; [discriminate|].
  apply obind_throw; [intros ?; apply Hf|].
  intros y e0. apply obind_throw; [exact IH|]. discriminate.
Qed.

Lemma findO_throw (f : value → outcome bool) xs e :
  (∀ x e, f x = Throw e → e = TypeError) → findO f xs = Throw e → e = TypeError.
Proof.
  intros Hf. revert e. induction xs as [|x xs IH]; simpl; intros e; [discriminate|].
  apply obind_throw; [intros ?; apply Hf|].
  intros [|] e0; [discriminate | apply IH].
Qed.

Lemma compare_throw rt h a k c e :
  (let+ x := get h a k in Normal (looseEq rt x c)) = Throw e → e = TypeError.
Proof. apply obind_throw; [intros ?; apply get_throw | discriminate]. Qed.

(** The selection throws nothing but a [TypeError]. *)
Lemma selected_throw rt h columns omit available e :
  selected rt h columns omit available = Throw e → e = TypeError.
Proof.
  unfold selected. apply obind_throw.
  - intros e0. destruct (notNull omit); [|discriminate].
    apply obind_throw; [intros ?; apply isArray_throw|].
    intros av e1. apply obind_throw; [|discriminate].
    intros e2. apply filterO_throw. intros a e3.
    apply obind_throw; [intros ?; apply isArray_throw|].
    intros os e4. apply obind_throw; [|discriminate].
    intros e5. apply findO_throw. intros o e6.
    apply obind_throw; [intros ?; apply get_throw | discriminate].
  - intros v e0. destruct (notNull columns); [|discriminate].
    apply obind_throw; [intros ?; apply isArray_throw|].
    intros cs e1. apply obind_throw; [|discriminate].
    intros e2. apply mapO_throw. intros c e3.
    apply obind_throw; [intros ?; apply isArray_throw|].
    intros av e4. apply findO_throw. intros a e5. apply compare_throw.
Qed.

Lemma typeErrors_throw {A} : typeErrors (@throw A TypeError).
Proof. intros w e w' H. injection H as <- _. reflexivity. Qed.

Lemma typeErrors_store l o : typeErrors (store l o).
Proof. intros w e w' H. discriminate. Qed.

Lemma typeErrors_forEach {A B} (xs : list A) (body : A → B → M B) acc :
  (∀ x b, typeErrors (body x b)) → typeErrors (forEach xs body acc).
Proof.
  intros Hb. revert acc. induction xs as [|x xs IH]; intros acc; simpl.
  - apply typeErrors_ret.
  - apply typeErrors_bind; [apply Hb | intros b; apply IH].
Qed.

Lemma typeErrors_setProp v k x : typeErrors (setProp v k x).
Proof.
  destruct v; simpl; try apply typeErrors_throw; [apply typeErrors_ret|].
  apply typeErrors_bind; [apply typeErrors_read; discriminate|].
  intros [fs|xs]; [|apply typeErrors_throw].
  apply typeErrors_bind; [apply typeErrors_store | intros ?; apply typeErrors_ret].
Qed.

Lemma typeErrors_writeBack owner k child : typeErrors (writeBack owner k child).
Proof.
  destruct child; first [apply typeErrors_ret | apply typeErrors_setProp].
Qed.

Lemma typeErrors_pageQuery params : typeErrors (pageQuery params).
Proof. unfold pageQuery. typeErrors. Qed.

Lemma typeErrors_addSort rt params query : typeErrors (addSort rt params query).
Proof. unfold addSort. typeErrors. Qed.

Lemma typeErrors_addParams name params query : typeErrors (addParams name params query).
Proof.
  unfold addParams.
  apply typeErrors_bind; [apply typeErrors_read; intros ? ?; apply get_throw|].
  intros group.
  apply typeErrors_bind.
  { apply typeErrors_read. intros h e. unfold Object_keys.
    destruct (notNull _); congruence. }
  intros ks. apply typeErrors_forEach. intros key q.
  apply typeErrors_bind; [|intros ?; apply typeErrors_ret].
  apply typeErrors_read. intros h e.
  apply obind_throw; intros ?; [|intros ?]; apply get_throw.
Qed.

Lemma findO_unmatched rt h c av x :
  Forall (λ a, matches rt h c a = false) av →
  findO (λ a, let+ index := get h a "index" in Normal (looseEq rt index c)) av
  = Normal x →
  x = VUndefined.
Proof.
  induction 1 as [|a av Ha _ IH]; simpl; intros H.
  - injection H as <-. reflexivity.
  - unfold get in H at 1. destruct (notNull a); [|discriminate].
    cbn [obind] in H. unfold matches in Ha. rewrite Ha in H. exact (IH H).
Qed.

Section Stale.

Variables (rt : imports) (resource : string) (cs av : list value) (omit c : value).

Hypothesis stored_columns :
  getItemJSON rt (baseKey resource +:+ ".columns") = Normal (VArr cs).
Hypothesis stored_omit :
  getItemJSON rt (baseKey resource +:+ ".omit") = Normal omit.
Hypothesis stored_available :
  getItemJSON rt (baseKey resource +:+ ".availableColumns") = Normal (VArr av).
Hypothesis listed : c ∈ cs.
Hypothesis unmatched : ∀ h, Forall (λ a, matches rt h c a = false) av.

Lemma addFields_typeErrors params : typeErrors (addFieldsToparams rt resource params).
Proof.
  intros w e w'.
  rewrite (addFields_selected rt resource (VArr cs) omit (VArr av)) by assumption.
  revert w e w'.
  apply typeErrors_bind; [apply typeErrors_read; intros ? ?; apply selected_throw|].
  intros sel. destruct (notNull sel); [|apply typeErrors_ret]. cbv zeta.
  apply typeErrors_bind; [apply typeErrors_setProp|]. intros params1.
  apply typeErrors_bind; [apply typeErrors_read; intros ? ?; apply get_throw|].
  intros fields.
  apply typeErrors_bind.
  { apply typeErrors_read. intros h e.
    apply obind_throw; [intros ?; apply isArray_throw|].
    intros xs e0. apply mapO_throw. intros s e1. apply get_throw. }
  intros sources.
  apply typeErrors_bind; [apply typeErrors_read; discriminate|]. intros joined.
  apply typeErrors_bind; [apply typeErrors_setProp|]. intros fields'.
  apply typeErrors_bind; [apply typeErrors_writeBack|]. intros params2.
  apply typeErrors_ret.
Qed.

Lemma picked_unmatched h columns picked :
  c ∈ columns →
  mapO (λ c,
    let+ av := isArray h (VArr av) in
    findO (λ a, let+ index := get h a "index" in Normal (looseEq rt index c)) av)
    columns
  = Normal picked →
  ¬ Forall (λ s, notNull s = true) picked.
Proof.
  revert picked. induction columns as [|c0 columns IH]; intros picked Hin H Hn.
  - inversion Hin.
  - simpl in H. destruct (findO _ av) as [x|] eqn:Ex; [|discriminate].
    cbn [obind] in H. destruct (mapO _ columns) as [xs|] eqn:Exs; [|discriminate].
    cbn [obind] in H. injection H as <-.
    inversion Hn as [|? ? Hx Hxs]; subst.
    apply elem_of_cons in Hin as [<- | Hin].
    + apply (findO_unmatched _ _ _ _ _ (unmatched h)) in Ex. subst x. discriminate.
    + exact (IH xs Hin eq_refl Hxs).
Qed.

(** The preferences cannot be applied. *)
Lemma addFields_stale params w params' w' :
  addFieldsToparams rt resource params w ≠ (Normal params', w').
Proof.
  intros H.
  destruct (selected rt (objects w) (VArr cs) omit (VArr av)) as [v|e] eqn:Es.
  - assert (∃ picked, v = VArr picked
              ∧ ¬ Forall (λ s, notNull s = true) picked) as (picked & -> & Hp).
    { unfold selected in Es.
      destruct (if notNull omit then _ else _) as [v0|]; [|discriminate].
      cbn [obind notNull isArray deref] in Es.
      destruct (mapO _ cs) as [picked|] eqn:Ep; [|discriminate].
      cbn [obind] in Es. injection Es as <-.
      exists picked. split; [reflexivity|].
      exact (picked_unmatched (objects w) cs picked listed Ep). }
    destruct (addFields_some rt resource (VArr cs) omit (VArr av)
                stored_columns stored_omit stored_available
                params w params' w' picked Es H) as [Hn _].
    contradiction.
  - rewrite (addFields_throw rt resource (VArr cs) omit (VArr av)
               stored_columns stored_omit stored_available _ _ _ Es) in H.
    discriminate.
Qed.

Lemma Src_listQuery_stale params w :
  ∃ w', Src.listQuery rt resource params w = (Throw TypeError, w').
Proof.
  destruct (Src.listQuery rt resource params w) as [[[q params']|e] w'] eqn:E.
  - apply Src_listQuery_inv in E as (_ & _ & Ha & _).
    destruct (addFields_stale _ _ _ _ Ha).
  - exists w'. f_equal. f_equal. revert E. unfold Src.listQuery.
    repeat first
      [ apply typeErrors_ret | apply typeErrors_pageQuery | apply typeErrors_addParams
      | apply addFields_typeErrors | apply typeErrors_addSort
      | apply typeErrors_bind; [|intros ?] ].
Qed.

Lemma Lib_listQuery_stale params w :
  ∃ w', Lib.listQuery rt resource params w = (Throw TypeError, w').
Proof.
  destruct (Lib.listQuery rt resource params w) as [[[q params']|e] w'] eqn:E.
  - apply Lib_listQuery_inv in E as (_ & _ & Ha & _).
    destruct (addFields_stale _ _ _ _ Ha).
  - exists w'. f_equal. f_equal. revert E. unfold Lib.listQuery.
    repeat first
      [ apply typeErrors_ret | apply typeErrors_pageQuery | apply typeErrors_addParams
      | apply addFields_typeErrors | apply typeErrors_addSort
      | apply typeErrors_bind; [|intros ?] ].
Qed.

End Stale.

(** X18.  A stored column list that names a column which is not among the
    available ones breaks GET_LIST: [find] gives [undefined] for it and
    reading its [source] is a [TypeError].  Every such call throws, in both
    files, and no request is sent. *)
Theorem stale_column_throws rt apiUrl userSettings resource params w cs av omit c :
  getItemJSON rt (baseKey resource +:+ ".columns") = Normal (VArr cs) →
  getItemJSON rt (baseKey resource +:+ ".omit") = Normal omit →
  getItemJSON rt (baseKey resource +:+ ".availableColumns") = Normal (VArr av) →
  c ∈ cs →
  (∀ h, Forall (λ a, matches rt h c a = false) av) →
  crashes w (Src.dataProvider rt apiUrl userSettings (GET_LIST rt) resource params w)
  ∧ crashes w
      (Lib.dataProvider rt apiUrl userSettings (GET_LIST rt) resource params w).
Proof.
  intros Hc Ho Ha Hin Hun. split.
  - pose proof (Src_build_quiet rt apiUrl (merged rt userSettings) (GET_LIST rt)
                  resource params w) as Hq.
    rewrite Src_dataProvider_unfold. rewrite Src_list_request in *.
    destruct (Src_listQuery_stale rt resource cs av omit c Hc Ho Ha Hin Hun params w)
      as [w' E].
    rewrite E in *. exists w'. auto.
  - pose proof (Lib_build_quiet rt apiUrl (merged rt userSettings) (GET_LIST rt)
                  resource params w) as Hq.
    rewrite Lib_dataProvider_unfold. rewrite Lib_list_request in *.
    destruct (Lib_listQuery_stale rt resource cs av omit c Hc Ho Ha Hin Hun params w)
      as [w' E].
    rewrite E in *. exists w'. auto.
Qed.

Lemma stale_column_throws_witness :
  crashes emptyWorld
    (Src.dataProvider (listedColumns [VNum 2; VNum 3]) "http://api" VUndefined
       "GET_LIST" "posts" (listParams "ASC") emptyWorld).
Proof.
  apply (stale_column_throws (listedColumns [VNum 2; VNum 3]) "http://api" VUndefined
           "posts" (listParams "ASC") emptyWorld [VNum 2; VNum 3]
           [VObj [("index", VNum 1); ("source", VStr "title")];
            VObj [("index", VNum 2); ("source", VStr "body")]]
           VNull (VNum 3) eq_refl eq_refl eq_refl).
  - apply elem_of_cons. right. apply list_elem_of_here.
  - intros h. repeat constructor.
Defined.

(** ** The omit list *)

Lemma findO_find rt h a os :
  notNull a = true →
  findO (λ o, let+ source := get h a "source" in Normal (looseEq rt source o)) os
  = Normal (default VUndefined (find (λ o, looseEq rt (prop h a "source") o) os)).
Proof.
  intros Ha. unfold get. rewrite Ha. cbn [obind].
  induction os as [|o os IH]; simpl; [reflexivity|].
  destruct (looseEq rt (prop h a "source") o); [reflexivity | exact IH].
Qed.

Lemma find_truthy rt h a os :
  Forall (λ o, truthy o = true) os → omitted rt h os a = inOmit rt h os a.
Proof.
  unfold omitted, inOmit. induction 1 as [|o os Ho _ IH]; simpl; [reflexivity|].
  destruct (looseEq rt (prop h a "source") o); [exact Ho | exact IH].
Qed.

Lemma find_falsy rt h a os :
  Forall (λ o, truthy o = false) os → omitted rt h os a = false.
Proof.
  unfold omitted. induction 1 as [|o os Ho _ IH]; simpl; [reflexivity|].
  destruct (looseEq rt (prop h a "source") o); [exact Ho | exact IH].
Qed.

(** X19.  The omit list, without a column list: a column is left out when
    the first omit entry that equals its source is truthy.  For an omit list
    of truthy entries this is "the source is in the omit list"; an entry that
    is falsy (the empty string, [0], [null]) omits nothing, a column with
    that source is kept. *)
Theorem omit_selection rt h os av :
  Forall (λ a, notNull a = true) av →
  selected rt h VNull (VArr os) (VArr av)
  = Normal (VArr (List.filter (λ a, negb (omitted rt h os a)) av))
  ∧ (Forall (λ o, truthy o = true) os →
     selected rt h VNull (VArr os) (VArr av)
     = Normal (VArr (List.filter (λ a, negb (inOmit rt h os a)) av)))
  ∧ (Forall (λ o, truthy o = false) os →
     selected rt h VNull (VArr os) (VArr av) = Normal (VArr av)).
Proof.
  intros Hav.
  assert (Hsel : selected rt h VNull (VArr os) (VArr av)
                 = Normal (VArr (List.filter (λ a, negb (omitted rt h os a)) av))).
  { unfold selected. cbn [notNull isArray deref obind].
    assert (Hk : filterO (λ a,
                   let+ hit := findO (λ o,
                     let+ source := get h a "source" in
                     Normal (looseEq rt source o)) os in
                   Normal (negb (truthy hit))) av
                 = Normal (List.filter (λ a, negb (omitted rt h os a)) av)).
    { induction Hav as [|a av Ha _ IH]; simpl; [reflexivity|].
      rewrite (findO_find _ _ _ _ Ha). cbn [obind]. rewrite IH. reflexivity. }
    rewrite Hk. reflexivity. }
  split; [exact Hsel|].
  split; intros Hos; rewrite Hsel; do 2 f_equal; clear Hsel Hav.
  - induction av as [|a av IH]; simpl; [reflexivity|].
    rewrite (find_truthy _ _ _ _ Hos), IH. reflexivity.
  - induction av as [|a av IH]; simpl; [reflexivity|].
    rewrite (find_falsy _ _ _ _ Hos). simpl. f_equal. exact IH.
Qed.

Lemma omit_selection_witness :
  selected (fixture [] [] None) ∅ VNull (VArr [VStr EmptyString])
    (VArr [VObj [("source", VStr EmptyString)]; VObj [("source", VStr "title")]])
  = Normal (VArr [VObj [("source", VStr EmptyString)]; VObj [("source", VStr "title")]]).
Proof.
  apply (omit_selection (fixture [] [] None) ∅ [VStr EmptyString]
           [VObj [("source", VStr EmptyString)]; VObj [("source", VStr "title")]]);
    repeat constructor.
Defined.

(** ** The [fields] parameter of GET_LIST *)

Lemma find_existsb {A} (f : A → bool) xs :
  existsb f xs = true → ∃ x, find f xs = Some x ∧ x ∈ xs.
Proof.
  induction xs as [|a xs IH]; simpl; [discriminate|].
  destruct (f a); simpl.
  - intros _. exists a. split; [reflexivity | apply list_elem_of_here].
  - intros H. destruct (IH H) as (x & Hx & Hin). exists x.
    split; [exact Hx | apply elem_of_cons; auto].
Qed.

Lemma findO_matches rt h c av :
  Forall (λ a, notNull a = true) av →
  findO (λ a, let+ index := get h a "index" in Normal (looseEq rt index c)) av
  = Normal (default VUndefined (find (matches rt h c) av)).
Proof.
  induction 1 as [|a av Ha _ IH]; simpl; [reflexivity|].
  rewrite get_ok by exact Ha. cbn [obind]. unfold matches at 1.
  destruct (looseEq rt (prop h a "index") c); [reflexivity | exact IH].
Qed.

Lemma picked_run rt h cs av :
  Forall (λ a, notNull a = true) av →
  Forall (λ c, existsb (matches rt h c) av = true) cs →
  mapO (λ c,
    let+ av := isArray h (VArr av) in
    findO (λ a, let+ index := get h a "index" in Normal (looseEq rt index c)) av) cs
  = Normal (omap (λ c, find (matches rt h c) av) cs).
Proof.
  intros Hav Hcs. cbn [isArray deref obind].
  induction Hcs as [|c cs Hc _ IH]; cbn [mapO omap]; [reflexivity|].
  rewrite (findO_matches _ _ _ _ Hav). cbn [obind]. rewrite IH. cbn [obind].
  destruct (find_existsb _ _ Hc) as (x & Ex & _).
  rewrite Ex. simpl. rewrite Ex. reflexivity.
Qed.

Lemma kept_run rt h os av :
  Forall (λ a, notNull a = true) av →
  filterO (λ a,
    let+ os := isArray h (VArr os) in
    let+ hit := findO (λ o,
      let+ source := get h a "source" in Normal (looseEq rt source o)) os in
    Normal (negb (truthy hit))) av
  = Normal (List.filter (λ a, negb (omitted rt h os a)) av).
Proof.
  intros Hav. cbn [isArray deref obind].
  induction Hav as [|a av Ha _ IH]; cbn [filterO]; [reflexivity|].
  rewrite (findO_find _ _ _ _ Ha). cbn [obind]. rewrite IH. reflexivity.
Qed.

Lemma filter_truthy rt h os av :
  Forall (λ o, truthy o = true) os →
  List.filter (λ a, negb (omitted rt h os a)) av
  = List.filter (λ a, negb (inOmit rt h os a)) av.
Proof.
  intros Hos. induction av as [|a av IH]; simpl; [reflexivity|].
  rewrite (find_truthy _ _ _ _ Hos), IH. reflexivity.
Qed.

(** Preferences that are applicable select what the spec says. *)
Lemma selected_run rt h columns omit available sel :
  selection rt h columns omit available = Some sel →
  applicable rt h columns omit available →
  selected rt h columns omit available = Normal (VArr sel).
Proof.
  unfold selection, applicable, selected. intros Hs (Hav & Ho & Hcs).
  destruct columns as [| | | | |cs| |]; try discriminate.
  - destruct omit as [| | | | |os| |]; try discriminate;
      destruct available as [| | | | |av| |]; try discriminate;
      injection Hs as <-.
    + reflexivity.
    + destruct Ho as [Ho | (os' & Ho & Hos)]; [discriminate|].
      injection Ho as <-.
      pose proof (kept_run rt h os av (Hav _ eq_refl)) as Hk.
      cbn [notNull isArray deref obind] in Hk |- *. rewrite Hk. cbn [obind].
      rewrite (filter_truthy _ _ _ _ Hos). reflexivity.
  - destruct available as [| | | | |av| |]; try discriminate.
    injection Hs as <-.
    assert (Hfirst : ∃ v0,
      (if notNull omit
       then
         let+ av0 := isArray h (VArr av) in
         let+ kept := filterO (λ a,
           let+ os := isArray h omit in
           let+ hit := findO (λ o,
             let+ source := get h a "source" in
             Normal (looseEq rt source o)) os in
           Normal (negb (truthy hit))) av0 in
         Normal (VArr kept)
       else Normal (VArr av)) = Normal v0).
    { destruct Ho as [-> | (os & -> & _)]; [eexists; reflexivity|].
      pose proof (kept_run rt h os av (Hav _ eq_refl)) as Hk.
      cbn [notNull isArray deref obind] in Hk |- *. rewrite Hk.
      eexists. reflexivity. }
    destruct Hfirst as [v0 ->].
    pose proof (picked_run rt h cs av (Hav _ eq_refl) (Hcs _ _ eq_refl eq_refl)) as Hp.
    cbn [obind notNull isArray deref] in Hp |- *. rewrite Hp. reflexivity.
Qed.

Lemma selection_notNull rt h columns omit available sel :
  selection rt h columns omit available = Some sel →
  (∀ av, available = VArr av → Forall (λ a, notNull a = true) av) →
  Forall (λ s, notNull s = true) sel.
Proof.
  unfold selection. intros Hs Hav.
  assert (Hfilter : ∀ (f : value → bool) av,
    Forall (λ a, notNull a = true) av →
    Forall (λ a, notNull a = true) (List.filter f av)).
  { intros f av. induction 1 as [|a av Ha _ IH]; simpl; [constructor|].
    destruct (f a); [constructor; assumption | assumption]. }
  destruct columns as [| | | | |cs| |]; try discriminate.
  - destruct omit as [| | | | |os| |]; try discriminate;
      destruct available as [| | | | |av| |]; try discriminate;
      injection Hs as <-; auto.
  - destruct available as [| | | | |av| |]; try discriminate.
    injection Hs as <-. specialize (Hav av eq_refl).
    induction cs as [|c cs IH]; simpl; [constructor|].
    destruct (find (matches rt h c) av) as [x|] eqn:Ex; [|exact IH].
    constructor; [|exact IH].
    apply find_some in Ex as [Hin _].
    rewrite Forall_forall in Hav. apply Hav. apply list_elem_of_In, Hin.
Qed.

Lemma sources_run h xs :
  Forall (λ s, notNull s = true) xs →
  mapO (λ s, get h s "source") xs = Normal ((λ s, prop h s "source") <$> xs).
Proof.
  induction 1 as [|x xs Hx _ IH]; simpl; [reflexivity|].
  rewrite get_ok by exact Hx. cbn [obind]. rewrite IH. reflexivity.
Qed.

(** An assignment to an object goes through, and the object can be assigned
    to again. *)
Lemma setProp_run v k x w :
  writable (objects w) v = true →
  ∃ v' w', setProp v k x w = (Normal v', w') ∧ writable (objects w') v' = true.
Proof.
  destruct v; simpl; try discriminate.
  - intros _. eexists _, _. split; reflexivity.
  - rewrite bind_read. destruct (cell (objects w) l) as [fs|xs] eqn:Hc; [|discriminate].
    intros _. eexists _, _. split; [reflexivity|].
    simpl. rewrite cell_insert, decide_True by reflexivity. reflexivity.
Qed.

Section Applied.

Variables (rt : imports) (resource : string) (columns omit available : value).

Hypothesis stored_columns :
  getItemJSON rt (baseKey resource +:+ ".columns") = Normal columns.
Hypothesis stored_omit :
  getItemJSON rt (baseKey resource +:+ ".omit") = Normal omit.
Hypothesis stored_available :
  getItemJSON rt (baseKey resource +:+ ".availableColumns") = Normal available.

(** With a selection of columns that are there, [addFieldsToparams]
    returns. *)
Lemma addFields_returns params w xs :
  selected rt (objects w) columns omit available = Normal (VArr xs) →
  Forall (λ s, notNull s = true) xs →
  writable (objects w) params = true →
  ∃ params' w', addFieldsToparams rt resource params w = (Normal params', w').
Proof.
  intros Hsel Hxs Hw.
  rewrite (addFields_selected rt resource columns omit available) by assumption.
  rewrite bind_read, Hsel. cbn [notNull]. cbv zeta.
  destruct (setProp_run params "fields" (VObj []) w Hw) as (p1 & w1 & E1 & Hw1).
  unfold bind at 1. rewrite E1.
  apply setProp_inv in E1 as (_ & Hn1 & Hf1 & _).
  rewrite bind_read, get_ok by exact Hn1. rewrite Hf1.
  rewrite bind_read. cbn [isArray deref obind].
  rewrite (sources_run _ _ Hxs).
  rewrite bind_read. unfold bind at 1. simpl setProp. unfold ret at 1.
  unfold writeBack.
  destruct (setProp_run p1 "fields"
              (VObj [(apiResource resource,
                      VStr (join rt (objects w1) ","
                              ((λ s, prop (objects w1) s "source") <$> xs)))])
              w1 Hw1)
    as (p2 & w2 & E2 & _).
  unfold bind at 1. rewrite E2. eexists _, _. reflexivity.
Qed.

End Applied.

(** C5.  The [fields] parameter that GET_LIST gets from the stored column
    preferences, in both files, for a call whose [params] has a pagination.
    - Applicable preferences (the available columns are objects, the omit
      list has no falsy entry, every listed column is available) are
      applied as the spec words the selection: the available columns named
      by the column list, in listed order; else the available columns whose
      source is not in the omit list; else all available columns.  The call
      builds its query, and the query has [fields[T]], the sources of the
      selected columns joined with commas, for the last segment [T] of the
      resource, and no other [fields] parameter.
    - With nothing stored the call builds its query and [params] is left as
      it is: the [fields] parameters are those of the caller's own
      [params.fields], none if there is none.
    - A listed column that is not available is not skipped, as the spec's
      selection skips it: the call throws a [TypeError] and builds no
      query. *)
Theorem list_fields rt resource params w columns omit available :
  let h := objects w in
  let T := apiResource resource in
  let built q_src q_lib params' w' :=
    Src.listQuery rt resource params w = (Normal (q_src, params'), w')
    ∧ Lib.listQuery rt resource params w = (Normal (q_lib, params'), w') in
  getItemJSON rt (baseKey resource +:+ ".columns") = Normal columns →
  getItemJSON rt (baseKey resource +:+ ".omit") = Normal omit →
  getItemJSON rt (baseKey resource +:+ ".availableColumns") = Normal available →
  notNull params = true →
  notNull (prop h params "pagination") = true →
  (∀ sel, selection rt h columns omit available = Some sel →
     applicable rt h columns omit available →
     let sources := (λ a, prop h a "source") <$> sel in
     Forall (λ s, primitive s = true) sources →
     writable h params = true →
     ∃ q_src q_lib params' w',
       built q_src q_lib params' w'
       ∧ ∀ q, q = q_src ∨ q = q_lib →
           lookupOwn (param "fields" T) q = Some (VStr (join rt h "," sources))
           ∧ ∀ x, x ≠ T → lookupOwn (param "fields" x) q = None)
  ∧ (columns = VNull → omit = VNull → available = VNull →
     ∃ q_src q_lib,
       built q_src q_lib params w
       ∧ ∀ q x, q = q_src ∨ q = q_lib →
           lookupOwn (param "fields" x) q
           = if bool_decide (x ∈ keys h (or_else (prop h params "fields") (VObj [])))
             then Some (prop h (prop h params "fields") x) else None)
  ∧ (∀ cs av c, columns = VArr cs → available = VArr av →
       c ∈ cs → (∀ h, Forall (λ a, matches rt h c a = false) av) →
       selection rt h columns omit available
       = Some (omap (λ c, find (matches rt h c) av) cs)
       ∧ (∃ w', Src.listQuery rt resource params w = (Throw TypeError, w'))
       ∧ (∃ w', Lib.listQuery rt resource params w = (Throw TypeError, w'))).
Proof.
  intros h T built Hc Ho Ha Hp Hg.
  assert (Hrun : ∀ params' w',
    addFieldsToparams rt resource params w = (Normal params', w') →
    ∃ q_src q_lib, built q_src q_lib params' w').
  { intros params' w' Hadd.
    pose proof (Src_listQuery_run rt resource params w params' w' Hp Hg Hadd) as Hs.
    pose proof (Lib_listQuery_run rt resource params w params' w' Hp Hg Hadd) as Hl.
    cbv zeta in Hs, Hl. eexists _, _. split; [exact Hs | exact Hl]. }
  split; [|split].
  - intros sel Hsel Happ sources Hprim Hw.
    pose proof (selected_run _ _ _ _ _ _ Hsel Happ) as Hselected.
    pose proof (selection_notNull _ _ _ _ _ _ Hsel (proj1 Happ)) as Hnn.
    destruct (addFields_returns rt resource columns omit available Hc Ho Ha
                params w sel Hselected Hnn Hw) as (params' & w' & Hadd).
    destruct (Hrun params' w' Hadd) as (q_src & q_lib & Hs & Hl).
    exists q_src, q_lib, params', w'. split; [split; assumption|].
    assert (Ht : ∀ os, omit = VArr os → Forall (λ o, truthy o = true) os).
    { destruct Happ as (_ & [-> | (os' & -> & Hos)] & _); intros os E.
      - discriminate.
      - injection E as <-. exact Hos. }
    intros q [-> | ->].
    + destruct (list_fields_built rt resource params w q_src params' w'
                  columns omit available (or_introl Hs) Hc Ho Ha Ht) as [Hfields _].
      exact (Hfields sel Hsel Hprim).
    + destruct (list_fields_built rt resource params w q_lib params' w'
                  columns omit available (or_intror Hl) Hc Ho Ha Ht) as [Hfields _].
      exact (Hfields sel Hsel Hprim).
  - intros Hc0 Ho0 Ha0.
    assert (Hadd : addFieldsToparams rt resource params w = (Normal params, w)).
    { apply (addFields_none rt resource columns omit available Hc Ho Ha)
        with (v := VNull); [|reflexivity].
      rewrite Hc0, Ho0, Ha0. reflexivity. }
    destruct (Hrun params w Hadd) as (q_src & q_lib & Hs & Hl).
    exists q_src, q_lib. split; [split; assumption|].
    assert (Ht : ∀ os, omit = VArr os → Forall (λ o, truthy o = true) os).
    { intros os E. rewrite Ho0 in E. discriminate. }
    intros q x [-> | ->].
    + destruct (list_fields_built rt resource params w q_src params w
                  columns omit available (or_introl Hs) Hc Ho Ha Ht) as [_ Hnull].
      exact (Hnull Hc0 Ho0 Ha0 x).
    + destruct (list_fields_built rt resource params w q_lib params w
                  columns omit available (or_intror Hl) Hc Ho Ha Ht) as [_ Hnull].
      exact (Hnull Hc0 Ho0 Ha0 x).
  - intros cs av c -> -> Hin Hun. split; [reflexivity|]. split.
    + exact (Src_listQuery_stale rt resource cs av omit c Hc Ho Ha Hin Hun params w).
    + exact (Lib_listQuery_stale rt resource cs av omit c Hc Ho Ha Hin Hun params w).
Qed.

(** The column list [[1, 3]] over the available columns 1 and 2: the spec's
    selection is the column 1, and both files throw.  The omit list
    [["body"]] over the same columns: both files ask for [fields[posts] =
    title]. *)
Lemma list_fields_witness :
  (selection (listedColumns [VNum 1; VNum 3]) ∅ (VArr [VNum 1; VNum 3]) VNull
     (VArr [VObj [("index", VNum 1); ("source", VStr "title")];
            VObj [("index", VNum 2); ("source", VStr "body")]])
   = Some [VObj [("index", VNum 1); ("source", VStr "title")]]
   ∧ (∃ w', Src.listQuery (listedColumns [VNum 1; VNum 3]) "posts" (listParams "ASC")
              emptyWorld = (Throw TypeError, w'))
   ∧ (∃ w', Lib.listQuery (listedColumns [VNum 1; VNum 3]) "posts" (listParams "ASC")
              emptyWorld = (Throw TypeError, w')))
  ∧ ∃ q_src q_lib params' w',
      (Src.listQuery examplePreferences "posts" (listParams "ASC") emptyWorld
       = (Normal (q_src, params'), w')
       ∧ Lib.listQuery examplePreferences "posts" (listParams "ASC") emptyWorld
         = (Normal (q_lib, params'), w'))
      ∧ lookupOwn "fields[posts]" q_src = Some (VStr "title")
      ∧ lookupOwn "fields[posts]" q_lib = Some (VStr "title").
Proof.
  split.
  - destruct (list_fields (listedColumns [VNum 1; VNum 3]) "posts" (listParams "ASC")
                emptyWorld (VArr [VNum 1; VNum 3]) VNull
                (VArr [VObj [("index", VNum 1); ("source", VStr "title")];
                       VObj [("index", VNum 2); ("source", VStr "body")]])
                eq_refl eq_refl eq_refl eq_refl eq_refl) as (_ & _ & Hstale).
    apply (Hstale _ _ (VNum 3) eq_refl eq_refl).
    + apply elem_of_cons. right. apply list_elem_of_here.
    + intros h. repeat constructor.
  - destruct (list_fields examplePreferences "posts" (listParams "ASC") emptyWorld
                VNull (VArr [VStr "body"])
                (VArr [VObj [("index", VNum 1); ("source", VStr "title")];
                       VObj [("index", VNum 2); ("source", VStr "body")]])
                eq_refl eq_refl eq_refl eq_refl eq_refl) as (Hsel & _).
    destruct (Hsel [VObj [("index", VNum 1); ("source", VStr "title")]] eq_refl)
      as (q_src & q_lib & params' & w' & Hbuilt & Hq).
    + split; [|split].
      * intros av E. injection E as <-. repeat constructor.
      * right. eexists. split; [reflexivity | repeat constructor].
      * intros cs av E. discriminate.
    + repeat constructor.
    + reflexivity.
    + exists q_src, q_lib, params', w'. split; [exact Hbuilt|].
      split; [apply (Hq q_src) | apply (Hq q_lib)]; auto.
Defined.

(** ** The request of GET_LIST *)

(** X20.  GET_LIST sends the query it has built: when [qs] returns the text
    of the query, the request goes to [base/resource?] followed by the text,
    with the settings' headers; when [qs] throws, or the query cannot be
    built, the call throws the same and nothing is sent.  In both files,
    each with its own query. *)
Theorem list_request rt apiUrl userSettings resource params w :
  let headers := prop (objects w) (merged rt userSettings) "headers" in
  let sent_or_thrown q w1 run :=
    match stringify rt (objects w1) (VObj q) VUndefined with
    | Normal qs =>
        ∃ p, run = (Normal p,
                    World (objects w1)
                      (sent w ++ [listRequest apiUrl resource headers qs]))
    | Throw e => run = (Throw e, w1) ∧ sent w1 = sent w
    end in
  (∀ q params' w1,
     Src.listQuery rt resource params w = (Normal (q, params'), w1) →
     sent_or_thrown q w1
       (Src.dataProvider rt apiUrl userSettings (GET_LIST rt) resource params w))
  ∧ (∀ q params' w1,
       Lib.listQuery rt resource params w = (Normal (q, params'), w1) →
       sent_or_thrown q w1
         (Lib.dataProvider rt apiUrl userSettings (GET_LIST rt) resource params w))
  ∧ (∀ e w1,
       Src.listQuery rt resource params w = (Throw e, w1) →
       Src.dataProvider rt apiUrl userSettings (GET_LIST rt) resource params w
       = (Throw e, w1) ∧ sent w1 = sent w)
  ∧ (∀ e w1,
       Lib.listQuery rt resource params w = (Throw e, w1) →
       Lib.dataProvider rt apiUrl userSettings (GET_LIST rt) resource params w
       = (Throw e, w1) ∧ sent w1 = sent w).
Proof.
  intros headers sent_or_thrown.
  pose proof (Src_dataProvider_run rt apiUrl userSettings (GET_LIST rt) resource
                params w) as Hs.
  pose proof (Lib_dataProvider_run rt apiUrl userSettings (GET_LIST rt) resource
                params w) as Hl.
  pose proof (Src_build_quiet rt apiUrl (merged rt userSettings) (GET_LIST rt)
                resource params w) as Hqs.
  pose proof (Lib_build_quiet rt apiUrl (merged rt userSettings) (GET_LIST rt)
                resource params w) as Hql.
  rewrite Src_list_request in Hs, Hqs. rewrite Lib_list_request in Hl, Hql.
  unfold sent_or_thrown. repeat split.
  - intros q params' w1 E. rewrite E in Hs, Hqs.
    destruct (stringify rt _ _ _); simpl in Hqs; [|auto].
    rewrite Hqs in Hs. exact Hs.
  - intros q params' w1 E. rewrite E in Hl, Hql.
    destruct (stringify rt _ _ _); simpl in Hql; [|auto].
    rewrite Hql in Hl. exact Hl.
  - rewrite H in Hs. exact Hs.
  - rewrite H in Hqs. exact Hqs.
  - rewrite H in Hl. exact Hl.
  - rewrite H in Hql. exact Hql.
Qed.

Lemma list_request_witness :
  (∃ p,
     Src.dataProvider (fixture [] [] None) "http://api" VUndefined "GET_LIST" "posts"
       (listParams "ASC") emptyWorld
     = (Normal p,
        World ∅ [VObj [("url", VStr ("http://api/posts?page[number]=1&page[size]=10"
                                     +:+ "&filter[q]=x&sort=name"));
                       ("headers", VObj [])]]))
  ∧ (∃ p,
       Lib.dataProvider (fixture [] [] None) "http://api" VUndefined "GET_LIST"
         "posts" metaParams emptyWorld
       = (Normal p,
          World ∅ [VObj [("url", VStr ("http://api/posts?page[number]=1&page[size]=10"
                                       +:+ "&meta[include]=author"));
                         ("headers", VObj [])]])).
Proof.
  destruct (list_request (fixture [] [] None) "http://api" VUndefined "posts"
              (listParams "ASC") emptyWorld) as [Hsrc _].
  destruct (list_request (fixture [] [] None) "http://api" VUndefined "posts"
              metaParams emptyWorld) as (_ & Hlib & _).
  split.
  - exact (Hsrc [("page[number]", VNum 1); ("page[size]", VNum 10);
                 ("filter[q]", VStr "x"); ("sort", VStr "name")]
             (listParams "ASC") emptyWorld eq_refl).
  - exact (Hlib [("page[number]", VNum 1); ("page[size]", VNum 10);
                 ("meta[include]", VStr "author")]
             metaParams emptyWorld eq_refl).
Defined.

(** ** Stored preferences that do not parse *)

Lemma addFields_unparsed rt resource params w e :
  preferences rt resource = Throw e →
  addFieldsToparams rt resource params w = (Throw e, w).
Proof.
  unfold preferences, addFieldsToparams. intros H.
  rewrite bind_read. destruct (getItemJSON rt (baseKey resource +:+ ".columns"));
    cbn [obind] in H; [|injection H as ->; reflexivity].
  rewrite bind_read. destruct (getItemJSON rt (baseKey resource +:+ ".omit"));
    cbn [obind] in H; [|injection H as ->; reflexivity].
  rewrite bind_read.
  destruct (getItemJSON rt (baseKey resource +:+ ".availableColumns"));
    cbn [obind] in H; [discriminate | injection H as ->; reflexivity].
Qed.

(** X21.  A stored preference that is not valid JSON breaks GET_LIST: the
    error of [JSON.parse] is thrown by the call, in both files, before any
    request is sent and with nothing written. *)
Theorem unparsed_preferences_throw rt apiUrl userSettings resource params w e :
  notNull params = true →
  notNull (prop (objects w) params "pagination") = true →
  preferences rt resource = Throw e →
  Src.dataProvider rt apiUrl userSettings (GET_LIST rt) resource params w
  = (Throw e, w)
  ∧ Lib.dataProvider rt apiUrl userSettings (GET_LIST rt) resource params w
    = (Throw e, w).
Proof.
  intros Hp Hg He. split.
  - rewrite Src_dataProvider_unfold, Src_list_request.
    unfold Src.listQuery, bind at 1. rewrite pageQuery_run by assumption.
    unfold bind at 1. rewrite addParams_run by assumption.
    unfold bind at 1. rewrite (addFields_unparsed _ _ _ _ _ He). reflexivity.
  - rewrite Lib_dataProvider_unfold, Lib_list_request.
    unfold Lib.listQuery, bind at 1. rewrite pageQuery_run by assumption.
    unfold bind at 1. rewrite addParams_run by assumption.
    unfold bind at 1. rewrite (addFields_unparsed _ _ _ _ _ He). reflexivity.
Qed.

Lemma unparsed_preferences_throw_witness :
  Src.dataProvider brokenStore "http://api" VUndefined "GET_LIST" "posts"
    (listParams "ASC") emptyWorld
  = (Throw SyntaxError, emptyWorld).
Proof.
  apply (unparsed_preferences_throw brokenStore "http://api" VUndefined "posts"
           (listParams "ASC") emptyWorld SyntaxError eq_refl eq_refl eq_refl).
Defined.

(** ** What the handler rejects with *)

Ltac kind_cases Ht :=
  repeat (apply elem_of_cons in Ht as [Ht | Ht];
          [apply String.eqb_eq in Ht|]);
  [..|inversion Ht].

Ltac handler_errors Ht :=
  kind_cases Ht; rewrite ?Ht; cbn [orb]; rewrite ?orb_true_r;
  repeat match goal with
  | |- typeErrors (if true then _ else _) => cbv iota
  | |- typeErrors (if ?c then _ else _) => destruct c
  end; typeErrors.

Lemma Src_normalize_typeErrors rt type params response total :
  type ∈ actions rt → typeErrors (Src.normalize rt type params response total).
Proof.
  intros Ht. unfold Src.normalize, includes. cbn [existsb].
  unfold actions in Ht. handler_errors Ht.
Qed.

Lemma Lib_normalize_typeErrors rt type params response total :
  type ∈ actions_lib rt → typeErrors (Lib.normalize rt type params response total).
Proof.
  intros Ht. unfold Lib.normalize, includes. cbn [existsb].
  unfold actions_lib in Ht. handler_errors Ht.
Qed.

Ltac supported H :=
  repeat match type of H with
  | (if String.eqb ?a ?b then _ else _) _ = _ =>
      let E := fresh "E" in
      destruct (String.eqb_spec a b) as [E|E];
        [rewrite E; set_solver|]
  end.

(** A request is built for the kinds of the file only. *)
Lemma Src_build_supported rt apiUrl settings type resource params w built w' :
  Src.buildRequest rt apiUrl settings type resource params w = (Normal built, w') →
  type ∈ actions rt.
Proof.
  unfold Src.buildRequest, actions. rewrite bind_read. cbv beta iota. intros H.
  supported H. discriminate.
Qed.

Lemma Lib_build_supported rt apiUrl settings type resource params w built w' :
  Lib.buildRequest rt apiUrl settings type resource params w = (Normal built, w') →
  type ∈ actions_lib rt.
Proof.
  unfold Lib.buildRequest, actions_lib. rewrite bind_read. cbv beta iota. intros H.
  supported H. discriminate.
Qed.

(** X22.  The "unsupported request type" error of the second [switch] is
    never seen: a kind that would reach it has made the first [switch] throw
    before the request is sent.  What the handler rejects a promise with is a
    [TypeError], in both files (the helper [getValue] of the compiled variant
    being one that does not throw). *)
Theorem handler_rejection rt apiUrl userSettings type resource params w e w' :
  (Src.dataProvider rt apiUrl userSettings type resource params w
   = (Normal (Rejected (Some e)), w') →
   e = TypeError)
  ∧ (Lib.dataProvider rt apiUrl userSettings type resource params w
     = (Normal (Rejected (Some e)), w') →
     e = TypeError).
Proof.
  split; intros H.
  - rewrite Src_dataProvider_unfold in H.
    destruct (Src.buildRequest _ _ _ _ _ _ _) as [[[[url options] params']|e0] w1]
      eqn:Hb; [|discriminate].
    apply Src_build_supported in Hb. cbv zeta in H.
    destruct (axios rt _) as [response|]; [|discriminate].
    unfold settle in H.
    destruct (bind _ _ _) as [[v|e0] w2] eqn:E; [discriminate|].
    injection H as <- _. revert E.
    apply typeErrors_bind; [apply Src_total_typeErrors|].
    intros total. apply Src_normalize_typeErrors, Hb.
  - rewrite Lib_dataProvider_unfold in H.
    destruct (Lib.buildRequest _ _ _ _ _ _ _) as [[[[url options] params']|e0] w1]
      eqn:Hb; [|discriminate].
    apply Lib_build_supported in Hb. cbv zeta in H.
    destruct (axios rt _) as [response|]; [|discriminate].
    unfold settle in H.
    destruct (bind _ _ _) as [[v|e0] w2] eqn:E; [discriminate|].
    injection H as <- _. revert E.
    apply typeErrors_bind; [apply Lib_total_typeErrors|].
    intros total. apply Lib_normalize_typeErrors, Hb.
Qed.

Lemma handler_rejection_witness :
  ∃ e w',
    Src.dataProvider (fixture [] [] (Some VNull)) "http://api" VUndefined "GET_ONE"
      "posts" deleteParams emptyWorld = (Normal (Rejected (Some e)), w')
    ∧ e = TypeError.
Proof.
  eexists _, _. split; [vm_compute; reflexivity|].
  eapply (proj1 (handler_rejection (fixture [] [] (Some VNull)) "http://api"
                   VUndefined "GET_ONE" "posts" deleteParams emptyWorld _ _)).
  vm_compute. reflexivity.
Defined.
